(** * ChildFirst: incident capture, timeline queries and report exports

    A shallow embedding of the React components of the ChildFirst
    application (VoiceRecording, IncidentTimeline, Settings, LegalTools)
    and the properties of their incident engine.

    Conventions of the embedding.
    - JavaScript strings are [string]s; case folding and white space are
      those of ASCII text.
    - Integral JavaScript numbers are [Z] (or [N] for clock readings).
    - [localStorage] holds JSON text under three fixed keys; the model keeps
      the decoded value of each key ([JSON.parse] after [JSON.stringify] is
      the identity on these shapes).
    - Browser and library services that the components call but do not
      define (Date, date-fns, jsPDF text measuring) are members of the
      classes [Dates] and [TextMetrics].
    - An event handler runs to completion: the awaits of an async handler
      are not interleaved with other handlers. *)

From Stdlib Require Import String Ascii ZArith NArith List Bool Lia.
From Stdlib Require Import DecimalString DecimalN DecimalZ.
From Stdlib Require Import Sorted Permutation.
From Stdlib Require HexadecimalString.
Import ListNotations.

Open Scope string_scope.
Open Scope Z_scope.

(** ** JavaScript string primitives *)

(** A JavaScript string is a sequence of UTF-16 code units.  A string here
    holds the code units below 256, the characters of Basic Latin and of the
    Latin-1 Supplement, one in each place, so that its length is the length
    in code units; text with other characters is outside the embedding. *)

(** The white space and the line terminators that [String.prototype.trim]
    removes, among these characters: TAB, LF, VT, FF, CR, SPACE and the
    no-break space U+00A0. *)
Definition isWhiteSpace (c : ascii) : bool :=
  let n := nat_of_ascii c in
  ((9 <=? n) && (n <=? 13))%nat || (n =? 32)%nat || (n =? 160)%nat.

Fixpoint trimStart (s : string) : string :=
  match s with
  | EmptyString => EmptyString
  | String c s' => if isWhiteSpace c then trimStart s' else s
  end.

Fixpoint trimEnd (s : string) : string :=
  match s with
  | EmptyString => EmptyString
  | String c s' =>
      match trimEnd s' with
      | EmptyString => if isWhiteSpace c then EmptyString else String c EmptyString
      | t => String c t
      end
  end.

(** [s.trim()] *)
Definition trim (s : string) : string := trimEnd (trimStart s).

(** Truthiness of a string: only the empty string is falsy. *)
Definition truthy (s : string) : bool :=
  match s with EmptyString => false | _ => true end.

(** [a || b] on strings. *)
Definition or_else (a b : string) : string := if truthy a then a else b.

(** The lower case of a character: the capitals A to Z, and of the Latin-1
    Supplement those from U+00C0 to U+00DE but for the multiplication sign
    U+00D7, go 32 places on; every other character stays. *)
Definition lowerChar (c : ascii) : ascii :=
  let n := nat_of_ascii c in
  if (((65 <=? n) && (n <=? 90))
      || ((192 <=? n) && (n <=? 222) && negb (n =? 215)))%nat
  then ascii_of_nat (n + 32) else c.

(** [s.toLowerCase()] *)
Fixpoint toLowerCase (s : string) : string :=
  match s with
  | EmptyString => EmptyString
  | String c s' => String (lowerChar c) (toLowerCase s')
  end.

(** [s.includes(sub)] *)
Fixpoint includes (s sub : string) : bool :=
  if prefix sub s then true
  else match s with
       | EmptyString => false
       | String _ s' => includes s' sub
       end.

(** [xs.join(sep)] *)
Fixpoint join (sep : string) (xs : list string) : string :=
  match xs with
  | [] => EmptyString
  | [x] => x
  | x :: rest => x ++ sep ++ join sep rest
  end.

(** [s.split(c)] for a one-character separator; the result is never empty. *)
Fixpoint split (sep : ascii) (s : string) : list string :=
  match s with
  | EmptyString => [EmptyString]
  | String c s' =>
      if Ascii.eqb c sep then EmptyString :: split sep s'
      else match split sep s' with
           | [] => [String c EmptyString]
           | piece :: rest => String c piece :: rest
           end
  end.

(** The double-quote character. *)
Definition dquote : ascii := "034"%char.

(** [s.replace(/q/g, qq)] where q is the double-quote character and qq two
    of them. *)
Fixpoint doubleQuotes (s : string) : string :=
  match s with
  | EmptyString => EmptyString
  | String c s' =>
      if Ascii.eqb c dquote
      then String c (String c (doubleQuotes s'))
      else String c (doubleQuotes s')
  end.

(** [n.toString()] for an integer. *)
Definition toString (n : Z) : string := NilZero.string_of_int (Z.to_int n).

(** [Date.now().toString()]: a clock reading in milliseconds. *)
Definition msToString (n : N) : string := NilZero.string_of_uint (N.to_uint n).

(** [Number(s)] on a run of decimal digits; the empty string gives 0 and
    [None] stands for NaN.  Every piece of a severity band offered by the
    timeline's selector is of this form. *)
Definition Number (s : string) : option Z :=
  option_map (fun d => Z.of_N (N.of_uint d)) (NilEmpty.uint_of_string s).

(** [a >= b] and [a <= b] where [b] may be NaN or [undefined]: such a
    comparison is false. *)
Definition geq (a : Z) (b : option Z) : bool :=
  match b with Some b' => b' <=? a | None => false end.

Definition leq (a : Z) (b : option Z) : bool :=
  match b with Some b' => a <=? b' | None => false end.

(** ** Shared data *)

(** The [Incident] interface of IncidentTimeline.tsx and LegalTools.tsx.
    [location] is the optional field: [None] is [undefined]. *)
Module Incident.
Record t : Type := mk {
  id : string;
  timestamp : string;
  category : string;
  severity : Z;
  location : option string;
  transcript : string;
  peopleInvolved : list string
}.
End Incident.

(** [o || ''] for an optional string. *)
Definition orEmpty (o : option string) : string :=
  match o with
  | Some s => s
  | None => EmptyString
  end.

(** A notification raised through [useToast]. *)
Inductive Variant := default | destructive.

Record Toast : Type := mkToast {
  title : string;
  description : string;
  variant : Variant
}.

(** The settings object is opaque to the incident engine: a list of
    property names with the JSON text of their values. *)
Definition SettingsObject := list (string * string).

(** [localStorage], restricted to the keys the incident engine touches.
    [None] is a key that is not set ([getItem] returns [null]). *)
Record LocalStorage : Type := mkStorage {
  childfirst_incidents : option (list Incident.t);
  childfirst_settings : option SettingsObject;
  childfirst_last_backup : option string
}.

Definition emptyStorage : LocalStorage := mkStorage None None None.

(** [JSON.parse(localStorage.getItem('childfirst_incidents') || '[]')] *)
Definition getIncidents (ls : LocalStorage) : list Incident.t :=
  match childfirst_incidents ls with
  | Some l => l
  | None => []
  end.

(** [localStorage.setItem('childfirst_incidents', JSON.stringify(l))] *)
Definition setIncidents (l : list Incident.t) (ls : LocalStorage) : LocalStorage :=
  mkStorage (Some l) (childfirst_settings ls) (childfirst_last_backup ls).

(** [localStorage.setItem('childfirst_settings', JSON.stringify(o))] *)
Definition setSettingsItem (o : SettingsObject) (ls : LocalStorage) : LocalStorage :=
  mkStorage (childfirst_incidents ls) (Some o) (childfirst_last_backup ls).

(** [localStorage.setItem('childfirst_last_backup', s)] *)
Definition setLastBackup (s : string) (ls : LocalStorage) : LocalStorage :=
  mkStorage (childfirst_incidents ls) (childfirst_settings ls) (Some s).

(** The two clock readings a handler takes: [Date.now()] in milliseconds and
    [new Date().toISOString()]. *)
Record Clock : Type := mkClock {
  now : N;
  nowISO : string
}.

(** ** Platform services *)

(** The built-in [Date] and the two date-fns functions the components use.
    [getTime] is [None] for an invalid date (NaN); [format] is [None] when
    date-fns throws its RangeError on an invalid date. *)
Class Dates : Type := {
  Date : Type;
  newDate : string -> Date;
  getTime : Date -> option Z;
  parseISO : string -> Date;
  format : Date -> string -> option string
}.

(** jsPDF's [splitTextToSize(text, width)], which depends on font metrics. *)
Class TextMetrics : Type := {
  splitTextToSize : string -> Z -> list string
}.

(** ** VoiceRecording.tsx: the recording session and the incident builder *)

Module VoiceRecording.

Record VoiceRecordingState : Type := mkState {
  isRecording : bool;
  isPaused : bool;
  transcript : string;
  category : string;
  severity : Z;
  peopleInvolved : list string;
  location : string;
  timestamp : string
}.

(** The initial value of [useState] and the value [resetRecording] sets. *)
Definition initialState : VoiceRecordingState :=
  mkState false false "" "" 3 [] "" "".

(** [MediaRecorder.state] *)
Inductive RecordingState := inactive | recording | paused.

(** A [MediaRecorder] with the microphone stream it was built on. *)
Record MediaRecorder : Type := mkRecorder {
  stream : nat;
  rstate : RecordingState
}.

(** The component instance together with the browser resources it holds.
    [recognitionRef] is [None] when the browser has no SpeechRecognition,
    and otherwise tells whether the single instance is started: it is, from
    its [start()] until its [end] event.
    [openStreams] are the microphone streams whose tracks were not stopped,
    [activeIntervals] the intervals that were set and not cleared.
    [awaitingMicrophone] and [awaitingLocation] count the calls of
    [startRecording] that wait at its first and at its second [await]. *)
Record World : Type := mkWorld {
  state : VoiceRecordingState;
  recordingTime : Z;
  isListening : bool;
  mediaRecorderRef : option MediaRecorder;
  recognitionRef : option bool;
  timerRef : option nat;
  openStreams : list nat;
  activeIntervals : list nat;
  fresh : nat;
  localStorage : LocalStorage;
  toasts : list Toast;
  awaitingMicrophone : nat;
  awaitingLocation : nat
}.

Definition initialWorld (speech : bool) (ls : LocalStorage) : World :=
  mkWorld initialState 0 false None (if speech then Some false else None)
          None [] [] 1 ls [] 0 0.

Definition set_state f (w : World) : World :=
  mkWorld (f (state w)) (recordingTime w) (isListening w) (mediaRecorderRef w)
          (recognitionRef w) (timerRef w) (openStreams w) (activeIntervals w)
          (fresh w) (localStorage w) (toasts w)
          (awaitingMicrophone w) (awaitingLocation w).

Definition set_recordingTime f (w : World) : World :=
  mkWorld (state w) (f (recordingTime w)) (isListening w) (mediaRecorderRef w)
          (recognitionRef w) (timerRef w) (openStreams w) (activeIntervals w)
          (fresh w) (localStorage w) (toasts w)
          (awaitingMicrophone w) (awaitingLocation w).

Definition set_isListening b (w : World) : World :=
  mkWorld (state w) (recordingTime w) b (mediaRecorderRef w)
          (recognitionRef w) (timerRef w) (openStreams w) (activeIntervals w)
          (fresh w) (localStorage w) (toasts w)
          (awaitingMicrophone w) (awaitingLocation w).

Definition set_mediaRecorderRef r (w : World) : World :=
  mkWorld (state w) (recordingTime w) (isListening w) r
          (recognitionRef w) (timerRef w) (openStreams w) (activeIntervals w)
          (fresh w) (localStorage w) (toasts w)
          (awaitingMicrophone w) (awaitingLocation w).

Definition set_recognitionRef r (w : World) : World :=
  mkWorld (state w) (recordingTime w) (isListening w) (mediaRecorderRef w)
          r (timerRef w) (openStreams w) (activeIntervals w)
          (fresh w) (localStorage w) (toasts w)
          (awaitingMicrophone w) (awaitingLocation w).

Definition set_timerRef r (w : World) : World :=
  mkWorld (state w) (recordingTime w) (isListening w) (mediaRecorderRef w)
          (recognitionRef w) r (openStreams w) (activeIntervals w)
          (fresh w) (localStorage w) (toasts w)
          (awaitingMicrophone w) (awaitingLocation w).

Definition set_openStreams f (w : World) : World :=
  mkWorld (state w) (recordingTime w) (isListening w) (mediaRecorderRef w)
          (recognitionRef w) (timerRef w) (f (openStreams w)) (activeIntervals w)
          (fresh w) (localStorage w) (toasts w)
          (awaitingMicrophone w) (awaitingLocation w).

Definition set_activeIntervals f (w : World) : World :=
  mkWorld (state w) (recordingTime w) (isListening w) (mediaRecorderRef w)
          (recognitionRef w) (timerRef w) (openStreams w) (f (activeIntervals w))
          (fresh w) (localStorage w) (toasts w)
          (awaitingMicrophone w) (awaitingLocation w).

Definition set_fresh n (w : World) : World :=
  mkWorld (state w) (recordingTime w) (isListening w) (mediaRecorderRef w)
          (recognitionRef w) (timerRef w) (openStreams w) (activeIntervals w)
          n (localStorage w) (toasts w)
          (awaitingMicrophone w) (awaitingLocation w).

Definition set_localStorage f (w : World) : World :=
  mkWorld (state w) (recordingTime w) (isListening w) (mediaRecorderRef w)
          (recognitionRef w) (timerRef w) (openStreams w) (activeIntervals w)
          (fresh w) (f (localStorage w)) (toasts w)
          (awaitingMicrophone w) (awaitingLocation w).

Definition add_toast t (w : World) : World :=
  mkWorld (state w) (recordingTime w) (isListening w) (mediaRecorderRef w)
          (recognitionRef w) (timerRef w) (openStreams w) (activeIntervals w)
          (fresh w) (localStorage w) (toasts w ++ [t])
          (awaitingMicrophone w) (awaitingLocation w).

Definition set_awaitingMicrophone f (w : World) : World :=
  mkWorld (state w) (recordingTime w) (isListening w) (mediaRecorderRef w)
          (recognitionRef w) (timerRef w) (openStreams w) (activeIntervals w)
          (fresh w) (localStorage w) (toasts w)
          (f (awaitingMicrophone w)) (awaitingLocation w).

Definition set_awaitingLocation f (w : World) : World :=
  mkWorld (state w) (recordingTime w) (isListening w) (mediaRecorderRef w)
          (recognitionRef w) (timerRef w) (openStreams w) (activeIntervals w)
          (fresh w) (localStorage w) (toasts w)
          (awaitingMicrophone w) (f (awaitingLocation w)).

(** *** Handlers: state with exceptions

    A handler transforms the world and either completes or throws; what it
    changed before throwing stays changed. *)
Inductive Completion (A : Type) : Type :=
| Normal (a : A)
| Throw (error : string).
Arguments Normal {A} a.
Arguments Throw {A} error.

Definition Js (A : Type) : Type := World -> World * Completion A.

Definition ret {A} (a : A) : Js A := fun w => (w, Normal a).

Definition bind {A B} (c : Js A) (k : A -> Js B) : Js B :=
  fun w =>
    match c w with
    | (w', Normal a) => k a w'
    | (w', Throw e) => (w', Throw e)
    end.

Definition throw {A} (e : string) : Js A := fun w => (w, Throw e).

Definition get : Js World := fun w => (w, Normal w).

Definition modify (f : World -> World) : Js unit := fun w => (f w, Normal tt).

(** [try { body } catch (error) { handler }] *)
Definition tryCatch {A} (body handler : Js A) : Js A :=
  fun w =>
    match body w with
    | (w', Normal a) => (w', Normal a)
    | (w', Throw _) => handler w'
    end.

(** [if (cond) { body }] *)
Definition when (cond : bool) (body : Js unit) : Js unit :=
  if cond then body else ret tt.

Declare Scope js_scope.
Delimit Scope js_scope with js.
Notation "x <- c ;; k" := (bind c (fun x => k))
  (at level 61, c at next level, right associativity) : js_scope.
Notation "c ;; k" := (bind c (fun _ => k))
  (at level 61, right associativity) : js_scope.
Open Scope js_scope.

Definition toast (t : Toast) : Js unit := modify (add_toast t).

Definition setState (f : VoiceRecordingState -> VoiceRecordingState) : Js unit :=
  modify (set_state f).

(** *** Browser objects *)

(** [navigator.mediaDevices.getUserMedia({ audio: true })]: a new open
    stream, or a rejection when the microphone is not granted. *)
Definition getUserMedia (granted : bool) : Js nat :=
  if granted then
    w <- get ;;
    let s := fresh w in
    modify (set_fresh (S s)) ;;
    modify (set_openStreams (cons s)) ;;
    ret s
  else throw "NotAllowedError".

(** [stream.getTracks().forEach(track => track.stop())] *)
Definition stopTracks (s : nat) : Js unit :=
  modify (set_openStreams (filter (fun s' => negb (Nat.eqb s' s)))).

(** [MediaRecorder.start()]: throws unless the recorder is inactive. *)
Definition recorderStart (r : MediaRecorder) : Js unit :=
  match rstate r with
  | inactive => modify (set_mediaRecorderRef (Some (mkRecorder (stream r) recording)))
  | _ => throw "InvalidStateError"
  end.

(** [MediaRecorder.pause()]: throws on an inactive recorder. *)
Definition recorderPause (r : MediaRecorder) : Js unit :=
  match rstate r with
  | inactive => throw "InvalidStateError"
  | _ => modify (set_mediaRecorderRef (Some (mkRecorder (stream r) paused)))
  end.

(** [MediaRecorder.resume()]: throws on an inactive recorder. *)
Definition recorderResume (r : MediaRecorder) : Js unit :=
  match rstate r with
  | inactive => throw "InvalidStateError"
  | _ => modify (set_mediaRecorderRef (Some (mkRecorder (stream r) recording)))
  end.

(** [MediaRecorder.stop()]: does nothing on an inactive recorder. *)
Definition recorderStop (r : MediaRecorder) : Js unit :=
  modify (set_mediaRecorderRef (Some (mkRecorder (stream r) inactive))).

(** [SpeechRecognition.start()]: throws when recognition is already
    started. *)
Definition recognitionStart (started : bool) : Js unit :=
  if started then throw "InvalidStateError"
  else modify (set_recognitionRef (Some true)).

(** [SpeechRecognition.stop()]: asks the recognizer to stop.  Nothing
    changes at the call: the recognizer stays started until its [end] event
    is delivered. *)
Definition recognitionStop : Js unit := ret tt.

(** [timerRef.current = setInterval(..., 1000)] *)
Definition setIntervalTimer : Js unit :=
  w <- get ;;
  let t := fresh w in
  modify (set_fresh (S t)) ;;
  modify (set_activeIntervals (cons t)) ;;
  modify (set_timerRef (Some t)).

(** [clearInterval(t)] *)
Definition clearInterval (t : nat) : Js unit :=
  modify (set_activeIntervals (filter (fun t' => negb (Nat.eqb t' t)))).

(** *** The component's functions *)

Definition categories : list string :=
  ["Meltdown"; "School Refusal"; "Family Conflict"; "Sensory Overload";
   "Anxiety Episode"; "Positive Behavior"; "Breakthrough Moment";
   "Therapy Session"; "Medical Appointment"; "Other"].

Definition commonPeople : list string :=
  ["Child"; "Parent/Guardian"; "Sibling"; "Teacher"; "Therapist"; "Doctor";
   "Friend"; "Extended Family"; "Other Adult"].

(** What [startRecording] obtains from its surroundings: whether the
    microphone is granted, the string [getCurrentLocation] resolves to, and
    the clock. *)
Record StartEnv : Type := mkStartEnv {
  micGranted : bool;
  currentLocation : string;
  startClock : Clock
}.

Definition recordingStarted : Toast :=
  mkToast "Recording started" "Speak clearly for best transcription results." default.

Definition recordingFailed : Toast :=
  mkToast "Recording failed" "Please check microphone permissions." destructive.

Definition recordingStopped : Toast :=
  mkToast "Recording stopped" "Review and save your incident report." default.

Definition missingInformation : Toast :=
  mkToast "Missing information" "Please add a transcript and select a category." destructive.

Definition incidentSaved : Toast :=
  mkToast "Incident saved" "Your documentation has been securely stored." default.

(** [if (recognitionRef.current) { recognitionRef.current.start(); setIsListening(true); }] *)
Definition startListening : Js unit :=
  w <- get ;;
  match recognitionRef w with
  | Some started => recognitionStart started ;; modify (set_isListening true)
  | None => ret tt
  end.

(** [if (recognitionRef.current) { recognitionRef.current.stop(); setIsListening(false); }] *)
Definition stopListening : Js unit :=
  w <- get ;;
  match recognitionRef w with
  | Some _ => recognitionStop ;; modify (set_isListening false)
  | None => ret tt
  end.

(** [startRecording] runs in three stretches, cut at its two [await]s, and
    other handlers run between them.  The first stretch is the call of
    [getUserMedia] alone. *)

(** From the answer of [getUserMedia] to the call of [getCurrentLocation]:
    [true] when the call goes on, [false] when it ended in the [catch]. *)
Definition startRecording_afterMicrophone (granted : bool) : Js bool :=
  tryCatch
    (stream <- getUserMedia granted ;;
     modify (set_mediaRecorderRef (Some (mkRecorder stream inactive))) ;;
     ret true)
    (toast recordingFailed ;; ret false).

(** From the answer of [getCurrentLocation], which always resolves, to the
    end. *)
Definition startRecording_afterLocation (location : string) (clock : Clock)
  : Js unit :=
  tryCatch
    (let timestamp := nowISO clock in
     setState (fun prev =>
       mkState true false (transcript prev) (category prev) (severity prev)
               (peopleInvolved prev) location timestamp) ;;
     startListening ;;
     modify (set_recordingTime (fun _ => 0)) ;;
     setIntervalTimer ;;
     w <- get ;;
     match mediaRecorderRef w with
     | Some r => recorderStart r
     | None => throw "TypeError"
     end ;;
     toast recordingStarted)
    (toast recordingFailed).

(** A call of [startRecording] whose two awaits are answered before anything
    else is handled. *)
Definition startRecording (env : StartEnv) : Js unit :=
  goesOn <- startRecording_afterMicrophone (micGranted env) ;;
  if goesOn
  then startRecording_afterLocation (currentLocation env) (startClock env)
  else ret tt.

Definition pauseRecording : Js unit :=
  w <- get ;;
  match mediaRecorderRef w with
  | Some r =>
      when (isRecording (state w))
        ((if isPaused (state w) then
            recorderResume r ;;
            startListening ;;
            match timerRef w with
            | Some _ => setIntervalTimer
            | None => ret tt
            end
          else
            recorderPause r ;;
            stopListening ;;
            match timerRef w with
            | Some t => clearInterval t
            | None => ret tt
            end) ;;
         setState (fun prev =>
           mkState (isRecording prev) (negb (isPaused prev)) (transcript prev)
                   (category prev) (severity prev) (peopleInvolved prev)
                   (location prev) (timestamp prev)))
  | None => ret tt
  end.

Definition stopRecording : Js unit :=
  w <- get ;;
  match mediaRecorderRef w with
  | Some r => recorderStop r ;; stopTracks (stream r)
  | None => ret tt
  end ;;
  stopListening ;;
  match timerRef w with
  | Some t => clearInterval t
  | None => ret tt
  end ;;
  setState (fun prev =>
    mkState false false (transcript prev) (category prev) (severity prev)
            (peopleInvolved prev) (location prev) (timestamp prev)) ;;
  toast recordingStopped.

Definition resetRecording : Js unit :=
  stopRecording ;;
  setState (fun _ => mkState false false "" "" 3 [] "" "") ;;
  modify (set_recordingTime (fun _ => 0)).

Definition saveIncident (clock : Clock) : Js unit :=
  w <- get ;;
  let state := state w in
  if negb (truthy (trim (transcript state))) || negb (truthy (category state))
  then toast missingInformation
  else
    let incident :=
      Incident.mk (msToString (now clock))
                  (or_else (timestamp state) (nowISO clock))
                  (category state)
                  (severity state)
                  (Some (location state))
                  (trim (transcript state))
                  (peopleInvolved state) in
    let existingIncidents := getIncidents (localStorage w) in
    modify (set_localStorage (setIncidents (existingIncidents ++ [incident]))) ;;
    toast incidentSaved ;;
    resetRecording.

(** *** The form: what the rendered controls can trigger *)

(** Modelled from the spec: the Slider (./ui/slider) is not under src.  The
    spec gives the severity as an integer in [1,5] inclusive, and the page
    renders the Slider with min 1, max 5 and step 1.  The values it hands to
    its [onValueChange] are the five severities. *)
Definition sliderValues : list Z := [1; 2; 3; 4; 5].

(** Modelled from the spec: the Select (./ui/select) is not under src.  The
    page renders it with one item for each of [categories], and the spec has
    the category chosen from that list.  The values it hands to its
    [onValueChange] are the categories. *)
Definition selectValues : list string := categories.

(** [peopleInvolved.includes(p) ? filter(x => x !== p) : [...peopleInvolved, p]] *)
Definition togglePerson (person : string) (people : list string) : list string :=
  if existsb (String.eqb person) people
  then filter (fun p => negb (String.eqb p person)) people
  else people ++ [person].

(** [recognition.onresult]: the final fragments of the event, joined in
    order, are appended to the transcript; interim ones are dropped. *)
Definition finalTranscript (results : list (bool * string)) : string :=
  fold_left (fun (acc : string) (r : bool * string) =>
               if fst r then (acc ++ snd r)%string else acc) results "".

Inductive Event : Type :=
| ClickRecord
| MicrophoneAnswer (granted : bool)
| LocationAnswer (location : string) (clock : Clock)
| ClickPause
| ClickReset
| ClickSave (clock : Clock)
| EditTranscript (text : string)
| SelectCategory (value : string)
| SlideSeverity (value : Z)
| ClickPerson (person : string)
| RecognitionResult (results : list (bool * string))
| RecognitionError
| RecognitionEnd
| Tick (timer : nat).

(** The round button: [onClick={state.isRecording ? stopRecording : startRecording}].
    A press that runs [startRecording] leaves one more call waiting for the
    microphone. *)
Definition recordButton : Js unit :=
  w <- get ;;
  if isRecording (state w) then stopRecording
  else modify (set_awaitingMicrophone S).

(** [disabled] of the Save button. *)
Definition saveDisabled (s : VoiceRecordingState) : bool :=
  negb (truthy (trim (transcript s))) || negb (truthy (category s)) || isRecording s.

Definition handle (e : Event) : Js unit :=
  w <- get ;;
  match e with
  | ClickRecord => recordButton
  | MicrophoneAnswer granted =>
      when (0 <? awaitingMicrophone w)%nat
        (modify (set_awaitingMicrophone Nat.pred) ;;
         goesOn <- startRecording_afterMicrophone granted ;;
         when goesOn (modify (set_awaitingLocation S)))
  | LocationAnswer location clock =>
      when (0 <? awaitingLocation w)%nat
        (modify (set_awaitingLocation Nat.pred) ;;
         startRecording_afterLocation location clock)
  | ClickPause => when (isRecording (state w)) pauseRecording
  | ClickReset => when (negb (isRecording (state w))) resetRecording
  | ClickSave clock => when (negb (saveDisabled (state w))) (saveIncident clock)
  | EditTranscript text =>
      setState (fun prev =>
        mkState (isRecording prev) (isPaused prev) text (category prev)
                (severity prev) (peopleInvolved prev) (location prev) (timestamp prev))
  | SelectCategory value =>
      setState (fun prev =>
        mkState (isRecording prev) (isPaused prev) (transcript prev) value
                (severity prev) (peopleInvolved prev) (location prev) (timestamp prev))
  | SlideSeverity value =>
      setState (fun prev =>
        mkState (isRecording prev) (isPaused prev) (transcript prev) (category prev)
                value (peopleInvolved prev) (location prev) (timestamp prev))
  | ClickPerson person =>
      when (existsb (String.eqb person) commonPeople)
        (setState (fun prev =>
           mkState (isRecording prev) (isPaused prev) (transcript prev) (category prev)
                   (severity prev) (togglePerson person (peopleInvolved prev))
                   (location prev) (timestamp prev)))
  | RecognitionResult results =>
      setState (fun prev =>
        mkState (isRecording prev) (isPaused prev)
                (transcript prev ++ finalTranscript results) (category prev)
                (severity prev) (peopleInvolved prev) (location prev) (timestamp prev))
  | RecognitionError =>
      match recognitionRef w with
      | Some _ => modify (set_isListening false)
      | None => ret tt
      end
  | RecognitionEnd =>
      match recognitionRef w with
      | Some _ => modify (set_recognitionRef (Some false)) ;; modify (set_isListening false)
      | None => ret tt
      end
  | Tick timer =>
      when (existsb (Nat.eqb timer) (activeIntervals w))
        (modify (set_recordingTime (fun prev => prev + 1)))
  end.

(** The world after a handler, whether it completed or threw. *)
Definition after {A} (h : Js A) (w : World) : World := fst (h w).

(** The world after a sequence of events, each handled to its end (or to
    its next [await]) before the next one. *)
Definition run (events : list Event) (w : World) : World :=
  fold_left (fun (w' : World) (e : Event) => after (handle e) w') events w.

End VoiceRecording.

(** ** jsPDF documents *)

(** What the components do with a jsPDF document: set the font size, place
    text, add pages.  A document records every placed text with the page and
    the font size in force. *)
Module JsPDF.

Record TextItem : Type := mkItem {
  page : nat;
  size : Z;
  x : Z;
  y : Z;
  lines : list string
}.

Record Doc : Type := mkDoc {
  fontSize : Z;
  currentPage : nat;
  items : list TextItem
}.

(** [new jsPDF()] *)
Definition new : Doc := mkDoc 16 1 [].

Definition setFontSize (n : Z) (doc : Doc) : Doc :=
  mkDoc n (currentPage doc) (items doc).

(** [doc.text(lines, x, y)] *)
Definition textLines (ls : list string) (px py : Z) (doc : Doc) : Doc :=
  mkDoc (fontSize doc) (currentPage doc)
        (items doc ++ [mkItem (currentPage doc) (fontSize doc) px py ls]).

(** [doc.text(s, x, y)] *)
Definition text (s : string) (px py : Z) (doc : Doc) : Doc :=
  textLines [s] px py doc.

Definition addPage (doc : Doc) : Doc :=
  mkDoc (fontSize doc) (S (currentPage doc)) (items doc).

(** The texts of the document in the order they were placed, each with its
    lines. *)
Definition texts (doc : Doc) : list (list string) :=
  map lines (items doc).

End JsPDF.

(** A file handed to the browser for download. *)
Record Download (Content : Type) : Type := mkDownload {
  filename : string;
  content : Content
}.
Arguments mkDownload {Content} filename content.
Arguments filename {Content} d.
Arguments content {Content} d.

(** [xs.forEach((x, index) => ...)] and [xs.map(...)] with a body that may
    throw: [None] is the exception. *)
Fixpoint forEachFrom {A S : Type} (body : S -> nat -> A -> option S)
         (index : nat) (xs : list A) (s : S) : option S :=
  match xs with
  | [] => Some s
  | x :: rest =>
      match body s index x with
      | Some s' => forEachFrom body (Datatypes.S index) rest s'
      | None => None
      end
  end.

Definition forEach {A S : Type} (body : S -> nat -> A -> option S)
           (xs : list A) (s : S) : option S :=
  forEachFrom body 0%nat xs s.

Fixpoint mapM {A B : Type} (f : A -> option B) (xs : list A) : option (list B) :=
  match xs with
  | [] => Some []
  | x :: rest =>
      match f x with
      | Some y =>
          match mapM f rest with
          | Some ys => Some (y :: ys)
          | None => None
          end
      | None => None
      end
  end.

(** [Array.prototype.sort(compareFn)].  The sort is stable and a NaN from the
    comparator counts as 0; an element moves behind another only when the
    comparator is positive on them. *)
Section Sort.
Context {A : Type} (compareFn : A -> A -> option Z).

Definition isAfter (a b : A) : bool :=
  match compareFn a b with
  | Some v => 0 <? v
  | None => false
  end.

Fixpoint insert (a : A) (sorted : list A) : list A :=
  match sorted with
  | [] => [a]
  | b :: rest => if isAfter a b then b :: insert a rest else a :: sorted
  end.

Definition sort (xs : list A) : list A := fold_right insert [] xs.
End Sort.

(** ** IncidentTimeline.tsx: the filtered view and its two exports *)

Module IncidentTimeline.
Section WithPlatform.
Context {dates : Dates} {metrics : TextMetrics}.

Inductive SortOrder := newest | oldest.

(** The comparator given to [sort]: a difference of two [getTime]s, NaN
([None]) as soon as one date is invalid. *)
Definition compareFn (sortOrder : SortOrder) (a b : Incident.t) : option Z :=
match getTime (newDate (Incident.timestamp a)),
    getTime (newDate (Incident.timestamp b)) with
| Some dateA, Some dateB =>
  Some (match sortOrder with
        | newest => dateB - dateA
        | oldest => dateA - dateB
        end)
| _, _ => None
end.

Definition searchFilter (searchTerm : string) (incident : Incident.t) : bool :=
includes (toLowerCase (Incident.transcript incident)) (toLowerCase searchTerm)
|| includes (toLowerCase (Incident.category incident)) (toLowerCase searchTerm).

Definition categoryMatch (categoryFilter : string) (incident : Incident.t) : bool :=
String.eqb (Incident.category incident) categoryFilter.

Definition severityMatch (severityRange : list (option Z)) (incident : Incident.t) : bool :=
geq (Incident.severity incident) (nth 0 severityRange None)
&& leq (Incident.severity incident) (nth 1 severityRange None).

(** The value [filterIncidents] passes to [setFilteredIncidents]. *)
Definition filterIncidents (incidents : list Incident.t)
       (searchTerm categoryFilter severityFilter : string)
       (sortOrder : SortOrder) : list Incident.t :=
let filtered := incidents in
let filtered :=
if truthy searchTerm then filter (searchFilter searchTerm) filtered
else filtered in
let filtered :=
if negb (String.eqb categoryFilter "all")
then filter (categoryMatch categoryFilter) filtered
else filtered in
let filtered :=
if negb (String.eqb severityFilter "all")
then
  let severityRange := map Number (split "-" severityFilter) in
  filter (severityMatch severityRange) filtered
else filtered in
sort (compareFn sortOrder) filtered.

(** [deleteIncident]: the incidents kept, also written to storage. *)
Definition deleteIncident (id : string) (incidents : list Incident.t)
       (ls : LocalStorage) : list Incident.t * LocalStorage :=
let updatedIncidents :=
filter (fun incident => negb (String.eqb (Incident.id incident) id)) incidents in
(updatedIncidents, setIncidents updatedIncidents ls).

Definition exportSuccessfulPDF : Toast :=
mkToast "Export successful" "Timeline report has been downloaded as PDF." default.

Definition exportFailed : Toast :=
mkToast "Export failed" "Unable to generate PDF report." destructive.

Definition exportSuccessfulCSV : Toast :=
mkToast "Export successful" "Timeline data has been downloaded as CSV." default.

(** The body of [filteredIncidents.forEach] in [exportToPDF], on the
document and [yPosition]. *)
Definition pdfEntry (s : JsPDF.Doc * Z) (index : nat) (incident : Incident.t)
: option (JsPDF.Doc * Z) :=
let '(doc, yPosition) := s in
let '(doc, yPosition) :=
if 250 <? yPosition then (JsPDF.addPage doc, 20) else (doc, yPosition) in
let doc := JsPDF.setFontSize 14 doc in
let doc := JsPDF.text (toString (Z.of_nat index + 1) ++ ". "
                     ++ Incident.category incident) 20 yPosition doc in
let yPosition := yPosition + 10 in
let doc := JsPDF.setFontSize 10 doc in
match format (parseISO (Incident.timestamp incident)) "PPpp" with
| None => None
| Some date =>
  let doc := JsPDF.text ("Date: " ++ date) 25 yPosition doc in
  let yPosition := yPosition + 7 in
  let doc := JsPDF.text ("Severity: " ++ toString (Incident.severity incident)
                         ++ "/5") 25 yPosition doc in
  let '(doc, yPosition) :=
    if truthy (orEmpty (Incident.location incident))
    then (JsPDF.text ("Location: " ++ orEmpty (Incident.location incident))
                     25 (yPosition + 7) doc,
          yPosition + 7)
    else (doc, yPosition) in
  let '(doc, yPosition) :=
    if (0 <? length (Incident.peopleInvolved incident))%nat
    then (JsPDF.text ("People: " ++ join ", " (Incident.peopleInvolved incident))
                     25 (yPosition + 7) doc,
          yPosition + 7)
    else (doc, yPosition) in
  let yPosition := yPosition + 10 in
  let doc := JsPDF.setFontSize 9 doc in
  let splitText := splitTextToSize (Incident.transcript incident) 160 in
  let doc := JsPDF.textLines splitText 25 yPosition doc in
  Some (doc, yPosition + Z.of_nat (length splitText) * 4 + 10)
end.

(** [exportToPDF]: the file downloaded, if any, and the toast shown.
[jsPDFLoads] tells whether the dynamic import of jspdf succeeds and
[today] is [new Date()]. *)
Definition exportToPDF (jsPDFLoads : bool) (today : Date)
       (filteredIncidents : list Incident.t)
: option (Download JsPDF.Doc) * Toast :=
let attempt :=
if jsPDFLoads then
  let doc := JsPDF.new in
  let doc := JsPDF.setFontSize 20 doc in
  let doc := JsPDF.text "ChildFirst - Incident Timeline Report" 20 20 doc in
  let doc := JsPDF.setFontSize 12 doc in
  match format today "PPP" with
  | None => None
  | Some generated =>
      let doc := JsPDF.text ("Generated: " ++ generated) 20 35 doc in
      let doc := JsPDF.text ("Total Incidents: "
                             ++ toString (Z.of_nat (length filteredIncidents)))
                            20 45 doc in
      match forEach pdfEntry filteredIncidents (doc, 60) with
      | None => None
      | Some (doc, _) => Some (mkDownload "childfirst-timeline-report.pdf" doc)
      end
  end
else None in
match attempt with
| Some file => (Some file, exportSuccessfulPDF)
| None => (None, exportFailed)
end.

Definition headers : list string :=
["Date"; "Category"; "Severity"; "Location"; "People Involved"; "Transcript"].

(** One element of [csvData]; [None] when [format] throws. *)
Definition csvRow (incident : Incident.t) : option (list string) :=
match format (parseISO (Incident.timestamp incident)) "yyyy-MM-dd HH:mm:ss" with
| None => None
| Some date =>
  Some [date;
        Incident.category incident;
        toString (Incident.severity incident);
        orEmpty (Incident.location incident);
        join "; " (Incident.peopleInvolved incident);
        String dquote (doubleQuotes (Incident.transcript incident))
          ++ String dquote ""]
end.

(** [csvContent]; [None] when building a row throws. *)
Definition csvContent (filteredIncidents : list Incident.t) : option string :=
match mapM csvRow filteredIncidents with
| None => None
| Some csvData => Some (join (String "010" "") (map (join ",") (headers :: csvData)))
end.

(** [exportToCSV]: the file downloaded and the toast shown; [None] when
the function throws (it has no handler of its own). *)
Definition exportToCSV (filteredIncidents : list Incident.t)
: option (Download string * Toast) :=
match csvContent filteredIncidents with
| None => None
| Some text => Some (mkDownload "childfirst-timeline-data.csv" text, exportSuccessfulCSV)
end.

End WithPlatform.
End IncidentTimeline.

(** ** Settings.tsx: backup and restore *)

Module Settings.

(** The backup document as [importData] reads it.  A field is [None] when
    it is missing or falsy ([null], [false], 0, the empty string); an array,
    even an empty one, and an object are truthy. *)
Record BackupDocument : Type := mkBackup {
  version : option string;
  exportDate : option string;
  incidents : option (list Incident.t);
  settings : option SettingsObject
}.

(** The text of the selected file: [Unreadable] when [JSON.parse] throws or
    yields [null] (reading a property of it throws). *)
Inductive FileText : Type :=
| Unreadable
| Parsed (importData : BackupDocument).

(** [{ ...a, ...b }] *)
Definition spread (a b : SettingsObject) : SettingsObject :=
  (filter (fun kv => negb (existsb (fun kv' => String.eqb (fst kv') (fst kv)) b)) a
   ++ b)%list.

Definition defaultSettings : SettingsObject :=
  [("autoBackup", "true"); ("notifications", "true"); ("darkMode", "false");
   ("voiceRecognition", "true"); ("gpsTracking", "true"); ("dataRetention", "12")].

(** The component: its [settings] state, the storage and the toasts. *)
Record World : Type := mkWorld {
  settingsState : SettingsObject;
  localStorage : LocalStorage;
  toasts : list Toast
}.

Definition importedToast (n : nat) : Toast :=
  mkToast "Data imported successfully"
          ("Imported " ++ toString (Z.of_nat n) ++ " incidents.") default.

Definition importFailed : Toast :=
  mkToast "Import failed" "Invalid backup file format." destructive.

Definition exportedToast : Toast :=
  mkToast "Data exported successfully" "Your backup file has been downloaded." default.

Definition clearedToast : Toast :=
  mkToast "All data cleared" "Your app has been reset to default settings." default.

(** [importData]: [file] is [None] when no file was chosen.  The refresh of
    the displayed storage figures is not part of the world. *)
Definition importData (file : option FileText) (w : World) : World :=
  match file with
  | None => w
  | Some Unreadable =>
      mkWorld (settingsState w) (localStorage w) (toasts w ++ [importFailed])
  | Some (Parsed importData) =>
      let ls := localStorage w in
      let ls :=
        match incidents importData with
        | Some l => setIncidents l ls
        | None => ls
        end in
      let '(ls, st) :=
        match settings importData with
        | Some o => (setSettingsItem o ls, spread (settingsState w) o)
        | None => (ls, settingsState w)
        end in
      mkWorld st ls
              (toasts w ++ [importedToast (match incidents importData with
                                           | Some l => length l
                                           | None => 0%nat
                                           end)])
  end.

(** [exportData]: the backup handed to the browser and the world after. *)
Definition exportData (clock : Clock) (w : World)
  : Download BackupDocument * World :=
  let exportData :=
    mkBackup (Some "1.0") (Some (nowISO clock))
             (Some (getIncidents (localStorage w)))
             (Some (match childfirst_settings (localStorage w) with
                    | Some o => o
                    | None => []
                    end)) in
  (mkDownload ("childfirst-backup-" ++ hd "" (split "T" (nowISO clock)) ++ ".json")
              exportData,
   mkWorld (settingsState w) (setLastBackup (nowISO clock) (localStorage w))
           (toasts w ++ [exportedToast])).

Definition clearAllData (w : World) : World :=
  mkWorld defaultSettings emptyStorage (toasts w ++ [clearedToast]).

End Settings.

(** ** LegalTools.tsx: the court report *)

(** A JavaScript object used as a table of counts: its string keys with their
    values, in order of creation. *)
Module Counts.

Definition t := list (string * Z).

(** [acc[k] = (acc[k] || 0) + 1] *)
Fixpoint increment (k : string) (acc : t) : t :=
  match acc with
  | [] => [(k, 1)]
  | (k', n) :: rest =>
      if String.eqb k' k then (k', n + 1) :: rest
      else (k', n) :: increment k rest
  end.

(** [acc[k] || 0] *)
Fixpoint lookup (k : string) (acc : t) : Z :=
  match acc with
  | [] => 0
  | (k', n) :: rest => if String.eqb k' k then n else lookup k rest
  end.

(** A key that is an array index: the canonical decimal text of a number
    below 2^32 - 1. *)
Definition arrayIndex (k : string) : option N :=
  match NilEmpty.uint_of_string k with
  | Some d =>
      let n := N.of_uint d in
      if String.eqb (msToString n) k && (n <? 4294967295)%N then Some n else None
  | None => None
  end.

Definition isIndex (kv : string * Z) : bool :=
  match arrayIndex (fst kv) with Some _ => true | None => false end.

Definition compareIndex (a b : string * Z) : option Z :=
  match arrayIndex (fst a), arrayIndex (fst b) with
  | Some i, Some j => Some (Z.of_N i - Z.of_N j)
  | _, _ => None
  end.

(** [Object.entries(acc)]: array-index keys first, in ascending order, then
    the other keys in order of creation. *)
Definition entries (acc : t) : list (string * Z) :=
  (sort compareIndex (filter isIndex acc)
   ++ filter (fun kv => negb (isIndex kv)) acc)%list.

End Counts.

Module LegalTools.
Section WithPlatform.
Context {dates : Dates} {metrics : TextMetrics}.

Record ReportData : Type := mkReportData {
childName : string;
dateOfBirth : string;
diagnosis : string;
reportPurpose : string;
additionalNotes : string
}.

Definition noIncidentsFound : Toast :=
mkToast "No incidents found"
      "Please record some incidents before generating a report." destructive.

Definition reportGenerated : Toast :=
mkToast "Report generated successfully"
      "Court documentation report has been downloaded." default.

Definition reportFailed : Toast :=
mkToast "Report generation failed"
      "Unable to generate court report. Please try again." destructive.

Definition level (incident : Incident.t) : string :=
if Incident.severity incident <=? 2 then "Low"
else if Incident.severity incident <=? 3 then "Medium"
else "High".

Definition severityCount (incidents : list Incident.t) : Counts.t :=
fold_left (fun acc incident => Counts.increment (level incident) acc) incidents [].

Definition categoryCount (incidents : list Incident.t) : Counts.t :=
fold_left (fun acc incident => Counts.increment (Incident.category incident) acc)
        incidents [].

(** [Object.entries(categoryCount).sort(([,a], [,b]) => b - a)[0]] *)
Definition mostCommon (incidents : list Incident.t) : option (string * Z) :=
hd_error (sort (fun a b => Some (snd b - snd a))
             (Counts.entries (categoryCount incidents))).

(** The body of [incidents.slice(0, 10).forEach], on the document and
[yPosition]. *)
Definition courtEntry (s : JsPDF.Doc * Z) (index : nat) (incident : Incident.t)
: option (JsPDF.Doc * Z) :=
let '(doc, yPosition) := s in
let '(doc, yPosition) :=
if 250 <? yPosition then (JsPDF.addPage doc, 20) else (doc, yPosition) in
let doc := JsPDF.setFontSize 11 doc in
let doc := JsPDF.text (toString (Z.of_nat index + 1) ++ ". "
                     ++ Incident.category incident ++ " - Severity: "
                     ++ toString (Incident.severity incident) ++ "/5")
                    20 yPosition doc in
let yPosition := yPosition + 10 in
let doc := JsPDF.setFontSize 9 doc in
match format (parseISO (Incident.timestamp incident)) "PPpp" with
| None => None
| Some date =>
  let doc := JsPDF.text ("Date: " ++ date) 25 yPosition doc in
  let yPosition := yPosition + 7 in
  let '(doc, yPosition) :=
    if truthy (orEmpty (Incident.location incident))
    then (JsPDF.text "Location: GPS coordinates recorded" 25 yPosition doc,
          yPosition + 7)
    else (doc, yPosition) in
  let '(doc, yPosition) :=
    if (0 <? length (Incident.peopleInvolved incident))%nat
    then (JsPDF.text ("People Involved: "
                      ++ join ", " (Incident.peopleInvolved incident))
                     25 yPosition doc,
          yPosition + 7)
    else (doc, yPosition) in
  let splitText := splitTextToSize (Incident.transcript incident) 160 in
  let doc := JsPDF.text "Description:" 25 yPosition doc in
  let yPosition := yPosition + 7 in
  let doc := JsPDF.textLines splitText 25 yPosition doc in
  Some (doc, yPosition + Z.of_nat (length splitText) * 4 + 10)
end.

(** The part of [generateCourtReport] after the guard on an empty store:
the document and its file name, [None] when something throws. *)
Definition courtDocument (reportData : ReportData) (today : Date)
       (incidents : list Incident.t) : option (Download JsPDF.Doc) :=
let doc := JsPDF.new in
let doc := JsPDF.setFontSize 16 doc in
let doc := JsPDF.text "COURT DOCUMENTATION REPORT" 20 20 doc in
let doc := JsPDF.text "ChildFirst - Neurodivergent Child Support" 20 30 doc in
let doc := JsPDF.setFontSize 12 doc in
let doc := JsPDF.text "CHILD INFORMATION" 20 50 doc in
let doc := JsPDF.setFontSize 10 doc in
let doc := JsPDF.text ("Name: " ++ or_else (childName reportData) "[Child Name]")
                    25 60 doc in
let doc := JsPDF.text ("Date of Birth: "
                     ++ or_else (dateOfBirth reportData) "[Date of Birth]")
                    25 70 doc in
let doc := JsPDF.text ("Diagnosis: " ++ or_else (diagnosis reportData) "[Diagnosis]")
                    25 80 doc in
let doc := JsPDF.text ("Report Purpose: "
                     ++ or_else (reportPurpose reportData) "[Report Purpose]")
                    25 90 doc in
match format today "PPP" with
| None => None
| Some generated =>
  let doc := JsPDF.text ("Generated: " ++ generated) 25 100 doc in
  let doc := JsPDF.setFontSize 12 doc in
  let doc := JsPDF.text "INCIDENT SUMMARY" 20 120 doc in
  let doc := JsPDF.setFontSize 10 doc in
  let doc := JsPDF.text ("Total Incidents Recorded: "
                         ++ toString (Z.of_nat (length incidents))) 25 130 doc in
  let severityCount := severityCount incidents in
  let doc := JsPDF.text ("Severity Breakdown: Low: "
                         ++ toString (Counts.lookup "Low" severityCount)
                         ++ ", Medium: "
                         ++ toString (Counts.lookup "Medium" severityCount)
                         ++ ", High: "
                         ++ toString (Counts.lookup "High" severityCount))
                        25 140 doc in
  let doc := JsPDF.text ("Most Common Category: "
                         ++ match mostCommon incidents with
                            | Some (name, count) =>
                                name ++ " (" ++ toString count ++ " incidents)"
                            | None => "N/A"
                            end) 25 150 doc in
  let yPosition := 170 in
  let doc := JsPDF.setFontSize 12 doc in
  let doc := JsPDF.text "DETAILED INCIDENT REPORTS" 20 yPosition doc in
  let yPosition := yPosition + 20 in
  match forEach courtEntry (firstn 10 incidents) (doc, yPosition) with
  | None => None
  | Some (doc, yPosition) =>
      let doc :=
        if truthy (additionalNotes reportData) then
          let '(doc, yPosition) :=
            if 200 <? yPosition then (JsPDF.addPage doc, 20)
            else (doc, yPosition) in
          let doc := JsPDF.setFontSize 12 doc in
          let doc := JsPDF.text "ADDITIONAL NOTES" 20 yPosition doc in
          let yPosition := yPosition + 15 in
          let doc := JsPDF.setFontSize 10 doc in
          let additionalText :=
            splitTextToSize (additionalNotes reportData) 160 in
          JsPDF.textLines additionalText 25 yPosition doc
        else doc in
      let doc := JsPDF.setFontSize 8 doc in
      let doc := JsPDF.text
        "This report was generated by ChildFirst app for legal documentation purposes."
        20 280 doc in
      let doc := JsPDF.text
        "All data is stored locally on the device for privacy protection."
        20 285 doc in
      match format today "yyyy-MM-dd" with
      | None => None
      | Some day =>
          Some (mkDownload ("childfirst-court-report-" ++ day ++ ".pdf") doc)
      end
  end
end.

(** [generateCourtReport]: the file downloaded, if any, and the toast. *)
Definition generateCourtReport (reportData : ReportData) (jsPDFLoads : bool)
       (today : Date) (ls : LocalStorage)
: option (Download JsPDF.Doc) * Toast :=
let incidents := getIncidents ls in
if (length incidents =? 0)%nat then (None, noIncidentsFound)
else
match (if jsPDFLoads then courtDocument reportData today incidents else None) with
| Some file => (Some file, reportGenerated)
| None => (None, reportFailed)
end.

End WithPlatform.
End LegalTools.

(** ** A reference host

    One instance of the platform services, for running the components on
    concrete data: a host in UTC with the en-US locale, dates written as
    [YYYY-MM-DDTHH:mm:ss] with optional milliseconds and the [Z] suffix (the
    form of [toISOString]), and text that breaks at line feeds only. *)
Module UtcHost.

Record Civil : Type := mkCivil {
  year : Z; month : Z; day : Z;
  hour : Z; minute : Z; second : Z; millisecond : Z
}.

Definition isDigit (c : ascii) : bool :=
  let n := nat_of_ascii c in ((48 <=? n) && (n <=? 57))%nat.

Fixpoint allDigits (s : string) : bool :=
  match s with
  | EmptyString => true
  | String c s' => isDigit c && allDigits s'
  end.

(** The number written by [len] digits at position [pos]. *)
Definition field (pos len : nat) (s : string) : option Z :=
  let f := substring pos len s in
  if (String.length f =? len)%nat && allDigits f then Number f else None.

Definition charAt (pos : nat) (s : string) : string := substring pos 1 s.

Definition isLeap (y : Z) : bool :=
  ((y mod 4 =? 0) && negb (y mod 100 =? 0)) || (y mod 400 =? 0).

Definition daysInMonth (y m : Z) : Z :=
  if m =? 2 then (if isLeap y then 29 else 28)
  else if (m =? 4) || (m =? 6) || (m =? 9) || (m =? 11) then 30
  else 31.

Definition parse (s : string) : option Civil :=
  match field 0 4 s, field 5 2 s, field 8 2 s,
        field 11 2 s, field 14 2 s, field 17 2 s with
  | Some y, Some mo, Some d, Some h, Some mi, Some se =>
      let punctuation :=
        String.eqb (charAt 4 s) "-" && String.eqb (charAt 7 s) "-"
        && String.eqb (charAt 10 s) "T" && String.eqb (charAt 13 s) ":"
        && String.eqb (charAt 16 s) ":" in
      let ranges :=
        (1 <=? mo) && (mo <=? 12) && (1 <=? d) && (d <=? daysInMonth y mo)
        && (h <? 24) && (mi <? 60) && (se <? 60) in
      let tail := substring 19 (String.length s - 19) s in
      let ms :=
        if String.eqb tail "Z" then Some 0
        else if String.eqb (charAt 19 s) "." && String.eqb (substring 23 6 s) "Z"
             then field 20 3 s
             else None in
      match ms with
      | Some ms' =>
          if punctuation && ranges then Some (mkCivil y mo d h mi se ms') else None
      | None => None
      end
  | _, _, _, _, _, _ => None
  end.

(** Days from 1970-01-01 to a civil date. *)
Definition daysFromCivil (y m d : Z) : Z :=
  let y' := if m <=? 2 then y - 1 else y in
  let era := y' / 400 in
  let yoe := y' - era * 400 in
  let doy := (153 * (if 2 <? m then m - 3 else m + 9) + 2) / 5 + d - 1 in
  let doe := yoe * 365 + yoe / 4 - yoe / 100 + doy in
  era * 146097 + doe - 719468.

Definition epochMs (c : Civil) : Z :=
  (((daysFromCivil (year c) (month c) (day c) * 24 + hour c) * 60 + minute c) * 60
   + second c) * 1000 + millisecond c.

Definition pad (width : nat) (n : Z) : string :=
  let s := toString n in
  (fix zeros (k : nat) : string :=
     match k with O => s | S k' => String "0" (zeros k') end)
    (width - String.length s)%nat.

Definition monthNames : list string :=
  ["January"; "February"; "March"; "April"; "May"; "June"; "July"; "August";
   "September"; "October"; "November"; "December"].

Definition monthName (m : Z) : string := nth (Z.to_nat (m - 1)) monthNames "".

Definition ordinal (d : Z) : string :=
  toString d ++
  (if (d mod 100 =? 11) || (d mod 100 =? 12) || (d mod 100 =? 13) then "th"
   else if d mod 10 =? 1 then "st"
   else if d mod 10 =? 2 then "nd"
   else if d mod 10 =? 3 then "rd"
   else "th").

Definition clock12 (c : Civil) : string :=
  toString (if hour c mod 12 =? 0 then 12 else hour c mod 12)
  ++ ":" ++ pad 2 (minute c) ++ ":" ++ pad 2 (second c)
  ++ (if hour c <? 12 then " AM" else " PM").

(** The four patterns the components use. *)
Definition formatCivil (d : option Civil) (pattern : string) : option string :=
  match d with
  | None => None
  | Some c =>
      if String.eqb pattern "yyyy-MM-dd HH:mm:ss" then
        Some (pad 4 (year c) ++ "-" ++ pad 2 (month c) ++ "-" ++ pad 2 (day c)
              ++ " " ++ pad 2 (hour c) ++ ":" ++ pad 2 (minute c) ++ ":"
              ++ pad 2 (second c))
      else if String.eqb pattern "yyyy-MM-dd" then
        Some (pad 4 (year c) ++ "-" ++ pad 2 (month c) ++ "-" ++ pad 2 (day c))
      else if String.eqb pattern "PPP" then
        Some (monthName (month c) ++ " " ++ ordinal (day c) ++ ", "
              ++ toString (year c))
      else if String.eqb pattern "PPpp" then
        Some (substring 0 3 (monthName (month c)) ++ " " ++ toString (day c)
              ++ ", " ++ toString (year c) ++ ", " ++ clock12 c)
      else None
  end.

Definition dates : Dates := {|
  Date := option Civil;
  newDate := parse;
  getTime := option_map epochMs;
  parseISO := parse;
  format := formatCivil
|}.

Definition metrics : TextMetrics := {|
  splitTextToSize := fun text _ => split "010" text
|}.

End UtcHost.

(** * The rest of the application *)

(** ** More JavaScript primitives *)

Definition isDecimalDigit (c : ascii) : bool :=
  let n := nat_of_ascii c in ((48 <=? n) && (n <=? 57))%nat.

Definition isHexDigit (c : ascii) : bool :=
  let n := nat_of_ascii c in
  isDecimalDigit c || ((65 <=? n) && (n <=? 70))%nat || ((97 <=? n) && (n <=? 102))%nat.

(** The longest prefix of [s] made of characters that pass [test]. *)
Fixpoint leadingRun (test : ascii -> bool) (s : string) : string :=
  match s with
  | EmptyString => EmptyString
  | String c s' => if test c then String c (leadingRun test s') else EmptyString
  end.

(** The value of a non-empty run of decimal digits; NaN for the empty run. *)
Definition decimalValue (digits : string) : option Z :=
  if truthy digits then Number digits else None.

(** The value of a non-empty run of hexadecimal digits of either case. *)
Definition hexValue (digits : string) : option Z :=
  if truthy digits then
    option_map (fun d => Z.of_N (N.of_hex_uint d))
               (HexadecimalString.NilEmpty.uint_of_string (toLowerCase digits))
  else None.

(** [parseInt(s)] without a radix: leading white space is dropped, a sign is
    read, a [0x] or [0X] prefix selects base 16, and the longest run of digits
    gives the value; [None] is NaN. *)
Definition parseInt (s : string) : option Z :=
  let s := trimStart s in
  let '(sign, s) :=
    match s with
    | String "-" rest => (-1, rest)
    | String "+" rest => (1, rest)
    | _ => (1, s)
    end in
  let magnitude :=
    match s with
    | String "0" (String "x" rest) => hexValue (leadingRun isHexDigit rest)
    | String "0" (String "X" rest) => hexValue (leadingRun isHexDigit rest)
    | _ => decimalValue (leadingRun isDecimalDigit s)
    end in
  option_map (fun m => sign * m) magnitude.

(** [s.padStart(n, c)] for a one-character filler. *)
Definition padStart (n : nat) (c : ascii) (s : string) : string :=
  (fix fill (k : nat) : string :=
     match k with
     | O => s
     | S k' => String c (fill k')
     end) (n - String.length s)%nat.

(** [s.replace(/\D/g, '')] *)
Fixpoint digitsOnly (s : string) : string :=
  match s with
  | EmptyString => EmptyString
  | String c s' => if isDecimalDigit c then String c (digitsOnly s') else digitsOnly s'
  end.


(** [o[k]] on a table of counts: [None] is [undefined]. *)
Fixpoint getCount (k : string) (o : Counts.t) : option Z :=
  match o with
  | [] => None
  | (k', n) :: rest => if String.eqb k' k then Some n else getCount k rest
  end.

(** [a > b] on values that may be [undefined]: false as soon as one is. *)
Definition greater (a b : option Z) : bool :=
  match a, b with
  | Some x, Some y => y <? x
  | _, _ => false
  end.

(** ** VoiceRecording.tsx: what the page displays *)

Module VoiceRecordingDisplay.

(** [formatTime]: [Math.floor] is the floor and [%] the remainder with the
    sign of the dividend. *)
Definition formatTime (seconds : Z) : string :=
  let mins := seconds / 60 in
  let secs := Z.rem seconds 60 in
  padStart 2 "0" (toString mins) ++ ":" ++ padStart 2 "0" (toString secs).

Definition getSeverityLabel (severity : Z) : string :=
  if severity <=? 2 then "Low Impact"
  else if severity <=? 3 then "Moderate Impact"
  else "High Impact".

Definition getSeverityColor (severity : Z) : string :=
  if severity <=? 2 then "text-success"
  else if severity <=? 3 then "text-accent"
  else "text-destructive".

End VoiceRecordingDisplay.

(** ** IncidentTimeline.tsx: loading and the selector of categories *)

Module TimelineDisplay.



Definition getSeverityLabel (severity : Z) : string :=
  if severity <=? 2 then "Low"
  else if severity <=? 3 then "Medium"
  else "High".

Definition getSeverityColor (severity : Z) : string :=
  if severity <=? 2 then "bg-success text-success-foreground"
  else if severity <=? 3 then "bg-accent text-accent-foreground"
  else "bg-destructive text-destructive-foreground".

End TimelineDisplay.

(** ** Dashboard.tsx *)

Module Dashboard.
Section WithPlatform.
Context {dates : Dates}.

(** The [categoryCount] object of [calculateStats]. *)
Definition categoryCount (incidentList : list Incident.t) : Counts.t :=
  fold_left (fun acc incident => Counts.increment (Incident.category incident) acc)
            incidentList [].

(** [Object.keys(categoryCount).reduce((a, b) =>
      categoryCount[a] > categoryCount[b] ? a : b, '')] *)
Definition mostCommonCategory (incidentList : list Incident.t) : string :=
  let categoryCount := categoryCount incidentList in
  fold_left (fun a b =>
               if greater (getCount a categoryCount) (getCount b categoryCount)
               then a else b)
            (map fst (Counts.entries categoryCount)) "".

(** The comparator of [getRecentIncidents]. *)
Definition compareRecent (a b : Incident.t) : option Z :=
  match getTime (newDate (Incident.timestamp b)),
        getTime (newDate (Incident.timestamp a)) with
  | Some dateB, Some dateA => Some (dateB - dateA)
  | _, _ => None
  end.

(** [getRecentIncidents]: the list shown, and the [incidents] array after the
    call ([sort] works in place). *)
Definition getRecentIncidents (incidents : list Incident.t)
  : list Incident.t * list Incident.t :=
  let sorted := sort compareRecent incidents in
  (firstn 5 sorted, sorted).

Definition getSeverityColor (severity : Z) : string :=
  if severity <=? 2 then "bg-success text-success-foreground"
  else if severity <=? 3 then "bg-accent text-accent-foreground"
  else "bg-destructive text-destructive-foreground".

Definition getSeverityLabel (severity : Z) : string :=
  if severity <=? 2 then "Low"
  else if severity <=? 3 then "Medium"
  else "High".

End WithPlatform.
End Dashboard.

(** ** App.tsx, PinAuth.tsx and the PIN form of Settings.tsx *)

(** The three keys of [localStorage] that guard the entry. *)
Record AuthStorage : Type := mkAuth {
  childfirst_pin : option string;
  childfirst_authenticated : option string;
  childfirst_auth_time : option string
}.

Module App.

Definition sessionLength : Z := 30 * 60 * 1000.

(** The effect run when the application mounts, at clock reading [clock]:
    whether the user is authenticated, and the storage after. *)
Definition restoreSession (clock : N) (ls : AuthStorage) : bool * AuthStorage :=
  let authStatus := childfirst_authenticated ls in
  let authTime := childfirst_auth_time ls in
  match authStatus, authTime with
  | Some status, Some time =>
      if String.eqb status "true" && truthy time then
        let fresh :=
          match parseInt time with
          | Some t => Z.of_N clock - t <? sessionLength
          | None => false
          end in
        if fresh then (true, ls)
        else (false, mkAuth (childfirst_pin ls) None None)
      else (false, ls)
  | _, _ => (false, ls)
  end.

(** [handleAuthentication(success)]: the new value of [isAuthenticated] and
    the storage. *)
Definition handleAuthentication (clock : N) (success : bool)
           (isAuthenticated : bool) (ls : AuthStorage) : bool * AuthStorage :=
  if success
  then (true, mkAuth (childfirst_pin ls) (Some "true") (Some (msToString clock)))
  else (isAuthenticated, ls).

Definition handleLogout (ls : AuthStorage) : bool * AuthStorage :=
  (false, mkAuth (childfirst_pin ls) None None).

End App.

Module PinAuth.

Inductive Step := enter | confirm.

(** The component with the storage, the [isAuthenticated] state of the
    application it reports to, and the toasts. *)
Record World : Type := mkWorld {
  pin : string;
  storedPin : string;
  isSettingPin : bool;
  confirmPin : string;
  step : Step;
  storage : AuthStorage;
  isAuthenticated : bool;
  toasts : list Toast
}.

Definition confirmYourPin : Toast :=
  mkToast "Confirm your PIN" "Please enter your PIN again to confirm." default.

Definition pinSet : Toast :=
  mkToast "PIN set successfully" "Your app is now secured with a PIN." default.

Definition pinsDontMatch : Toast :=
  mkToast "PINs don't match" "Please try again." destructive.

Definition welcomeBack : Toast :=
  mkToast "Welcome back" "Access granted to ChildFirst." default.

Definition incorrectPin : Toast :=
  mkToast "Incorrect PIN" "Please try again." destructive.

(** The component as it mounts on a storage: it asks for a new PIN when none
    is saved. *)
Definition mount (ls : AuthStorage) : World :=
  match childfirst_pin ls with
  | Some savedPin =>
      if truthy savedPin then mkWorld "" savedPin false "" enter ls false []
      else mkWorld "" "" true "" enter ls false []
  | None => mkWorld "" "" true "" enter ls false []
  end.

(** [onAuthenticate(true)], which is [handleAuthentication] of the
    application. *)
Definition onAuthenticate (clock : N) (w : World) : World :=
  let '(authenticated, ls) :=
    App.handleAuthentication clock true (isAuthenticated w) (storage w) in
  mkWorld (pin w) (storedPin w) (isSettingPin w) (confirmPin w) (step w)
          ls authenticated (toasts w).

Definition toast (t : Toast) (w : World) : World :=
  mkWorld (pin w) (storedPin w) (isSettingPin w) (confirmPin w) (step w)
          (storage w) (isAuthenticated w) (toasts w ++ [t]).

Definition handlePinComplete (clock : N) (value : string) (w : World) : World :=
  if isSettingPin w then
    match step w with
    | enter =>
        toast confirmYourPin
          (mkWorld value (storedPin w) (isSettingPin w) (confirmPin w) confirm
                   (storage w) (isAuthenticated w) (toasts w))
    | confirm =>
        if String.eqb value (pin w) then
          onAuthenticate clock
            (toast pinSet
               (mkWorld (pin w) value false value (step w)
                        (mkAuth (Some value)
                                (childfirst_authenticated (storage w))
                                (childfirst_auth_time (storage w)))
                        (isAuthenticated w) (toasts w)))
        else
          mkWorld "" (storedPin w) (isSettingPin w) "" enter
                  (storage w) (isAuthenticated w) (toasts w ++ [pinsDontMatch])
    end
  else
    if String.eqb value (storedPin w) then
      toast welcomeBack (onAuthenticate clock w)
    else
      mkWorld "" (storedPin w) (isSettingPin w) (confirmPin w) (step w)
              (storage w) (isAuthenticated w) (toasts w ++ [incorrectPin]).

(** [onChange] of the six-slot input. *)
Definition onChange (clock : N) (value : string) (w : World) : World :=
  let w :=
    match step w with
    | confirm =>
        mkWorld (pin w) (storedPin w) (isSettingPin w) value (step w)
                (storage w) (isAuthenticated w) (toasts w)
    | enter =>
        mkWorld value (storedPin w) (isSettingPin w) (confirmPin w) (step w)
                (storage w) (isAuthenticated w) (toasts w)
    end in
  if (String.length value =? 6)%nat then handlePinComplete clock value w else w.

(** What [navigator.credentials.create] does when the biometric button is
    pressed: the browser has no [credentials], or the call gives a
    credential, gives [null], or fails. *)
Inductive Biometric := unsupported | created | declined | failed.

Definition biometricSuccessful : Toast :=
  mkToast "Biometric authentication successful" "Welcome to ChildFirst." default.

Definition biometricFailed : Toast :=
  mkToast "Biometric authentication failed" "Please use your PIN instead."
          destructive.

Definition handleBiometricAuth (clock : N) (outcome : Biometric) (w : World)
  : World :=
  match outcome with
  | unsupported => w
  | created => toast biometricSuccessful (onAuthenticate clock w)
  | declined => w
  | failed => toast biometricFailed w
  end.

(** What the user does on the screen; the biometric button is rendered only
    when no PIN is being set. *)
Inductive Event : Type :=
| Typed (value : string)
| PressBiometric (outcome : Biometric).

Definition handle (clock : N) (e : Event) (w : World) : World :=
  match e with
  | Typed value => onChange clock value w
  | PressBiometric outcome =>
      if isSettingPin w then w else handleBiometricAuth clock outcome w
  end.

End PinAuth.

Module SettingsPin.

(** The PIN form of the Settings page. *)
Record World : Type := mkWorld {
  newPin : string;
  confirmPin : string;
  storage : AuthStorage;
  toasts : list Toast
}.

Definition invalidPin : Toast :=
  mkToast "Invalid PIN" "PIN must be exactly 6 digits." destructive.

Definition pinsDontMatch : Toast :=
  mkToast "PINs don't match" "Please ensure both PIN entries match." destructive.

Definition pinChanged : Toast :=
  mkToast "PIN changed successfully" "Your new PIN has been set." default.

(** [e.target.value.replace(/\D/g, '').slice(0, 6)] *)
Definition sanitize (value : string) : string :=
  substring 0 6 (digitsOnly value).

Definition setNewPin (value : string) (w : World) : World :=
  mkWorld (sanitize value) (confirmPin w) (storage w) (toasts w).

Definition setConfirmPin (value : string) (w : World) : World :=
  mkWorld (newPin w) (sanitize value) (storage w) (toasts w).

Definition changePin (w : World) : World :=
  if negb (String.length (newPin w) =? 6)%nat then
    mkWorld (newPin w) (confirmPin w) (storage w) (toasts w ++ [invalidPin])
  else if negb (String.eqb (newPin w) (confirmPin w)) then
    mkWorld (newPin w) (confirmPin w) (storage w) (toasts w ++ [pinsDontMatch])
  else
    mkWorld "" ""
            (mkAuth (Some (newPin w)) (childfirst_authenticated (storage w))
                    (childfirst_auth_time (storage w)))
            (toasts w ++ [pinChanged]).

(** The button: [disabled={!newPin || !confirmPin}]. *)
Definition clickUpdatePin (w : World) : World :=
  if negb (truthy (newPin w)) || negb (truthy (confirmPin w)) then w
  else changePin w.

Inductive Event : Type :=
| TypeNewPin (value : string)
| TypeConfirmPin (value : string)
| ClickUpdatePin.

Definition handle (e : Event) (w : World) : World :=
  match e with
  | TypeNewPin value => setNewPin value w
  | TypeConfirmPin value => setConfirmPin value w
  | ClickUpdatePin => clickUpdatePin w
  end.

End SettingsPin.

(** * Vocabulary of the properties *)

(** ** Strings *)

(** A string of white space only (the empty string included). *)
Fixpoint blank (s : string) : bool :=
  match s with
  | EmptyString => true
  | String c s' => isWhiteSpace c && blank s'
  end.

Definition leadingWhiteSpace (s : string) : bool :=
  match s with
  | EmptyString => false
  | String c _ => isWhiteSpace c
  end.

Fixpoint trailingWhiteSpace (s : string) : bool :=
  match s with
  | EmptyString => false
  | String c EmptyString => isWhiteSpace c
  | String _ s' => trailingWhiteSpace s'
  end.


(** The no-break space, U+00A0. *)
Definition noBreakSpace : ascii := "160"%char.

(** ** VoiceRecording *)

(** The incident [saveIncident] builds from the form. *)
Definition built (clock : Clock) (s : VoiceRecording.VoiceRecordingState) : Incident.t :=
  Incident.mk (msToString (now clock))
              (or_else (VoiceRecording.timestamp s) (nowISO clock))
              (VoiceRecording.category s) (VoiceRecording.severity s)
              (Some (VoiceRecording.location s))
              (trim (VoiceRecording.transcript s))
              (VoiceRecording.peopleInvolved s).

(** The form filled in by hand, on a fresh page. *)
Definition filledForm (text category : string) (severity : Z) (ls : LocalStorage)
  : VoiceRecording.World :=
  VoiceRecording.set_state
    (fun _ => VoiceRecording.mkState false false text category severity [] "" "")
    (VoiceRecording.initialWorld true ls).

(** An event as the controls of the page deliver it: the Slider and the
    Select hand over values of theirs. *)
Definition fromTheForm (e : VoiceRecording.Event) : Prop :=
  match e with
  | VoiceRecording.SlideSeverity v => In v VoiceRecording.sliderValues
  | VoiceRecording.SelectCategory c => In c VoiceRecording.selectValues
  | _ => True
  end.

(** The severity on the form is one of the five levels. *)
Definition severityInRange (w : VoiceRecording.World) : Prop :=
  1 <= VoiceRecording.severity (VoiceRecording.state w) <= 5.

(** ** The store and its three writers *)

(** The operations that write the stored incidents: the save of
    VoiceRecording (with the clock it reads and the form it finds), the delete
    of IncidentTimeline, and the import of Settings. *)
Inductive StoreOp : Type :=
| Append (clock : Clock) (form : VoiceRecording.VoiceRecordingState)
| Remove (id : string)
| ReplaceAll (doc : Settings.BackupDocument).

Definition applyOp (op : StoreOp) (ls : LocalStorage) : LocalStorage :=
  match op with
  | Append clock form =>
      VoiceRecording.localStorage
        (VoiceRecording.after (VoiceRecording.saveIncident clock)
           (VoiceRecording.set_state (fun _ => form)
              (VoiceRecording.initialWorld true ls)))
  | Remove id => snd (IncidentTimeline.deleteIncident id (getIncidents ls) ls)
  | ReplaceAll doc =>
      Settings.localStorage
        (Settings.importData (Some (Settings.Parsed doc))
           (Settings.mkWorld Settings.defaultSettings ls []))
  end.

Definition runOps (ops : list StoreOp) (ls : LocalStorage) : LocalStorage :=
  fold_left (fun ls' op => applyOp op ls') ops ls.

Definition ids (ls : LocalStorage) : list string :=
  map Incident.id (getIncidents ls).

(** The clock reading an id is the text of, if any. *)
Definition clockOf (s : string) : option N :=
  match NilEmpty.uint_of_string s with
  | Some d => if String.eqb (msToString (N.of_uint d)) s then Some (N.of_uint d) else None
  | None => None
  end.

(** A reading above every reading that occurs as an id. *)
Fixpoint idBound (l : list Incident.t) : N :=
  match l with
  | [] => 0%N
  | i :: rest =>
      match clockOf (Incident.id i) with
      | Some t => N.max (t + 1) (idBound rest)
      | None => idBound rest
      end
  end.

Fixpoint distinct (l : list string) : bool :=
  match l with
  | [] => true
  | x :: rest => negb (existsb (String.eqb x) rest) && distinct rest
  end.

(** A run in which every save reads a clock value that is at least [b] and
    above the readings of the earlier saves and of the imported ids, and in
    which every imported document has distinct ids. *)
Fixpoint wellClocked (b : N) (ops : list StoreOp) : bool :=
  match ops with
  | [] => true
  | Append clock _ :: rest => (b <=? now clock)%N && wellClocked (now clock + 1) rest
  | Remove _ :: rest => wellClocked b rest
  | ReplaceAll doc :: rest =>
      match Settings.incidents doc with
      | Some l => distinct (map Incident.id l) && wellClocked (idBound l) rest
      | None => wellClocked b rest
      end
  end.

(** Distinct ids, all of them below the bound when they are clock readings. *)
Definition StoreInv (b : N) (ls : LocalStorage) : Prop :=
  NoDup (ids ls)
  /\ forall i t, In i (getIncidents ls) -> Incident.id i = msToString t -> (t < b)%N.

(** ** The filtered view *)

(** [sub] occurs in [s]. *)
Definition Substring (sub s : string) : Prop :=
  exists pre post, s = pre ++ sub ++ post.

(** [d] is the small letter of the capital [c]: 32 places on from a
    capital of Basic Latin (65 to 90) or of the Latin-1 Supplement (192 to
    222, the multiplication sign 215 left out). *)
Definition smallOf (c d : ascii) : bool :=
  let n := nat_of_ascii c in
  ((nat_of_ascii d =? n + 32)
   && (((65 <=? n) && (n <=? 90))
       || ((192 <=? n) && (n <=? 222) && negb (n =? 215))))%nat.

(** The same character, or the same letter in the other case. *)
Definition sameLetter (c d : ascii) : bool :=
  Ascii.eqb c d || smallOf c d || smallOf d c.

(** The same text, letter for letter, when the case is ignored. *)
Fixpoint sameText (a b : string) : bool :=
  match a, b with
  | EmptyString, EmptyString => true
  | String c a', String d b' => sameLetter c d && sameText a' b'
  | _, _ => false
  end.

(** [term] occurs in [s] when the case of letters is ignored. *)
Definition ContainsIgnoringCase (term s : string) : Prop :=
  exists pre mid post, s = pre ++ mid ++ post /\ sameText term mid = true.

(** The same, as a test: [term] is read off [s] from some place on. *)
Fixpoint startsIgnoringCase (term s : string) : bool :=
  match term, s with
  | EmptyString, _ => true
  | String c term', String d s' => sameLetter c d && startsIgnoringCase term' s'
  | String _ _, EmptyString => false
  end.

Fixpoint containsIgnoringCase (term s : string) : bool :=
  startsIgnoringCase term s
  || match s with
     | EmptyString => false
     | String _ s' => containsIgnoringCase term s'
     end.

(** The character [c] occurs in [s]. *)
Fixpoint occurs (c : ascii) (s : string) : bool :=
  match s with
  | EmptyString => false
  | String d s' => Ascii.eqb d c || occurs c s'
  end.

(** A choice of the severity selector: every severity, or the severities
    from [lo] to [hi], both included. *)
Inductive SeverityBand : Type :=
| AllSeverities
| Between (lo hi : N).

(** The value the selector holds for a choice: [all], or the two bounds in
    decimal with a dash between them. *)
Definition bandValue (band : SeverityBand) : string :=
  match band with
  | AllSeverities => "all"
  | Between lo hi => msToString lo ++ "-" ++ msToString hi
  end.

Definition InBand (band : SeverityBand) (s : Z) : Prop :=
  match band with
  | AllSeverities => True
  | Between lo hi => Z.of_N lo <= s <= Z.of_N hi
  end.

(** The incidents the three filters keep. *)
Definition Selected (term categoryFilter : string) (band : SeverityBand)
           (i : Incident.t) : Prop :=
  (term = ""
   \/ ContainsIgnoringCase term (Incident.transcript i)
   \/ ContainsIgnoringCase term (Incident.category i))
  /\ (categoryFilter = "all" \/ Incident.category i = categoryFilter)
  /\ InBand band (Incident.severity i).

(** The same, as a test. *)
Definition selected (term categoryFilter : string) (band : SeverityBand)
           (i : Incident.t) : bool :=
  (negb (truthy term)
   || containsIgnoringCase term (Incident.transcript i)
   || containsIgnoringCase term (Incident.category i))
  && (String.eqb categoryFilter "all" || String.eqb (Incident.category i) categoryFilter)
  && match band with
     | AllSeverities => true
     | Between lo hi =>
         (Z.of_N lo <=? Incident.severity i) && (Incident.severity i <=? Z.of_N hi)
     end.







(** The two incidents of scenario A. *)
Definition scenarioA1 : Incident.t :=
  Incident.mk "1704103200000" "2024-01-01T10:00:00Z" "Meltdown" 2 None "t1" [].

Definition scenarioA2 : Incident.t :=
  Incident.mk "1704189600000" "2024-01-02T10:00:00Z" "Meltdown" 5 None "t2" ["Child"].


(** ** The exports *)

(** The date of an incident in a date-fns pattern, when it has one. *)
Definition formatted {dates : Dates} (pattern : string) (i : Incident.t)
  : option string :=
  format (parseISO (Incident.timestamp i)) pattern.

Definition Formats {dates : Dates} (pattern : string) (i : Incident.t) : Prop :=
  formatted pattern i <> None.

(** A field between double quotes, the double quotes inside it doubled. *)
Definition quoted (field : string) : string :=
  String dquote (doubleQuotes field) ++ String dquote "".

Definition headerLine : string :=
  "Date,Category,Severity,Location,People Involved,Transcript".

(** The row of an incident whose date is written [date]. *)
Definition csvLine (date : string) (i : Incident.t) : string :=
  date ++ "," ++ Incident.category i ++ "," ++ toString (Incident.severity i)
  ++ "," ++ orEmpty (Incident.location i) ++ ","
  ++ join "; " (Incident.peopleInvolved i) ++ ","
  ++ quoted (Incident.transcript i).

Definition lineFeed : ascii := "010"%char.

(** The elements of a list with their positions, counted from [k]. *)
Definition indexedFrom {A : Type} (k : nat) (l : list A) : list (nat * A) :=
  combine (seq k (length l)) l.

(** The heading of an entry of the court report. *)
Definition courtHeading (index : nat) (i : Incident.t) : string :=
  toString (Z.of_nat index + 1) ++ ". " ++ Incident.category i
  ++ " - Severity: " ++ toString (Incident.severity i) ++ "/5".

(** The texts of one entry of the court report. *)
Definition courtEntryTexts {metrics : TextMetrics} (date : string)
           (entry : nat * Incident.t) : list (list string) :=
  let '(index, i) := entry in
  let people := "People Involved: " ++ join ", " (Incident.peopleInvolved i) in
  List.app [[courtHeading index i]; ["Date: " ++ date]]
    (List.app (if truthy (orEmpty (Incident.location i))
               then [["Location: GPS coordinates recorded"]] else [])
       (List.app (if (0 <? length (Incident.peopleInvolved i))%nat
                  then [[people]] else [])
          [["Description:"]; splitTextToSize (Incident.transcript i) 160])).

(** The heading of an entry of the timeline report. *)
Definition pdfHeading (index : nat) (i : Incident.t) : string :=
  toString (Z.of_nat index + 1) ++ ". " ++ Incident.category i.

(** The texts of one entry of the timeline report. *)
Definition pdfEntryTexts {metrics : TextMetrics} (date : string)
           (entry : nat * Incident.t) : list (list string) :=
  let '(index, i) := entry in
  let place := "Location: " ++ orEmpty (Incident.location i) in
  let people := "People: " ++ join ", " (Incident.peopleInvolved i) in
  List.app [[pdfHeading index i]; ["Date: " ++ date];
            ["Severity: " ++ toString (Incident.severity i) ++ "/5"]]
    (List.app (if truthy (orEmpty (Incident.location i)) then [[place]] else [])
       (List.app (if (0 <? length (Incident.peopleInvolved i))%nat
                  then [[people]] else [])
          [splitTextToSize (Incident.transcript i) 160])).

(** [e] is the entry of [entry], written with the date of its incident. *)
Definition IsEntry {dates : Dates}
           (texts : string -> nat * Incident.t -> list (list string))
           (entry : nat * Incident.t) (e : list (list string)) : Prop :=
  exists date, formatted "PPpp" (snd entry) = Some date /\ e = texts date entry.

(** What the timeline report holds before its entries. *)
Definition pdfOpening (generated : string) (incidents : list Incident.t)
  : list (list string) :=
  [["ChildFirst - Incident Timeline Report"];
   ["Generated: " ++ generated];
   ["Total Incidents: " ++ toString (Z.of_nat (length incidents))]].

(** What the court report holds before its entries. *)
Definition courtOpening {dates : Dates} (reportData : LegalTools.ReportData)
           (generated : string) (incidents : list Incident.t) : list (list string) :=
  [["COURT DOCUMENTATION REPORT"];
   ["ChildFirst - Neurodivergent Child Support"];
   ["CHILD INFORMATION"];
   ["Name: " ++ or_else (LegalTools.childName reportData) "[Child Name]"];
   ["Date of Birth: " ++ or_else (LegalTools.dateOfBirth reportData) "[Date of Birth]"];
   ["Diagnosis: " ++ or_else (LegalTools.diagnosis reportData) "[Diagnosis]"];
   ["Report Purpose: "
    ++ or_else (LegalTools.reportPurpose reportData) "[Report Purpose]"];
   ["Generated: " ++ generated];
   ["INCIDENT SUMMARY"];
   ["Total Incidents Recorded: " ++ toString (Z.of_nat (length incidents))];
   ["Severity Breakdown: Low: "
    ++ toString (Counts.lookup "Low" (LegalTools.severityCount incidents))
    ++ ", Medium: "
    ++ toString (Counts.lookup "Medium" (LegalTools.severityCount incidents))
    ++ ", High: "
    ++ toString (Counts.lookup "High" (LegalTools.severityCount incidents))];
   ["Most Common Category: "
    ++ match LegalTools.mostCommon incidents with
       | Some (name, count) => name ++ " (" ++ toString count ++ " incidents)"
       | None => "N/A"
       end];
   ["DETAILED INCIDENT REPORTS"]].

(** What the court report holds after its entries. *)
Definition courtClosing {metrics : TextMetrics} (reportData : LegalTools.ReportData)
  : list (list string) :=
  List.app
    (if truthy (LegalTools.additionalNotes reportData)
     then [["ADDITIONAL NOTES"];
           splitTextToSize (LegalTools.additionalNotes reportData) 160]
     else [])
    [["This report was generated by ChildFirst app for legal documentation purposes."];
     ["All data is stored locally on the device for privacy protection."]].

(** Twelve incidents, for a store of more than ten. *)
Definition twelveIncidents : list Incident.t :=
  map (fun n => Incident.mk (msToString (1704103200000 + n))
                            "2024-01-01T10:00:00.000Z" "Meltdown" 3 None
                            ("episode " ++ msToString n) [])
      [1; 2; 3; 4; 5; 6; 7; 8; 9; 10; 11; 12]%N.

Definition blankReport : LegalTools.ReportData :=
  LegalTools.mkReportData "" "" "" "" "".

(** ** Vocabulary for the rest of the application *)

(** The page used one step at a time: a press of the round button with the
    answers to the two awaits of [startRecording] (or, when it stops a
    recording, with the end event of the recognizer), a press of the Pause
    button (with the end event of the recognizer when it pauses), or any
    other single event: a field of the form, Reset, Save, a result, an
    error or the end of the recognizer, a tick. *)
Inductive Step : Type :=
| PressRecord (granted : bool) (place : string) (clock : Clock)
| PressPause
| Single (e : VoiceRecording.Event).

Definition eventsOf (s : Step) (w : VoiceRecording.World)
  : list VoiceRecording.Event :=
  match s with
  | PressRecord granted place clock =>
      if VoiceRecording.isRecording (VoiceRecording.state w)
      then [VoiceRecording.ClickRecord; VoiceRecording.RecognitionEnd]
      else [VoiceRecording.ClickRecord;
            VoiceRecording.MicrophoneAnswer granted;
            VoiceRecording.LocationAnswer place clock]
  | PressPause =>
      if VoiceRecording.isPaused (VoiceRecording.state w)
      then [VoiceRecording.ClickPause]
      else [VoiceRecording.ClickPause; VoiceRecording.RecognitionEnd]
  | Single e =>
      match e with
      | VoiceRecording.ClickRecord | VoiceRecording.ClickPause
      | VoiceRecording.MicrophoneAnswer _ | VoiceRecording.LocationAnswer _ _ => []
      | _ => [e]
      end
  end.

Fixpoint useInSteps (steps : list Step) (w : VoiceRecording.World)
  : VoiceRecording.World :=
  match steps with
  | [] => w
  | s :: rest => useInSteps rest (VoiceRecording.run (eventsOf s w) w)
  end.

(** Every handler of the sequence completes. *)
Fixpoint completes (events : list VoiceRecording.Event) (w : VoiceRecording.World)
  : Prop :=
  match events with
  | [] => True
  | e :: rest =>
      snd (VoiceRecording.handle e w) = VoiceRecording.Normal tt
      /\ completes rest (VoiceRecording.after (VoiceRecording.handle e) w)
  end.

(** The recording resources are in step with the two flags of the session:
    while recording, one open stream (that of the current recorder) and one
    timer, the timer stopped during a pause; otherwise none; no call of
    [startRecording] is waiting; and nothing is shown as listened to
    without a recognizer. *)
Definition Tidy (w : VoiceRecording.World) : Prop :=
  VoiceRecording.awaitingMicrophone w = 0%nat
  /\ VoiceRecording.awaitingLocation w = 0%nat
  /\ (VoiceRecording.recognitionRef w = None -> VoiceRecording.isListening w = false)
  /\ if VoiceRecording.isRecording (VoiceRecording.state w) then
       exists s t,
         VoiceRecording.mediaRecorderRef w
         = Some (VoiceRecording.mkRecorder s
                   (if VoiceRecording.isPaused (VoiceRecording.state w)
                    then VoiceRecording.paused else VoiceRecording.recording))
         /\ VoiceRecording.openStreams w = [s]
         /\ VoiceRecording.timerRef w = Some t
         /\ VoiceRecording.activeIntervals w
            = (if VoiceRecording.isPaused (VoiceRecording.state w) then [] else [t])
         /\ (VoiceRecording.isPaused (VoiceRecording.state w) = true ->
             VoiceRecording.recognitionRef w <> Some true)
     else
       VoiceRecording.openStreams w = []
       /\ VoiceRecording.activeIntervals w = []
       /\ VoiceRecording.recognitionRef w <> Some true
       /\ VoiceRecording.isPaused (VoiceRecording.state w) = false
       /\ (forall r, VoiceRecording.mediaRecorderRef w = Some r ->
                     VoiceRecording.rstate r = VoiceRecording.inactive).

(** The fields of the form that the caregiver fills in. *)
Definition FormOk (s : VoiceRecording.VoiceRecordingState) : Prop :=
  (VoiceRecording.category s = ""
   \/ In (VoiceRecording.category s) VoiceRecording.categories)
  /\ 1 <= VoiceRecording.severity s <= 5
  /\ NoDup (VoiceRecording.peopleInvolved s)
  /\ incl (VoiceRecording.peopleInvolved s) VoiceRecording.commonPeople.

(** An incident as the data model wants it. *)
Definition WellFormed (i : Incident.t) : Prop :=
  Incident.transcript i <> ""
  /\ leadingWhiteSpace (Incident.transcript i) = false
  /\ trailingWhiteSpace (Incident.transcript i) = false
  /\ In (Incident.category i) VoiceRecording.categories
  /\ 1 <= Incident.severity i <= 5
  /\ NoDup (Incident.peopleInvolved i)
  /\ incl (Incident.peopleInvolved i) VoiceRecording.commonPeople.

(** Reading a quoted field back: after the opening double quote, a pair of
    double quotes stands for one and a single one ends the field.  The
    result is the field and what follows it. *)
Fixpoint readQuotedBody (s : string) : option (string * string) :=
  match s with
  | EmptyString => None
  | String c s' =>
      if Ascii.eqb c dquote then
        match s' with
        | String d s'' =>
            if Ascii.eqb d dquote
            then option_map (fun r => (String dquote (fst r), snd r)) (readQuotedBody s'')
            else Some (EmptyString, s')
        | EmptyString => Some (EmptyString, EmptyString)
        end
      else option_map (fun r => (String c (fst r), snd r)) (readQuotedBody s')
  end.

Definition readQuoted (s : string) : option (string * string) :=
  match s with
  | String c s' => if Ascii.eqb c dquote then readQuotedBody s' else None
  | EmptyString => None
  end.

(** The number of incidents that pass a test. *)
Definition countIf (test : Incident.t -> bool) (l : list Incident.t) : Z :=
  Z.of_nat (length (filter test l)).

Definition hasCategory (c : string) (i : Incident.t) : bool :=
  String.eqb (Incident.category i) c.

(** The property names every object inherits; a table of counts keyed by one
    of them would not start from [undefined]. *)
Definition inheritedNames : list string :=
  ["constructor"; "hasOwnProperty"; "isPrototypeOf"; "propertyIsEnumerable";
   "toLocaleString"; "toString"; "valueOf"; "__proto__"; "__defineGetter__";
   "__defineSetter__"; "__lookupGetter__"; "__lookupSetter__"].

Definition plainCategory (i : Incident.t) : Prop :=
  ~ In (Incident.category i) inheritedNames.

(** A string of decimal digits only. *)
Fixpoint allDecimalDigits (s : string) : Prop :=
  match s with
  | EmptyString => True
  | String c s' => isDecimalDigit c = true /\ allDecimalDigits s'
  end.

(** What is typed into the PIN screen, each value with the clock reading at
    that time; the screen is gone once the user is authenticated. *)
Fixpoint typeAll (entries : list (N * string)) (w : PinAuth.World)
  : PinAuth.World :=
  match entries with
  | [] => w
  | (clock, value) :: rest =>
      if PinAuth.isAuthenticated w then w
      else typeAll rest (PinAuth.onChange clock value w)
  end.

(** What is done on the PIN screen, each event with the clock reading at
    that time, until the user is authenticated. *)
Fixpoint runScreen (events : list (N * PinAuth.Event)) (w : PinAuth.World)
  : PinAuth.World :=
  match events with
  | [] => w
  | (clock, e) :: rest =>
      if PinAuth.isAuthenticated w then w
      else runScreen rest (PinAuth.handle clock e w)
  end.

(** A value that fills the six slots. *)
Definition complete (value : string) : bool := (String.length value =? 6)%nat.

(** The PIN form of the Settings page as it opens. *)
Definition pinForm (ls : AuthStorage) : SettingsPin.World :=
  SettingsPin.mkWorld "" "" ls [].

Definition runPinForm (events : list SettingsPin.Event) (w : SettingsPin.World)
  : SettingsPin.World :=
  fold_left (fun w' e => SettingsPin.handle e w') events w.

(** The three bands the severity selector offers. *)
Definition lowBand : SeverityBand := Between 1 2.
Definition mediumBand : SeverityBand := Between 3 3.
Definition highBand : SeverityBand := Between 4 5.

(** What is checked of the elapsed time shown for [m] minutes and [s]
    seconds. *)
Definition formatTimeChecks (m s : nat) : bool :=
  let text := VoiceRecordingDisplay.formatTime (Z.of_nat m * 60 + Z.of_nat s) in
  (String.length text =? 5)%nat
  && String.eqb (substring 2 1 text) ":"
  && match Number (substring 0 2 text), Number (substring 3 2 text) with
     | Some m', Some s' => (m' =? Z.of_nat m) && (s' =? Z.of_nat s)
     | _, _ => false
     end.


(** Every heading (a text of size [n]) is placed at the left margin, between
    the top of a page and the line 250. *)
Definition HeadingsInPage (n : Z) (doc : JsPDF.Doc) : Prop :=
  forall item, In item (JsPDF.items doc) -> JsPDF.size item = n ->
               JsPDF.x item = 20 /\ 20 <= JsPDF.y item <= 250.

(** * Properties *)

(** ** Strings *)

Lemma trimEnd_empty (s : string) : trimEnd s = "" <-> blank s = true.
Proof.
  induction s as [|c s IH]; simpl.
  - tauto.
  - destruct (trimEnd s) eqn:E.
    + destruct (isWhiteSpace c); simpl.
      * tauto.
      * split; discriminate.
    + split; [discriminate|].
      intros H. apply andb_prop in H. destruct H as [_ H].
      apply IH in H. discriminate.
Qed.

Lemma blank_trimStart (s : string) : blank (trimStart s) = blank s.
Proof.
  induction s as [|c s IH]; simpl; [reflexivity|].
  destruct (isWhiteSpace c) eqn:E; simpl.
  - exact IH.
  - now rewrite E.
Qed.

Lemma trim_empty (s : string) : trim s = "" <-> blank s = true.
Proof.
  unfold trim. rewrite trimEnd_empty. now rewrite blank_trimStart.
Qed.

Lemma truthy_trim (s : string) : truthy (trim s) = negb (blank s).
Proof.
  destruct (blank s) eqn:B.
  - apply trim_empty in B. now rewrite B.
  - destruct (trim s) eqn:T; [|reflexivity].
    apply trim_empty in T. congruence.
Qed.

Lemma leading_trimStart (s : string) : leadingWhiteSpace (trimStart s) = false.
Proof.
  induction s as [|c s IH]; simpl; [reflexivity|].
  destruct (isWhiteSpace c) eqn:E; [exact IH|]. simpl. exact E.
Qed.

Lemma leading_trimEnd (s : string) :
  leadingWhiteSpace s = false -> leadingWhiteSpace (trimEnd s) = false.
Proof.
  destruct s as [|c s]; simpl; [reflexivity|].
  intros H. destruct (trimEnd s); [rewrite H|]; simpl; auto.
Qed.

Lemma trailing_trimEnd (s : string) : trailingWhiteSpace (trimEnd s) = false.
Proof.
  induction s as [|c s IH]; simpl; [reflexivity|].
  destruct (trimEnd s) as [|d t] eqn:E.
  - destruct (isWhiteSpace c) eqn:W; simpl; [reflexivity|exact W].
  - simpl in *. exact IH.
Qed.

Lemma trim_no_surrounding_space (s : string) :
  leadingWhiteSpace (trim s) = false /\ trailingWhiteSpace (trim s) = false.
Proof.
  split.
  - apply leading_trimEnd, leading_trimStart.
  - apply trailing_trimEnd.
Qed.

Lemma truthy_true (s : string) : truthy s = true <-> s <> "".
Proof. destruct s; simpl; split; congruence. Qed.

Lemma prefix_spec (sub s : string) :
  prefix sub s = true <-> exists post, s = sub ++ post.
Proof.
  revert s. induction sub as [|c sub IH]; intros s; simpl.
  - destruct s; split; eauto.
  - destruct s as [|d s]; simpl.
    + split; [discriminate | intros [post H]; discriminate].
    + destruct (ascii_dec c d) as [->|N].
      * rewrite IH. split; intros [post H]; exists post; congruence.
      * split; [discriminate|]. intros [post H]. congruence.
Qed.

Lemma includes_spec (s sub : string) : includes s sub = true <-> Substring sub s.
Proof.
  unfold Substring. induction s as [|c s IH]; cbn [includes].
  - destruct (prefix sub "") eqn:P.
    + apply prefix_spec in P. destruct P as [post P].
      split; [intros _; exists "", post; exact P | reflexivity].
    + split; [discriminate|]. intros (pre & post & H).
      destruct pre; simpl in H; [|discriminate].
      assert (prefix sub "" = true) by (apply prefix_spec; eauto). congruence.
  - destruct (prefix sub (String c s)) eqn:P.
    + apply prefix_spec in P. destruct P as [post P].
      split; [intros _; exists "", post; exact P | reflexivity].
    + rewrite IH. split.
      * intros (pre & post & H). exists (String c pre), post. simpl. now rewrite H.
      * intros (pre & post & H). destruct pre as [|d pre]; simpl in H.
        -- assert (prefix sub (String c s) = true) by (apply prefix_spec; eauto).
           congruence.
        -- exists pre, post. congruence.
Qed.

Lemma occurs_app (c : ascii) (a b : string) :
  occurs c (a ++ b) = occurs c a || occurs c b.
Proof.
  induction a as [|d a IH]; simpl; [reflexivity|].
  now rewrite IH, orb_assoc.
Qed.

Lemma split_without (sep : ascii) (s : string) :
  occurs sep s = false -> split sep s = [s].
Proof.
  induction s as [|c s IH]; simpl; [reflexivity|].
  intros H. apply orb_false_elim in H. destruct H as [E O].
  rewrite E, (IH O). reflexivity.
Qed.

Lemma split_at (sep : ascii) (a b : string) :
  occurs sep a = false -> split sep (a ++ String sep b) = a :: split sep b.
Proof.
  induction a as [|c a IH]; simpl.
  - now rewrite Ascii.eqb_refl.
  - intros H. apply orb_false_elim in H. destruct H as [E O].
    rewrite E, (IH O). reflexivity.
Qed.

Lemma digits_without (c : ascii) (d : Decimal.uint) :
  (nat_of_ascii c <? 48)%nat || (57 <? nat_of_ascii c)%nat = true ->
  occurs c (NilEmpty.string_of_uint d) = false.
Proof.
  intros H.
  induction d; cbn [NilEmpty.string_of_uint occurs]; try reflexivity;
    rewrite IHd, orb_false_r; apply Ascii.eqb_neq; intros <-; discriminate H.
Qed.

(** ** Letters without their case *)

Lemma lowerChar_checked :
  forallb (fun n =>
             forallb (fun m =>
                        Bool.eqb (Ascii.eqb (lowerChar (ascii_of_nat n))
                                            (lowerChar (ascii_of_nat m)))
                                 (sameLetter (ascii_of_nat n) (ascii_of_nat m)))
                     (seq 0 256))
          (seq 0 256) = true.
Proof.
  vm_compute. reflexivity.
Qed.

(** Two characters have one lower case exactly when they are the same
    letter. *)
Lemma lowerChar_sameLetter (c d : ascii) :
  Ascii.eqb (lowerChar c) (lowerChar d) = sameLetter c d.
Proof.
  pose proof lowerChar_checked as H. rewrite forallb_forall in H.
  assert (B : forall x : ascii, In (nat_of_ascii x) (seq 0 256)).
  { intros x. apply in_seq. pose proof (nat_ascii_bounded x). lia. }
  specialize (H _ (B c)). rewrite forallb_forall in H. specialize (H _ (B d)).
  rewrite !ascii_nat_embedding in H. apply Bool.eqb_prop in H. exact H.
Qed.

Lemma prefix_toLowerCase (term s : string) :
  prefix (toLowerCase term) (toLowerCase s) = startsIgnoringCase term s.
Proof.
  revert s. induction term as [|c term IH]; intros s;
    [destruct s; reflexivity|].
  destruct s as [|d s]; [reflexivity|].
  cbn [toLowerCase prefix startsIgnoringCase].
  rewrite <- lowerChar_sameLetter, <- IH.
  destruct (ascii_dec (lowerChar c) (lowerChar d)) as [E|N].
  - rewrite E, Ascii.eqb_refl. reflexivity.
  - apply Ascii.eqb_neq in N. rewrite N. reflexivity.
Qed.

(** The search test of the timeline is the test without case. *)
Lemma includes_toLowerCase (term s : string) :
  includes (toLowerCase s) (toLowerCase term) = containsIgnoringCase term s.
Proof.
  induction s as [|d s IH].
  - cbn [toLowerCase includes containsIgnoringCase].
    rewrite <- (prefix_toLowerCase term ""). cbn [toLowerCase].
    destruct (prefix (toLowerCase term) ""); reflexivity.
  - cbn [toLowerCase includes containsIgnoringCase].
    change (String (lowerChar d) (toLowerCase s)) with (toLowerCase (String d s)).
    rewrite prefix_toLowerCase, IH.
    destruct (startsIgnoringCase term (String d s)); reflexivity.
Qed.

Lemma startsIgnoringCase_spec (term s : string) :
  startsIgnoringCase term s = true
  <-> exists mid post, s = mid ++ post /\ sameText term mid = true.
Proof.
  revert s. induction term as [|c term IH]; intros s.
  - cbn [startsIgnoringCase]. split; [|reflexivity].
    intros _. exists "", s. split; reflexivity.
  - destruct s as [|d s]; cbn [startsIgnoringCase].
    + split; [discriminate|]. intros (mid & post & E & T).
      destruct mid; [discriminate T | discriminate E].
    + rewrite andb_true_iff, IH. split.
      * intros (L & mid & post & E & T). exists (String d mid), post.
        split; [cbn; now rewrite E|]. cbn [sameText]. now rewrite L, T.
      * intros (mid & post & E & T). destruct mid as [|d' mid]; [discriminate T|].
        cbn in E. injection E as <- E. cbn [sameText] in T.
        apply andb_true_iff in T. destruct T as [L T].
        split; [exact L|]. exists mid, post. split; assumption.
Qed.

Lemma containsIgnoringCase_spec (term s : string) :
  containsIgnoringCase term s = true <-> ContainsIgnoringCase term s.
Proof.
  unfold ContainsIgnoringCase. induction s as [|d s IH]; cbn [containsIgnoringCase].
  - rewrite orb_false_r, startsIgnoringCase_spec. split.
    + intros (mid & post & E & T). exists "", mid, post. split; assumption.
    + intros (pre & mid & post & E & T). destruct pre; [|discriminate E].
      exists mid, post. split; assumption.
  - rewrite orb_true_iff, startsIgnoringCase_spec, IH. split.
    + intros [(mid & post & E & T)|(pre & mid & post & E & T)].
      * exists "", mid, post. split; assumption.
      * exists (String d pre), mid, post. split; [cbn; now rewrite E | exact T].
    + intros (pre & mid & post & E & T). destruct pre as [|d' pre].
      * left. exists mid, post. split; assumption.
      * right. cbn in E. injection E as _ E. exists pre, mid, post.
        split; assumption.
Qed.
(** ** VoiceRecording *)

Section VoiceRecordingFacts.
Import VoiceRecording.

Ltac js_unfold :=
  unfold after, saveIncident, resetRecording, stopRecording, startRecording,
    startRecording_afterMicrophone, startRecording_afterLocation,
    recordButton, pauseRecording, startListening, stopListening,
    recognitionStart, recognitionStop, recorderStop, recorderStart,
    recorderPause, recorderResume, stopTracks,
    setIntervalTimer, clearInterval, getUserMedia, tryCatch, toast, setState,
    when, bind, get, modify, ret, throw in *.

(** What [stopRecording] leaves behind: it completes, clears the two
    flags, and touches neither the form fields nor the storage; the
    recognizer is as it was, started until its end event. *)
Lemma stopRecording_effect (w : World) :
  exists w',
    stopRecording w = (w', Normal tt)
    /\ localStorage w' = localStorage w
    /\ state w' = mkState false false (transcript (state w)) (category (state w))
                          (severity (state w)) (peopleInvolved (state w))
                          (location (state w)) (timestamp (state w))
    /\ toasts w' = (toasts w ++ [recordingStopped])%list
    /\ incl (openStreams w') (openStreams w)
    /\ recognitionRef w' = recognitionRef w
    /\ awaitingMicrophone w' = awaitingMicrophone w
    /\ awaitingLocation w' = awaitingLocation w.
Proof.
  js_unfold.
  destruct (mediaRecorderRef w) as [r|] eqn:R;
    destruct (recognitionRef w) as [b|] eqn:G;
    destruct (timerRef w) as [t|] eqn:T; simpl; rewrite ?G, ?T; simpl;
    eexists; (split; [reflexivity|]); simpl; rewrite ?G;
    repeat split; try reflexivity;
    try (intros s Hs; apply filter_In in Hs; tauto);
    try apply incl_refl.
Qed.

Lemma resetRecording_effect (w : World) :
  exists w',
    resetRecording w = (w', Normal tt)
    /\ localStorage w' = localStorage w
    /\ state w' = initialState.
Proof.
  destruct (stopRecording_effect w) as (w1 & E & L & _).
  unfold resetRecording, bind. rewrite E. simpl.
  eexists. split; [reflexivity|]. simpl. auto.
Qed.

Lemma saveIncident_rejects (clock : Clock) (w : World) :
  blank (transcript (state w)) = true \/ category (state w) = "" ->
  saveIncident clock w = (add_toast missingInformation w, Normal tt).
Proof.
  intros H. unfold saveIncident, bind, get, toast, modify.
  rewrite truthy_trim.
  destruct H as [H|H]; rewrite H; simpl; [reflexivity|].
  now rewrite orb_true_r.
Qed.

Lemma saveIncident_accepts (clock : Clock) (w : World) :
  blank (transcript (state w)) = false ->
  category (state w) <> "" ->
  exists w',
    saveIncident clock w = (w', Normal tt)
    /\ getIncidents (localStorage w')
       = (getIncidents (localStorage w) ++ [built clock (state w)])%list
    /\ childfirst_settings (localStorage w') = childfirst_settings (localStorage w)
    /\ childfirst_last_backup (localStorage w') = childfirst_last_backup (localStorage w)
    /\ state w' = initialState.
Proof.
  intros B C. unfold saveIncident, bind, get, toast, modify.
  rewrite truthy_trim, B. apply truthy_true in C. rewrite C. simpl.
  match goal with |- context [resetRecording ?x] =>
    destruct (resetRecording_effect x) as (w' & E & L & S) end.
  rewrite E. exists w'. split; [reflexivity|].
  rewrite L. simpl. auto.
Qed.

(** C1. Whatever the session and the store hold, [saveIncident] on a
    transcript that is empty or white space only, or on an empty category,
    reports the validation failure (the destructive "Missing information"
    toast) and returns: the storage is untouched, the number of stored
    incidents is the same before and after, and the form keeps its
    contents for a retry. *)
Theorem save_rejects_blank_transcript_or_missing_category
        (clock : Clock) (w : World) :
  blank (transcript (state w)) = true \/ category (state w) = "" ->
  let w' := after (saveIncident clock) w in
  snd (saveIncident clock w) = Normal tt
  /\ toasts w' = (toasts w ++ [missingInformation])%list
  /\ variant missingInformation = destructive
  /\ localStorage w' = localStorage w
  /\ length (getIncidents (localStorage w')) = length (getIncidents (localStorage w))
  /\ state w' = state w.
Proof.
  intros H. unfold after. rewrite (saveIncident_rejects clock w H). simpl.
  repeat split; reflexivity.
Qed.

(** Scenario D: transcript of two spaces, category Meltdown. *)
Lemma save_rejects_two_spaces :
  let w := filledForm "  " "Meltdown" 3 emptyStorage in
  let clock := mkClock 1704103200000 "2024-01-01T10:00:00.000Z" in
  (blank (transcript (state w)) = true \/ category (state w) = "")
  /\ toasts (after (saveIncident clock) w) = [missingInformation]
  /\ length (getIncidents (localStorage (after (saveIncident clock) w)))
     = length (getIncidents (localStorage w)).
Proof.
  intros w clock.
  assert (H : blank (transcript (state w)) = true \/ category (state w) = "")
    by (left; reflexivity).
  split; [exact H|].
  destruct (save_rejects_blank_transcript_or_missing_category clock w H)
    as (_ & T & _ & _ & N & _).
  split; [exact T | exact N].
Defined.

(** C10. When [saveIncident] persists a record, the record is appended to the
    stored incidents and holds the trimmed transcript, which neither
    starts nor ends with white space, while category, severity, location
    and people are those of the form, unchanged. *)
Theorem save_persists_trimmed_transcript (clock : Clock) (w : World) :
  blank (transcript (state w)) = false ->
  category (state w) <> "" ->
  exists i,
    getIncidents (localStorage (after (saveIncident clock) w))
    = (getIncidents (localStorage w) ++ [i])%list
    /\ Incident.transcript i = trim (transcript (state w))
    /\ leadingWhiteSpace (Incident.transcript i) = false
    /\ trailingWhiteSpace (Incident.transcript i) = false
    /\ Incident.category i = category (state w)
    /\ Incident.severity i = severity (state w)
    /\ Incident.location i = Some (location (state w))
    /\ Incident.peopleInvolved i = peopleInvolved (state w).
Proof.
  intros B C.
  destruct (saveIncident_accepts clock w B C) as (w' & E & L & _).
  exists (built clock (state w)). unfold after. rewrite E. simpl.
  split; [exact L|].
  destruct (trim_no_surrounding_space (transcript (state w))) as [Hl Ht].
  repeat split; assumption || reflexivity.
Qed.

(** A transcript typed with spaces and no-break spaces around it is stored
    without them. *)
Lemma save_persists_trimmed_example :
  let typed := String noBreakSpace "  hit his sister " ++ String noBreakSpace "" in
  let w := filledForm typed "Meltdown" 4 emptyStorage in
  let clock := mkClock 1704103200000 "2024-01-01T10:00:00.000Z" in
  blank (transcript (state w)) = false
  /\ category (state w) <> ""
  /\ exists i,
       getIncidents (localStorage (after (saveIncident clock) w)) = [i]
       /\ Incident.transcript i = "hit his sister".
Proof.
  intros typed w clock.
  assert (B : blank (transcript (state w)) = false) by reflexivity.
  assert (C : category (state w) <> "") by discriminate.
  split; [exact B|]. split; [exact C|].
  destruct (save_persists_trimmed_transcript clock w B C) as (i & L & T & _).
  exists i. split; [exact L | exact T].
Defined.

(** *** The stretches of [startRecording] *)

(** What the first stretch after the microphone's answer leaves: it never
    throws; granted, one more stream is open, on which the current recorder
    is built; refused, the failure is shown.  The form, the storage and the
    recognizer are not touched. *)
Lemma afterMicrophone_effect (granted : bool) (w : World) :
  exists w',
    startRecording_afterMicrophone granted w = (w', Normal granted)
    /\ localStorage w' = localStorage w
    /\ state w' = state w
    /\ recognitionRef w' = recognitionRef w
    /\ awaitingMicrophone w' = awaitingMicrophone w
    /\ awaitingLocation w' = awaitingLocation w
    /\ openStreams w'
       = (if granted then fresh w :: openStreams w else openStreams w)
    /\ mediaRecorderRef w'
       = (if granted then Some (mkRecorder (fresh w) inactive)
          else mediaRecorderRef w)
    /\ toasts w'
       = (if granted then toasts w else toasts w ++ [recordingFailed])%list.
Proof.
  js_unfold. destruct granted; simpl; eexists; (split; [reflexivity|]);
    simpl; repeat split; reflexivity.
Qed.

(** What the last stretch leaves: it never throws, and it changes neither
    the storage nor what the caregiver entered on the form. *)
Lemma afterLocation_effect (location : string) (clock : Clock) (w : World) :
  exists w',
    startRecording_afterLocation location clock w = (w', Normal tt)
    /\ localStorage w' = localStorage w
    /\ state w' = mkState true false (transcript (state w)) (category (state w))
                          (severity (state w)) (peopleInvolved (state w))
                          location (nowISO clock)
    /\ openStreams w' = openStreams w
    /\ (recognitionRef w' = None <-> recognitionRef w = None)
    /\ awaitingMicrophone w' = awaitingMicrophone w
    /\ awaitingLocation w' = awaitingLocation w.
Proof.
  js_unfold.
  destruct (recognitionRef w) as [[|]|] eqn:G; simpl; rewrite ?G; simpl.
  - eexists; (split; [reflexivity|]); simpl; rewrite ?G;
      repeat split; try reflexivity; discriminate.
  - destruct (mediaRecorderRef w) as [[s [| |]]|] eqn:R; simpl;
      eexists; (split; [reflexivity|]); simpl; rewrite ?G;
      repeat split; try reflexivity; discriminate.
  - destruct (mediaRecorderRef w) as [[s [| |]]|] eqn:R; simpl; rewrite ?G; simpl;
      eexists; (split; [reflexivity|]); simpl; rewrite ?G;
      repeat split; try reflexivity; discriminate.
Qed.

Lemma startRecording_effect (env : StartEnv) (w : World) :
  exists w',
    startRecording env w = (w', Normal tt)
    /\ localStorage w' = localStorage w
    /\ severity (state w') = severity (state w)
    /\ (recognitionRef w' = None <-> recognitionRef w = None)
    /\ openStreams w'
       = (if micGranted env then fresh w :: openStreams w else openStreams w).
Proof.
  destruct (afterMicrophone_effect (micGranted env) w)
    as (w1 & E1 & L1 & S1 & G1 & _ & _ & O1 & _).
  unfold startRecording, bind. rewrite E1.
  destruct (micGranted env).
  - destruct (afterLocation_effect (currentLocation env) (startClock env) w1)
      as (w2 & E2 & L2 & S2 & O2 & G2 & _).
    exists w2. split; [exact E2|]. rewrite L2, S2, O2, G2, L1, S1, O1, G1.
    cbn [severity]. repeat split; tauto.
  - exists w1. split; [reflexivity|]. rewrite L1, S1, O1, G1.
    repeat split; tauto.
Qed.

Lemma pauseRecording_effect (w : World) :
  localStorage (after pauseRecording w) = localStorage w
  /\ severity (state (after pauseRecording w)) = severity (state w)
  /\ category (state (after pauseRecording w)) = category (state w)
  /\ transcript (state (after pauseRecording w)) = transcript (state w)
  /\ peopleInvolved (state (after pauseRecording w)) = peopleInvolved (state w).
Proof.
  js_unfold.
  destruct (mediaRecorderRef w) as [[s [| |]]|] eqn:R; simpl;
    destruct (isRecording (state w)); simpl; auto;
    destruct (isPaused (state w)); simpl; auto;
    destruct (recognitionRef w) as [[|]|] eqn:G; simpl; rewrite ?G; simpl; auto;
    destruct (timerRef w) as [t|] eqn:T; simpl; auto.
Qed.

Lemma saveDisabled_false (s : VoiceRecordingState) :
  saveDisabled s = false ->
  blank (transcript s) = false /\ category s <> "" /\ isRecording s = false.
Proof.
  unfold saveDisabled. rewrite truthy_trim. intros D.
  destruct (blank (transcript s)); [discriminate|].
  destruct (category s); [discriminate|].
  destruct (isRecording s); [discriminate|].
  repeat split; congruence.
Qed.

(** *** Severity *)

(** The buttons. *)
Lemma handle_ClickRecord (w : World) :
  handle ClickRecord w
  = if isRecording (state w) then stopRecording w
    else (set_awaitingMicrophone S w, Normal tt).
Proof.
  unfold handle, recordButton, bind, get, modify.
  destruct (isRecording (state w)); reflexivity.
Qed.

Lemma handle_ClickPause (w : World) :
  handle ClickPause w
  = if isRecording (state w) then pauseRecording w else (w, Normal tt).
Proof.
  unfold handle, when, bind, get, ret.
  destruct (isRecording (state w)); reflexivity.
Qed.

Lemma handle_ClickReset (w : World) :
  handle ClickReset w
  = if isRecording (state w) then (w, Normal tt) else resetRecording w.
Proof.
  unfold handle, when, bind, get, ret.
  destruct (isRecording (state w)); reflexivity.
Qed.

Lemma handle_ClickSave (clock : Clock) (w : World) :
  handle (ClickSave clock) w
  = if saveDisabled (state w) then (w, Normal tt) else saveIncident clock w.
Proof.
  unfold handle, when, bind, get, ret.
  destruct (saveDisabled (state w)); reflexivity.
Qed.

(** The answers to the two awaits of [startRecording]. *)
Lemma handle_MicrophoneAnswer (granted : bool) (w : World) :
  exists w',
    handle (MicrophoneAnswer granted) w = (w', Normal tt)
    /\ localStorage w' = localStorage w
    /\ state w' = state w
    /\ (recognitionRef w' = None <-> recognitionRef w = None).
Proof.
  unfold handle, bind, get, when. cbn [fst snd].
  destruct (0 <? awaitingMicrophone w)%nat.
  - unfold modify at 1. cbn iota beta.
    destruct (afterMicrophone_effect granted (set_awaitingMicrophone Nat.pred w))
      as (w1 & E & L & S & G & _).
    rewrite E. destruct granted; unfold modify, ret; eexists;
      (split; [reflexivity|]); cbn; rewrite ?L, ?S, ?G; cbn;
      repeat split; tauto.
  - unfold ret. exists w. repeat split; tauto.
Qed.

Lemma handle_LocationAnswer (location : string) (clock : Clock) (w : World) :
  exists w',
    handle (LocationAnswer location clock) w = (w', Normal tt)
    /\ localStorage w' = localStorage w
    /\ severity (state w') = severity (state w)
    /\ category (state w') = category (state w)
    /\ transcript (state w') = transcript (state w)
    /\ peopleInvolved (state w') = peopleInvolved (state w)
    /\ (recognitionRef w' = None <-> recognitionRef w = None).
Proof.
  unfold handle, bind, get, when. cbn [fst snd].
  destruct (0 <? awaitingLocation w)%nat.
  - unfold modify at 1. cbn iota beta.
    destruct (afterLocation_effect location clock (set_awaitingLocation Nat.pred w))
      as (w1 & E & L & S & _ & G & _).
    exists w1. split; [exact E|]. rewrite L, S, G. cbn. repeat split; tauto.
  - unfold ret. exists w. repeat split; tauto.
Qed.

Lemma handle_keeps_severity_in_range (e : Event) (w : World) :
  fromTheForm e -> severityInRange w -> severityInRange (after (handle e) w).
Proof.
  unfold severityInRange. intros F H.
  destruct e as [|granted|place clock| | |clock|text|value|value|person|results| | |timer];
    unfold after.
  - rewrite handle_ClickRecord. destruct (isRecording (state w)); [|exact H].
    destruct (stopRecording_effect w) as (w' & E & _ & S & _).
    rewrite E. cbn [fst]. rewrite S. exact H.
  - destruct (handle_MicrophoneAnswer granted w) as (w' & E & _ & S & _).
    rewrite E. cbn [fst]. rewrite S. exact H.
  - destruct (handle_LocationAnswer place clock w) as (w' & E & _ & S & _).
    rewrite E. cbn [fst]. rewrite S. exact H.
  - rewrite handle_ClickPause. destruct (isRecording (state w)); [|exact H].
    destruct (pauseRecording_effect w) as (_ & S & _). unfold after in S.
    rewrite S. exact H.
  - rewrite handle_ClickReset. destruct (isRecording (state w)); [exact H|].
    destruct (resetRecording_effect w) as (w' & E & _ & S).
    rewrite E. cbn [fst]. rewrite S. cbn. lia.
  - rewrite handle_ClickSave. destruct (saveDisabled (state w)) eqn:D; [exact H|].
    destruct (saveDisabled_false _ D) as (B & C & _).
    destruct (saveIncident_accepts clock w B C) as (w' & E & _ & _ & _ & S).
    rewrite E. cbn [fst]. rewrite S. cbn. lia.
  - exact H.
  - exact H.
  - cbn in F |- *. unfold sliderValues in F.
    repeat (destruct F as [<-|F]; [lia|]). destruct F.
  - unfold handle, bind, get, when. cbn [fst snd].
    match goal with |- context [if ?c then _ else _] => destruct c end; exact H.
  - exact H.
  - unfold handle, bind, get. cbn [fst snd]. destruct (recognitionRef w); exact H.
  - unfold handle, bind, get. cbn [fst snd]. destruct (recognitionRef w); exact H.
  - unfold handle, bind, get, when. cbn [fst snd].
    match goal with |- context [if ?c then _ else _] => destruct c end; exact H.
Qed.

Lemma run_keeps_severity_in_range (events : list Event) (w : World) :
  Forall fromTheForm events -> severityInRange w -> severityInRange (run events w).
Proof.
  intros F. revert w. induction F as [|e events Fe F IH]; intros w H; simpl.
  - exact H.
  - apply IH, handle_keeps_severity_in_range; assumption.
Qed.

(** C8.  The severities that reach [saveIncident] are those of the form:
    on a page opened fresh, whatever is done with the controls, the Slider
    handing over values of its own, the severity on the form is an integer
    from 1 to 5.  [saveIncident] accepts each of them: with a transcript and
    a category it persists the incident with that severity.  No severity
    outside the range reaches it, so that it has none to reject. *)
Theorem save_accepts_every_severity_of_the_form
        (events : list Event) (speech : bool) (ls : LocalStorage) (clock : Clock) :
  Forall fromTheForm events ->
  let w := run events (initialWorld speech ls) in
  let s := severity (state w) in
  In s [1; 2; 3; 4; 5]
  /\ (blank (transcript (state w)) = false -> category (state w) <> "" ->
      exists i,
        getIncidents (localStorage (after (saveIncident clock) w))
        = (getIncidents (localStorage w) ++ [i])%list
        /\ Incident.severity i = s)
  /\ (~ 1 <= s <= 5 -> localStorage (after (saveIncident clock) w) = localStorage w).
Proof.
  intros F w s.
  assert (R : 1 <= s <= 5).
  { apply (run_keeps_severity_in_range events _ F).
    unfold severityInRange. cbn. lia. }
  split; [|split].
  - cbn [In]. lia.
  - intros B C.
    destruct (saveIncident_accepts clock w B C) as (w' & E & L & _).
    exists (built clock (state w)). unfold after. rewrite E.
    split; [exact L | reflexivity].
  - intros N. contradiction.
Qed.

(** The form filled in and the slider moved to 4. *)
Lemma severity_of_the_form_example :
  let events := [EditTranscript "threw a chair"; SelectCategory "Meltdown";
                 SlideSeverity 4] in
  let w := run events (initialWorld true emptyStorage) in
  let clock := mkClock 1704103200000 "2024-01-01T10:00:00.000Z" in
  Forall fromTheForm events
  /\ severity (state w) = 4
  /\ exists i,
       getIncidents (localStorage (after (saveIncident clock) w)) = [i]
       /\ Incident.severity i = 4.
Proof.
  intros events w clock.
  assert (F : Forall fromTheForm events).
  { constructor; [exact I|]. constructor; [left; reflexivity|].
    constructor; [cbn; auto 10|]. constructor. }
  split; [exact F|]. split; [reflexivity|].
  destruct (save_accepts_every_severity_of_the_form events true emptyStorage clock F)
    as (_ & A & _).
  apply A; [reflexivity | discriminate].
Defined.


(** *** Starting twice *)

(** C7, as the code has it.  [startRecording] has no check of the session
    state and never throws: what fails inside is caught and shown as the
    "Recording failed" toast.  Whatever the state, a call whose request for
    the microphone is granted opens one more audio stream; the recognition
    instance stays the single one of the page.  The declining is done by the
    round button, which runs [stopRecording] instead of [startRecording] when
    [isRecording] is set: pressed then, it completes, ends the recording and
    opens no stream.  [isRecording] is set after the two awaits of
    [startRecording] only; until then a press runs [startRecording] again,
    and on a fresh page two presses in a row, both granted, leave two
    streams open, of which the next press of the button closes one. *)
Theorem start_is_declined_by_the_button_only
        (w : World) (env : StartEnv) (granted : bool) (place : string)
        (clock : Clock) :
  snd (startRecording env w) = Normal tt
  /\ snd (handle ClickRecord w) = Normal tt
  /\ snd (handle (MicrophoneAnswer granted) w) = Normal tt
  /\ snd (handle (LocationAnswer place clock) w) = Normal tt
  /\ openStreams (after (startRecording_afterMicrophone true) w)
     = fresh w :: openStreams w
  /\ ((0 < awaitingMicrophone w)%nat ->
      openStreams (after (handle (MicrophoneAnswer true)) w)
      = fresh w :: openStreams w)
  /\ (recognitionRef (after (startRecording env) w) = None
      <-> recognitionRef w = None)
  /\ (isRecording (state w) = true ->
      handle ClickRecord w = stopRecording w
      /\ isRecording (state (after (handle ClickRecord) w)) = false
      /\ incl (openStreams (after (handle ClickRecord) w)) (openStreams w)
      /\ awaitingMicrophone (after (handle ClickRecord) w) = awaitingMicrophone w)
  /\ (isRecording (state w) = false ->
      after (handle ClickRecord) w = set_awaitingMicrophone S w)
  /\ (forall (speech : bool) (ls : LocalStorage) (place' : string) (clock' : Clock),
        let w2 := run [ClickRecord; ClickRecord;
                       MicrophoneAnswer true; MicrophoneAnswer true;
                       LocationAnswer place clock; LocationAnswer place' clock']
                      (initialWorld speech ls) in
        isRecording (state w2) = true
        /\ openStreams w2 = [2%nat; 1%nat]
        /\ openStreams (after (handle ClickRecord) w2) = [1%nat]).
Proof.
  destruct (startRecording_effect env w) as (w1 & E1 & _ & _ & G1 & _).
  destruct (stopRecording_effect w) as (w2 & E2 & _ & S2 & _ & O2 & _ & A2 & _).
  destruct (handle_MicrophoneAnswer granted w) as (w3 & E3 & _).
  destruct (handle_LocationAnswer place clock w) as (w4 & E4 & _).
  destruct (afterMicrophone_effect true w) as (w5 & E5 & _ & _ & _ & _ & _ & O5 & _).
  unfold after. rewrite handle_ClickRecord, E1, E3, E4, E5. cbn [fst snd].
  split; [reflexivity|]. split.
  { destruct (isRecording (state w)); [rewrite E2|]; reflexivity. }
  split; [reflexivity|]. split; [reflexivity|]. split; [exact O5|]. split.
  { intros P. unfold handle, bind, get, when. cbn [fst snd].
    apply Nat.ltb_lt in P. rewrite P. unfold modify at 1. cbn iota beta.
    destruct (afterMicrophone_effect true (set_awaitingMicrophone Nat.pred w))
      as (w6 & E6 & _ & _ & _ & _ & _ & O6 & _).
    rewrite E6. unfold modify. cbn. exact O6. }
  split; [exact G1|]. split.
  { intros R. rewrite R, E2. cbn [fst]. rewrite S2.
    repeat split; [exact O2 | exact A2]. }
  split.
  { intros R. rewrite R. reflexivity. }
  intros speech ls place' clock'.
  destruct speech; vm_compute; repeat split.
Qed.

(** Two presses on a fresh page before the microphone has answered. *)
Lemma start_twice_example :
  let place := "-37.813600, 144.963100" in
  let clock := mkClock 1704103200000 "2024-01-01T10:00:00.000Z" in
  let env := mkStartEnv true place clock in
  let w2 := run [ClickRecord; ClickRecord;
                 MicrophoneAnswer true; MicrophoneAnswer true;
                 LocationAnswer place clock; LocationAnswer place clock]
                (initialWorld true emptyStorage) in
  isRecording (state w2) = true
  /\ openStreams w2 = [2%nat; 1%nat]
  /\ openStreams (after (handle ClickRecord) w2) = [1%nat]
  /\ toasts w2 = [recordingStarted; recordingFailed].
Proof.
  intros place clock env w2.
  destruct (start_is_declined_by_the_button_only
              (initialWorld true emptyStorage) env true place clock)
    as (_ & _ & _ & _ & _ & _ & _ & _ & _ & H).
  destruct (H true emptyStorage place clock) as (H1 & H2 & H3).
  split; [exact H1|]. split; [exact H2|]. split; [exact H3 | reflexivity].
Defined.

(** C7, as stated, fails: a second [startRecording] during a recording is
    not a no-op; two audio streams are open after it. *)
Lemma second_start_opens_a_second_stream :
  let env := mkStartEnv true "-37.813600, 144.963100"
                        (mkClock 1704103200000 "2024-01-01T10:00:00.000Z") in
  let w1 := after (startRecording env) (initialWorld true emptyStorage) in
  let w2 := after (startRecording env) w1 in
  isRecording (state w1) = true
  /\ openStreams w1 = [1%nat]
  /\ w2 <> w1
  /\ openStreams w2 = [3%nat; 1%nat]
  /\ isRecording (state w2) = true.
Proof.
  intros env w1 w2. repeat split; try reflexivity.
  intros H. apply (f_equal openStreams) in H. discriminate H.
Qed.

End VoiceRecordingFacts.

(** ** The store: ids, deletion, import *)

Section StoreFacts.

Lemma N_to_uint_nonnil (n : N) : N.to_uint n <> Decimal.Nil.
Proof.
  destruct n as [|p]; simpl; [discriminate|].
  apply DecimalPos.Unsigned.to_uint_nonnil.
Qed.

Lemma msToString_digits (n : N) :
  NilEmpty.uint_of_string (msToString n) = Some (N.to_uint n).
Proof.
  unfold msToString, NilZero.string_of_uint.
  pose proof (N_to_uint_nonnil n) as H.
  destruct (N.to_uint n) eqn:E; try congruence; rewrite <- E; apply NilEmpty.usu.
Qed.

Lemma msToString_inj (a b : N) : msToString a = msToString b -> a = b.
Proof.
  intros H. apply DecimalN.Unsigned.to_uint_inj.
  pose proof (msToString_digits a) as Ha. rewrite H, msToString_digits in Ha.
  congruence.
Qed.

Lemma Number_msToString (n : N) : Number (msToString n) = Some (Z.of_N n).
Proof.
  unfold Number. rewrite msToString_digits. simpl.
  now rewrite DecimalN.Unsigned.of_to.
Qed.

Lemma clockOf_msToString (t : N) : clockOf (msToString t) = Some t.
Proof.
  unfold clockOf. rewrite msToString_digits, DecimalN.Unsigned.of_to.
  now rewrite String.eqb_refl.
Qed.

Lemma idBound_above (l : list Incident.t) (i : Incident.t) (t : N) :
  In i l -> Incident.id i = msToString t -> (t < idBound l)%N.
Proof.
  induction l as [|j l IH]; simpl; [tauto|].
  intros [->|H] E.
  - rewrite E, clockOf_msToString. lia.
  - specialize (IH H E). destruct (clockOf (Incident.id j)); lia.
Qed.

Lemma distinct_NoDup (l : list string) : distinct l = true -> NoDup l.
Proof.
  induction l as [|x l IH]; simpl; intros H; constructor.
  - apply andb_prop in H. destruct H as [H _].
    intros I. apply negb_true_iff in H.
    assert (X : existsb (String.eqb x) l = true).
    { apply existsb_exists. exists x. split; [exact I | apply String.eqb_refl]. }
    congruence.
  - apply andb_prop in H. apply IH, H.
Qed.

(** Dropping incidents keeps the ids that remain distinct. *)
Lemma distinct_ids_after_filter (keep : Incident.t -> bool)
      (incidents : list Incident.t) :
  NoDup (map Incident.id incidents) ->
  NoDup (map Incident.id (filter keep incidents)).
Proof.
  induction incidents as [|i rest IH]; simpl; intros D; [constructor|].
  inversion D as [|? ? Fresh Rest]; subst.
  destruct (keep i); simpl; [constructor|]; auto.
  intros I. apply Fresh. apply in_map_iff in I. destruct I as (j & E & I).
  apply in_map_iff. exists j. split; [exact E|].
  apply filter_In in I. tauto.
Qed.

(** What each writer does to the stored incidents. *)
Lemma applyOp_Append (clock : Clock) (form : VoiceRecording.VoiceRecordingState)
      (ls : LocalStorage) :
  getIncidents (applyOp (Append clock form) ls)
  = if negb (blank (VoiceRecording.transcript form))
       && truthy (VoiceRecording.category form)
    then (getIncidents ls ++ [built clock form])%list
    else getIncidents ls.
Proof.
  unfold applyOp.
  set (w := VoiceRecording.set_state (fun _ => form)
              (VoiceRecording.initialWorld true ls)).
  destruct (blank (VoiceRecording.transcript form)) eqn:B; simpl.
  - unfold VoiceRecording.after.
    rewrite (saveIncident_rejects clock w) by (left; exact B). reflexivity.
  - destruct (truthy (VoiceRecording.category form)) eqn:C.
    + apply truthy_true in C.
      destruct (saveIncident_accepts clock w B C) as (w' & E & L & _).
      unfold VoiceRecording.after. rewrite E. exact L.
    + unfold VoiceRecording.after.
      rewrite (saveIncident_rejects clock w); [reflexivity|].
      right. simpl. destruct (VoiceRecording.category form); [reflexivity|discriminate].
Qed.

Lemma applyOp_Remove (id : string) (ls : LocalStorage) :
  getIncidents (applyOp (Remove id) ls)
  = filter (fun i => negb (String.eqb (Incident.id i) id)) (getIncidents ls).
Proof. reflexivity. Qed.

Lemma applyOp_ReplaceAll (doc : Settings.BackupDocument) (ls : LocalStorage) :
  getIncidents (applyOp (ReplaceAll doc) ls)
  = match Settings.incidents doc with
    | Some l => l
    | None => getIncidents ls
    end.
Proof.
  unfold applyOp, Settings.importData. simpl.
  destruct (Settings.incidents doc); destruct (Settings.settings doc); reflexivity.
Qed.

Lemma StoreInv_weaken (b b' : N) (ls : LocalStorage) :
  (b <= b')%N -> StoreInv b ls -> StoreInv b' ls.
Proof.
  intros L [D H]. split; [exact D|].
  intros i t I E. specialize (H i t I E). lia.
Qed.

Lemma wellClocked_keeps_ids_distinct (ops : list StoreOp) :
  forall (b : N) (ls : LocalStorage),
    StoreInv b ls -> wellClocked b ops = true -> NoDup (ids (runOps ops ls)).
Proof.
  induction ops as [|op ops IH]; intros b ls [D H] W; simpl in *.
  - exact D.
  - destruct op as [clock form | id | doc].
    + apply andb_prop in W. destruct W as [Wb W].
      apply N.leb_le in Wb.
      apply (IH (now clock + 1)%N); [|exact W].
      unfold StoreInv, ids. rewrite applyOp_Append.
      destruct (negb (blank (VoiceRecording.transcript form))
                && truthy (VoiceRecording.category form)).
      * split.
        -- rewrite map_app. simpl.
           apply NoDup_app.
           ++ exact D.
           ++ constructor; [simpl; tauto | constructor].
           ++ intros x Hx [<-|[]].
              apply in_map_iff in Hx. destruct Hx as (i & E & I).
              specialize (H i (now clock) I E). lia.
        -- intros i t I E. apply in_app_or in I. destruct I as [I|[<-|[]]].
           ++ specialize (H i t I E). lia.
           ++ simpl in E. apply msToString_inj in E. lia.
      * split; [exact D|]. intros i t I E. specialize (H i t I E). lia.
    + apply (IH b); [|exact W].
      unfold StoreInv, ids. rewrite applyOp_Remove. split.
      * apply distinct_ids_after_filter, D.
      * intros i t I E. apply filter_In in I. apply (H i t); tauto.
    + destruct (Settings.incidents doc) as [l|] eqn:E.
      * apply andb_prop in W. destruct W as [Wd W].
        apply (IH (idBound l)); [|exact W].
        unfold StoreInv, ids. rewrite applyOp_ReplaceAll, E. split.
        -- apply distinct_NoDup, Wd.
        -- intros i t. apply idBound_above.
      * apply (IH b); [|exact W].
        unfold StoreInv, ids. rewrite applyOp_ReplaceAll, E. split; assumption.
Qed.


(** C9, as the code has it.  The id of a saved incident is the decimal text
    of the clock reading [Date.now()].  From the empty store, the ids stay
    pairwise distinct along every run of saves, deletions and imports in
    which each save reads a clock value above those of the earlier saves and
    above the readings found as ids in the last imported document, and in
    which each imported document has pairwise distinct ids. *)
Theorem ids_distinct_along_well_clocked_runs
        (ops : list StoreOp) (clock : Clock)
        (form : VoiceRecording.VoiceRecordingState) :
  wellClocked 0 ops = true ->
  NoDup (ids (runOps ops emptyStorage))
  /\ (negb (blank (VoiceRecording.transcript form))
      && truthy (VoiceRecording.category form) = true ->
      ids (applyOp (Append clock form) (runOps ops emptyStorage))
      = (ids (runOps ops emptyStorage) ++ [msToString (now clock)])%list).
Proof.
  intros W. split.
  - apply (wellClocked_keeps_ids_distinct ops 0 emptyStorage); [|exact W].
    split; [constructor|]. intros i t [].
  - intros V. unfold ids. rewrite applyOp_Append, V, map_app. reflexivity.
Qed.

(** Two saves a millisecond apart, a deletion, an import and a later save. *)
Lemma ids_distinct_example :
  let form := VoiceRecording.mkState false false "refused the bus" "School Refusal"
                                     2 ["Child"] "" "" in
  let old := Incident.mk "1704000000000" "2023-12-31T05:20:00.000Z" "Meltdown" 4
                         None "screamed" [] in
  let ops := [Append (mkClock 1704103200000 "2024-01-01T10:00:00.000Z") form;
              Append (mkClock 1704103200001 "2024-01-01T10:00:00.001Z") form;
              Remove "1704103200000";
              ReplaceAll (Settings.mkBackup (Some "1.0") None (Some [old]) None);
              Append (mkClock 1704189600000 "2024-01-02T10:00:00.000Z") form] in
  wellClocked 0 ops = true
  /\ NoDup (ids (runOps ops emptyStorage))
  /\ ids (runOps ops emptyStorage) = ["1704000000000"; "1704189600000"].
Proof.
  intros form old ops.
  assert (W : wellClocked 0 ops = true) by (vm_compute; reflexivity).
  split; [exact W|].
  split; [|vm_compute; reflexivity].
  exact (proj1 (ids_distinct_along_well_clocked_runs
                  ops (mkClock 0 "") form W)).
Defined.

(** C9, as stated, fails: two saves that read the same clock value get the
    same id, and an import installs a document with a repeated id as it
    is. *)
Lemma same_clock_reading_repeats_an_id :
  let form := VoiceRecording.mkState false false "refused the bus" "School Refusal"
                                     2 ["Child"] "" "" in
  let clock := mkClock 1704103200000 "2024-01-01T10:00:00.000Z" in
  let twice := Incident.mk "7" "2024-01-01T10:00:00.000Z" "Meltdown" 4 None "a" [] in
  let doc := Settings.mkBackup (Some "1.0") None (Some [twice; twice]) None in
  ids (runOps [Append clock form; Append clock form] emptyStorage)
  = ["1704103200000"; "1704103200000"]
  /\ ~ NoDup (ids (runOps [Append clock form; Append clock form] emptyStorage))
  /\ ~ NoDup (ids (runOps [ReplaceAll doc] emptyStorage)).
Proof.
  intros form clock twice doc.
  split; [vm_compute; reflexivity|].
  split; intros H; vm_compute in H; inversion H as [|x l N _]; subst;
    apply N; left; reflexivity.
Qed.

End StoreFacts.

(** ** Settings: import *)

Section SettingsFacts.
Import Settings.



End SettingsFacts.

(** ** Sorting with a comparator that follows a key *)

Section SortFacts.
Context {A : Type} (compareFn : A -> A -> option Z) (key : A -> Z) (valid : A -> Prop).

Hypothesis after_key :
  forall a b, valid a -> valid b -> isAfter compareFn a b = (key b <? key a).

Lemma insert_permutation (a : A) (l : list A) :
  Permutation (a :: l) (insert compareFn a l).
Proof.
  induction l as [|b l IH]; simpl; [apply Permutation_refl|].
  destruct (isAfter compareFn a b).
  - apply perm_trans with (b :: a :: l); [apply perm_swap|].
    apply perm_skip, IH.
  - apply Permutation_refl.
Qed.

Lemma sort_permutation (l : list A) : Permutation l (sort compareFn l).
Proof.
  induction l as [|a l IH]; simpl; [apply perm_nil|].
  apply perm_trans with (a :: sort compareFn l).
  - apply perm_skip, IH.
  - apply insert_permutation.
Qed.

Lemma sort_valid (l : list A) : Forall valid l -> Forall valid (sort compareFn l).
Proof.
  intros H. rewrite Forall_forall in *. intros x I.
  apply H. apply Permutation_in with (sort compareFn l); [|exact I].
  apply Permutation_sym, sort_permutation.
Qed.

Lemma insert_sorted (a : A) (l : list A) :
  valid a -> Forall valid l ->
  StronglySorted (fun x y => key x <= key y) l ->
  StronglySorted (fun x y => key x <= key y) (insert compareFn a l).
Proof.
  intros Va Vl S. induction S as [|b l S IH F]; simpl.
  - constructor; constructor.
  - inversion Vl as [|? ? Vb Vl']; subst.
    rewrite (after_key a b Va Vb).
    destruct (key b <? key a) eqn:E.
    + apply Z.ltb_lt in E. constructor; [apply IH, Vl'|].
      apply Forall_forall. intros x I.
      apply Permutation_in with (l' := a :: l) in I;
        [|apply Permutation_sym, insert_permutation].
      destruct I as [<-|I]; [lia|].
      rewrite Forall_forall in F. apply F, I.
    + apply Z.ltb_ge in E. constructor; [constructor; assumption|].
      constructor; [exact E|].
      rewrite Forall_forall in *. intros x I. specialize (F x I). lia.
Qed.

Lemma sort_sorted (l : list A) :
  Forall valid l -> StronglySorted (fun x y => key x <= key y) (sort compareFn l).
Proof.
  induction l as [|a l IH]; intros V; simpl; [constructor|].
  inversion V; subst.
  apply insert_sorted; auto using sort_valid.
Qed.



End SortFacts.

(** ** IncidentTimeline: the filtered view *)

Section TimelineFacts.
Import IncidentTimeline.
Context {dates : Dates}.

Lemma msToString_without (c : ascii) (n : N) :
  (nat_of_ascii c <? 48)%nat || (57 <? nat_of_ascii c)%nat = true ->
  occurs c (msToString n) = false.
Proof.
  intros H. unfold msToString, NilZero.string_of_uint.
  pose proof (N_to_uint_nonnil n) as X.
  destruct (N.to_uint n) eqn:E; try congruence; rewrite <- E;
    apply digits_without, H.
Qed.

Lemma bandValue_not_all (lo hi : N) :
  String.eqb (bandValue (Between lo hi)) "all" = false.
Proof.
  apply String.eqb_neq. intros H.
  apply (f_equal (occurs "a")) in H. simpl in H.
  rewrite occurs_app, msToString_without in H by reflexivity.
  simpl in H. rewrite msToString_without in H by reflexivity.
  discriminate.
Qed.

Lemma bandValue_range (lo hi : N) :
  map Number (split "-" (bandValue (Between lo hi)))
  = [Some (Z.of_N lo); Some (Z.of_N hi)].
Proof.
  simpl. rewrite split_at by (apply msToString_without; reflexivity).
  rewrite split_without by (apply msToString_without; reflexivity).
  simpl. now rewrite !Number_msToString.
Qed.

(** Filtering what a filter kept is filtering by both tests. *)
Lemma filter_twice (keep also : Incident.t -> bool) (incidents : list Incident.t) :
  filter also (filter keep incidents)
  = filter (fun i => keep i && also i) incidents.
Proof.
  induction incidents as [|i rest IH]; simpl; [reflexivity|].
  destruct (keep i); simpl; [destruct (also i)|]; now rewrite IH.
Qed.

(** The view is the sorted selection. *)
Lemma filterIncidents_selection (incidents : list Incident.t)
      (term categoryFilter : string) (band : SeverityBand) (order : SortOrder) :
  filterIncidents incidents term categoryFilter (bandValue band) order
  = sort (compareFn order) (filter (selected term categoryFilter band) incidents).
Proof.
  unfold filterIncidents. f_equal.
  assert (S1 : (if truthy term then filter (searchFilter term) incidents else incidents)
               = filter (fun i => negb (truthy term) || searchFilter term i) incidents).
  { destruct (truthy term); simpl; [reflexivity | now rewrite filter_true]. }
  rewrite S1.
  assert (S2 : forall l,
             (if negb (String.eqb categoryFilter "all")
              then filter (categoryMatch categoryFilter) l else l)
             = filter (fun i => String.eqb categoryFilter "all"
                                || categoryMatch categoryFilter i) l).
  { intros l. destruct (String.eqb categoryFilter "all"); simpl;
      [now rewrite filter_true | reflexivity]. }
  rewrite S2.
  destruct band as [|lo hi].
  - simpl. rewrite filter_twice. apply filter_ext. intros i.
    unfold selected, searchFilter, categoryMatch.
    now rewrite !includes_toLowerCase, andb_true_r, orb_assoc.
  - rewrite bandValue_not_all, bandValue_range. cbn [negb].
    rewrite !filter_twice. apply filter_ext. intros i.
    unfold selected, searchFilter, categoryMatch, severityMatch, geq, leq.
    rewrite !includes_toLowerCase. simpl.
    now rewrite orb_assoc, andb_assoc.
Qed.

Lemma selected_spec (term categoryFilter : string) (band : SeverityBand)
      (i : Incident.t) :
  selected term categoryFilter band i = true <-> Selected term categoryFilter band i.
Proof.
  unfold selected, Selected.
  rewrite !andb_true_iff, !orb_true_iff, !containsIgnoringCase_spec, !String.eqb_eq.
  assert (T : negb (truthy term) = true <-> term = "").
  { destruct term; simpl; split; congruence. }
  rewrite T.
  assert (B : match band with
              | AllSeverities => true
              | Between lo hi =>
                  (Z.of_N lo <=? Incident.severity i)
                  && (Incident.severity i <=? Z.of_N hi)
              end = true <-> InBand band (Incident.severity i)).
  { destruct band; simpl; [tauto|].
    rewrite andb_true_iff, !Z.leb_le. tauto. }
  rewrite B. tauto.
Qed.





End TimelineFacts.

(** ** The exports *)

Section ExportFacts.
Context {dates : Dates} {metrics : TextMetrics}.

(** *** Rows of the tabular export *)

Lemma csvRow_line (i : Incident.t) (date : string) :
  formatted "yyyy-MM-dd HH:mm:ss" i = Some date ->
  option_map (join ",") (IncidentTimeline.csvRow i) = Some (csvLine date i).
Proof.
  unfold formatted, IncidentTimeline.csvRow. intros ->. reflexivity.
Qed.

Lemma mapM_csvRow (incidents : list Incident.t) :
  Forall (Formats "yyyy-MM-dd HH:mm:ss") incidents ->
  exists csvData,
    mapM IncidentTimeline.csvRow incidents = Some csvData
    /\ Forall2 (fun i row => exists date,
                    formatted "yyyy-MM-dd HH:mm:ss" i = Some date
                    /\ row = csvLine date i)
               incidents (map (join ",") csvData).
Proof.
  induction 1 as [|i l Hi Hl (csvData & E & F)]; simpl.
  - exists []. split; [reflexivity | constructor].
  - unfold Formats in Hi.
    destruct (formatted "yyyy-MM-dd HH:mm:ss" i) as [date|] eqn:D; [|congruence].
    pose proof (csvRow_line i date D) as R.
    destruct (IncidentTimeline.csvRow i) as [row|]; [|discriminate].
    rewrite E. exists (row :: csvData). split; [reflexivity|].
    simpl. constructor; [|exact F].
    exists date. split; [exact D|]. simpl in R. congruence.
Qed.

Lemma split_join_lines (first : string) (rest : list string) :
  Forall (fun row => occurs lineFeed row = false) (first :: rest) ->
  split lineFeed (join (String lineFeed "") (first :: rest)) = first :: rest.
Proof.
  revert first. induction rest as [|second rest IH]; intros first F.
  - inversion F; subst. simpl. now apply split_without.
  - inversion F as [|? ? H1 H2]; subst.
    change (join (String lineFeed "") (first :: second :: rest))
      with (first ++ String lineFeed (join (String lineFeed "") (second :: rest))).
    rewrite split_at by exact H1. now rewrite IH.
Qed.

(** *** Entries of the two documents *)

Lemma texts_textLines (ls : list string) (px py : Z) (doc : JsPDF.Doc) :
  JsPDF.texts (JsPDF.textLines ls px py doc) = (JsPDF.texts doc ++ [ls])%list.
Proof. unfold JsPDF.texts. simpl. now rewrite map_app. Qed.

Lemma texts_text (s : string) (px py : Z) (doc : JsPDF.Doc) :
  JsPDF.texts (JsPDF.text s px py doc) = (JsPDF.texts doc ++ [[s]])%list.
Proof. apply texts_textLines. Qed.

Lemma texts_setFontSize (n : Z) (doc : JsPDF.Doc) :
  JsPDF.texts (JsPDF.setFontSize n doc) = JsPDF.texts doc.
Proof. reflexivity. Qed.

Lemma texts_addPage (doc : JsPDF.Doc) :
  JsPDF.texts (JsPDF.addPage doc) = JsPDF.texts doc.
Proof. reflexivity. Qed.

Ltac texts_norm :=
  repeat (rewrite ?texts_textLines, ?texts_text, ?texts_setFontSize, ?texts_addPage);
  repeat rewrite <- app_assoc; simpl.

Lemma courtEntry_texts (doc : JsPDF.Doc) (y : Z) (index : nat) (i : Incident.t)
      (date : string) :
  formatted "PPpp" i = Some date ->
  exists doc' y',
    LegalTools.courtEntry (doc, y) index i = Some (doc', y')
    /\ JsPDF.texts doc' = (JsPDF.texts doc ++ courtEntryTexts date (index, i))%list.
Proof.
  unfold formatted, LegalTools.courtEntry, courtEntryTexts, courtHeading.
  intros ->.
  destruct (250 <? y);
    destruct (truthy (orEmpty (Incident.location i)));
    destruct (0 <? length (Incident.peopleInvolved i))%nat;
    eexists; eexists; (split; [reflexivity|]); texts_norm; reflexivity.
Qed.

Lemma pdfEntry_texts (doc : JsPDF.Doc) (y : Z) (index : nat) (i : Incident.t)
      (date : string) :
  formatted "PPpp" i = Some date ->
  exists doc' y',
    IncidentTimeline.pdfEntry (doc, y) index i = Some (doc', y')
    /\ JsPDF.texts doc' = (JsPDF.texts doc ++ pdfEntryTexts date (index, i))%list.
Proof.
  unfold formatted, IncidentTimeline.pdfEntry, pdfEntryTexts, pdfHeading.
  intros ->.
  destruct (250 <? y);
    destruct (truthy (orEmpty (Incident.location i)));
    destruct (0 <? length (Incident.peopleInvolved i))%nat;
    eexists; eexists; (split; [reflexivity|]); texts_norm; reflexivity.
Qed.

(** A loop whose body adds the texts of one entry adds the entries of all
    the incidents, in order. *)
Lemma forEachFrom_entries
      (body : JsPDF.Doc * Z -> nat -> Incident.t -> option (JsPDF.Doc * Z))
      (entryTexts : string -> nat * Incident.t -> list (list string)) :
  (forall doc y index i date,
      formatted "PPpp" i = Some date ->
      exists doc' y',
        body (doc, y) index i = Some (doc', y')
        /\ JsPDF.texts doc' = (JsPDF.texts doc ++ entryTexts date (index, i))%list) ->
  forall (l : list Incident.t) (k : nat) (doc : JsPDF.Doc) (y : Z),
    Forall (Formats "PPpp") l ->
    exists doc' y' entries,
      forEachFrom body k l (doc, y) = Some (doc', y')
      /\ JsPDF.texts doc' = (JsPDF.texts doc ++ concat entries)%list
      /\ Forall2 (IsEntry entryTexts) (indexedFrom k l) entries.
Proof.
  intros B l. induction l as [|i l IH]; intros k doc y F; simpl.
  - exists doc, y, []. simpl. rewrite app_nil_r. repeat split. constructor.
  - inversion F as [|? ? Hi Hl]; subst. unfold Formats in Hi.
    destruct (formatted "PPpp" i) as [date|] eqn:D; [|congruence].
    destruct (B doc y k i date D) as (doc1 & y1 & E1 & T1).
    rewrite E1.
    destruct (IH (S k) doc1 y1 Hl) as (doc2 & y2 & entries & E2 & T2 & F2).
    exists doc2, y2, (entryTexts date (k, i) :: entries).
    split; [exact E2|]. split.
    + rewrite T2, T1. simpl. now rewrite app_assoc.
    + unfold indexedFrom in *. simpl. constructor; [|exact F2].
      exists date. split; [exact D | reflexivity].
Qed.

Lemma indexedFrom_length {X : Type} (k : nat) (l : list X) :
  length (indexedFrom k l) = length l.
Proof.
  unfold indexedFrom. rewrite length_combine, length_seq. apply Nat.min_id.
Qed.

(** C3, as the code has it.  When the dates of the incidents can be
    formatted, the tabular export is the header row followed by one row per
    incident, in order, the rows joined by line feeds; a row holds the date
    in the pattern yyyy-MM-dd HH:mm:ss, the category, the severity, the
    location, the people joined with "; ", and the transcript, which is
    always put between double quotes with the double quotes inside it
    doubled, whether or not it holds a comma or a quote.  When no row holds a
    line feed, the lines of the file are the header and the rows: one more
    than there are incidents. *)
Theorem csv_export_rows_with_quoted_transcript (incidents : list Incident.t) :
  Forall (Formats "yyyy-MM-dd HH:mm:ss") incidents ->
  exists rows,
    IncidentTimeline.exportToCSV incidents
    = Some (mkDownload "childfirst-timeline-data.csv"
                       (join (String lineFeed "") (headerLine :: rows)),
            IncidentTimeline.exportSuccessfulCSV)
    /\ Forall2 (fun i row => exists date,
                    formatted "yyyy-MM-dd HH:mm:ss" i = Some date
                    /\ row = csvLine date i)
               incidents rows
    /\ length (headerLine :: rows) = S (length incidents)
    /\ (Forall (fun row => occurs lineFeed row = false) rows ->
        split lineFeed (join (String lineFeed "") (headerLine :: rows))
        = headerLine :: rows).
Proof.
  intros F. destruct (mapM_csvRow incidents F) as (csvData & E & R).
  exists (map (join ",") csvData).
  unfold IncidentTimeline.exportToCSV, IncidentTimeline.csvContent. rewrite E.
  split; [reflexivity|]. split; [exact R|]. split.
  - simpl. f_equal. symmetry. apply (Forall2_length R).
  - intros N. apply split_join_lines. constructor; [reflexivity | exact N].
Qed.

(** C4. With more than ten incidents in the store, and dates that can be
    formatted, the court report is produced and holds, between its opening
    and its closing texts, the entries of the first ten incidents of the
    store, in store order, and nothing else; the timeline report is produced
    and holds, after its opening texts, one entry for every incident it is
    given, in order. *)
Theorem court_report_holds_ten_entries_timeline_report_all
        (reportData : LegalTools.ReportData) (today : Date)
        (generated day : string) (ls : LocalStorage) (view : list Incident.t) :
  (10 < length (getIncidents ls))%nat ->
  format today "PPP" = Some generated ->
  format today "yyyy-MM-dd" = Some day ->
  Forall (Formats "PPpp") (firstn 10 (getIncidents ls)) ->
  Forall (Formats "PPpp") view ->
  (exists doc entries,
      LegalTools.generateCourtReport reportData true today ls
      = (Some (mkDownload ("childfirst-court-report-" ++ day ++ ".pdf") doc),
         LegalTools.reportGenerated)
      /\ JsPDF.texts doc
         = (courtOpening reportData generated (getIncidents ls)
            ++ concat entries ++ courtClosing reportData)%list
      /\ Forall2 (IsEntry courtEntryTexts)
                 (indexedFrom 0 (firstn 10 (getIncidents ls))) entries
      /\ length entries = 10%nat)
  /\ (exists doc entries,
         IncidentTimeline.exportToPDF true today view
         = (Some (mkDownload "childfirst-timeline-report.pdf" doc),
            IncidentTimeline.exportSuccessfulPDF)
         /\ JsPDF.texts doc = (pdfOpening generated view ++ concat entries)%list
         /\ Forall2 (IsEntry pdfEntryTexts) (indexedFrom 0 view) entries
         /\ length entries = length view).
Proof.
  intros L G D Fc Fv. split.
  - unfold LegalTools.generateCourtReport.
    destruct (getIncidents ls) as [|i0 rest] eqn:EI; [simpl in L; lia|].
    rewrite <- EI in *. clear i0 rest EI.
    assert (N : (length (getIncidents ls) =? 0)%nat = false)
      by (apply Nat.eqb_neq; lia).
    rewrite N. unfold LegalTools.courtDocument. rewrite G.
    match goal with
    | |- context [forEach LegalTools.courtEntry ?l (?d, ?y)] =>
        destruct (forEachFrom_entries LegalTools.courtEntry courtEntryTexts
                    courtEntry_texts l 0%nat d y Fc)
          as (doc1 & y1 & entries & E & T & F2);
        unfold forEach; rewrite E
    end.
    rewrite D.
    eexists. exists entries. split; [reflexivity|]. split; [|split].
    + unfold courtClosing.
      destruct (truthy (LegalTools.additionalNotes reportData));
        [destruct (200 <? y1)|]; texts_norm; rewrite T; texts_norm;
        repeat rewrite <- app_assoc; reflexivity.
    + exact F2.
    + rewrite <- (Forall2_length F2), indexedFrom_length, length_firstn.
      lia.
  - unfold IncidentTimeline.exportToPDF. rewrite G.
    match goal with
    | |- context [forEach IncidentTimeline.pdfEntry ?l (?d, ?y)] =>
        destruct (forEachFrom_entries IncidentTimeline.pdfEntry pdfEntryTexts
                    pdfEntry_texts l 0%nat d y Fv)
          as (doc1 & y1 & entries & E & T & F2);
        unfold forEach; rewrite E
    end.
    exists doc1, entries. split; [reflexivity|]. split; [|split].
    + rewrite T. texts_norm. reflexivity.
    + exact F2.
    + rewrite <- (Forall2_length F2). apply indexedFrom_length.
Qed.

(** C5, as the code has it.  On an empty sequence the tabular export is the
    header row alone and the timeline report is produced with its opening
    texts, the count among them reading 0.  The court report is not
    produced for an empty store: [generateCourtReport] shows the "No
    incidents found" toast and returns without a document. *)
Theorem empty_sequence_exports
        (reportData : LegalTools.ReportData) (jsPDFLoads : bool) (today : Date)
        (generated : string) (ls : LocalStorage) :
  format today "PPP" = Some generated ->
  getIncidents ls = [] ->
  IncidentTimeline.exportToCSV []
  = Some (mkDownload "childfirst-timeline-data.csv" headerLine,
          IncidentTimeline.exportSuccessfulCSV)
  /\ (exists doc,
         IncidentTimeline.exportToPDF true today []
         = (Some (mkDownload "childfirst-timeline-report.pdf" doc),
            IncidentTimeline.exportSuccessfulPDF)
         /\ JsPDF.texts doc = pdfOpening generated []
         /\ In ["Total Incidents: 0"] (JsPDF.texts doc))
  /\ LegalTools.generateCourtReport reportData jsPDFLoads today ls
     = (None, LegalTools.noIncidentsFound).
Proof.
  intros G E. split; [reflexivity|]. split.
  - unfold IncidentTimeline.exportToPDF. rewrite G. simpl.
    eexists. split; [reflexivity|]. split; [reflexivity|].
    simpl. auto.
  - unfold LegalTools.generateCourtReport. now rewrite E.
Qed.

End ExportFacts.

(** *** The exports on the reference host *)

Section ExportExamples.
Existing Instance UtcHost.dates.
Existing Instance UtcHost.metrics.


Lemma scenario_formats (pattern : string) (l : list Incident.t) :
  forallb (fun i => match formatted pattern i with Some _ => true | None => false end) l
  = true ->
  Forall (Formats pattern) l.
Proof.
  intros H. apply Forall_forall. intros i I.
  rewrite forallb_forall in H. specialize (H i I).
  unfold Formats. destruct (formatted pattern i); [discriminate | discriminate H].
Qed.



(** Scenario B: two incidents give three lines. *)
Lemma scenario_B_lines :
  Forall (Formats "yyyy-MM-dd HH:mm:ss") [scenarioA1; scenarioA2]
  /\ exists rows,
       IncidentTimeline.exportToCSV [scenarioA1; scenarioA2]
       = Some (mkDownload "childfirst-timeline-data.csv"
                          (join (String lineFeed "") (headerLine :: rows)),
               IncidentTimeline.exportSuccessfulCSV)
       /\ length (headerLine :: rows) = 3%nat
       /\ length (split lineFeed (join (String lineFeed "") (headerLine :: rows)))
          = 3%nat.
Proof.
  assert (F : Forall (Formats "yyyy-MM-dd HH:mm:ss") [scenarioA1; scenarioA2])
    by (apply scenario_formats; reflexivity).
  split; [exact F|].
  destruct (csv_export_rows_with_quoted_transcript [scenarioA1; scenarioA2] F)
    as (rows & E & _ & L & _).
  exists rows. split; [exact E|]. split; [exact L|].
  assert (X : option_map (fun file => length (split lineFeed (content (fst file))))
                         (IncidentTimeline.exportToCSV [scenarioA1; scenarioA2])
              = Some 3%nat) by reflexivity.
  rewrite E in X.
  change (Some (length (split lineFeed
                          (join (String lineFeed "") (headerLine :: rows))))
          = Some 3%nat) in X.
  injection X as X. exact X.
Defined.

(** C3, as stated, fails: the transcript t1 holds neither a comma nor a
    double quote, and its field is written between double quotes. *)
Lemma plain_transcript_is_quoted :
  occurs "," (Incident.transcript scenarioA1) = false
  /\ occurs dquote (Incident.transcript scenarioA1) = false
  /\ option_map (fun row => nth 5 row "") (IncidentTimeline.csvRow scenarioA1)
     = Some (String dquote ("t1" ++ String dquote ""))
  /\ String dquote ("t1" ++ String dquote "") <> Incident.transcript scenarioA1
  /\ option_map (fun file => content (fst file))
                (IncidentTimeline.exportToCSV [scenarioA1; scenarioA2])
     = Some (headerLine ++ String lineFeed
               ("2024-01-01 10:00:00,Meltdown,2,,," ++ quoted "t1"
                ++ String lineFeed
                     ("2024-01-02 10:00:00,Meltdown,5,,Child," ++ quoted "t2"))).
Proof.
  repeat split; try reflexivity. discriminate.
Qed.

(** A store of twelve incidents: the court report has ten entries. *)
Lemma twelve_incidents_report :
  let today := UtcHost.parse "2024-03-01T09:30:00.000Z" in
  let ls := mkStorage (Some twelveIncidents) None None in
  (10 < length (getIncidents ls))%nat
  /\ Forall (Formats "PPpp") (firstn 10 (getIncidents ls))
  /\ exists doc entries,
       LegalTools.generateCourtReport blankReport true today ls
       = (Some (mkDownload "childfirst-court-report-2024-03-01.pdf" doc),
          LegalTools.reportGenerated)
       /\ Forall2 (IsEntry courtEntryTexts)
                  (indexedFrom 0 (firstn 10 twelveIncidents)) entries
       /\ length entries = 10%nat.
Proof.
  intros today ls.
  assert (L : (10 < length (getIncidents ls))%nat) by (simpl; lia).
  assert (F : Forall (Formats "PPpp") (firstn 10 (getIncidents ls)))
    by (apply scenario_formats; reflexivity).
  assert (V : Forall (Formats "PPpp") twelveIncidents)
    by (apply scenario_formats; reflexivity).
  split; [exact L|]. split; [exact F|].
  destruct (@court_report_holds_ten_entries_timeline_report_all
              UtcHost.dates UtcHost.metrics blankReport today "March 1st, 2024" "2024-03-01" ls twelveIncidents
              L eq_refl eq_refl F V) as [(doc & entries & E & _ & F2 & N) _].
  exists doc, entries. split; [exact E|]. split; [exact F2 | exact N].
Defined.

(** Nothing stored: a header row, and no court report. *)
Lemma empty_exports_example :
  let today := UtcHost.parse "2024-03-01T09:30:00.000Z" in
  format today "PPP" = Some "March 1st, 2024"
  /\ getIncidents emptyStorage = []
  /\ IncidentTimeline.exportToCSV []
     = Some (mkDownload "childfirst-timeline-data.csv" headerLine,
             IncidentTimeline.exportSuccessfulCSV)
  /\ LegalTools.generateCourtReport blankReport true today emptyStorage
     = (None, LegalTools.noIncidentsFound).
Proof.
  intros today.
  split; [reflexivity|]. split; [reflexivity|].
  destruct (@empty_sequence_exports UtcHost.dates UtcHost.metrics
              blankReport true today "March 1st, 2024"
              emptyStorage eq_refl eq_refl) as (C & _ & R).
  split; [exact C | exact R].
Defined.

(** C5, as stated, fails for the court report: on an empty store no
    document is produced. *)
Lemma court_report_declines_empty_store :
  let today := UtcHost.parse "2024-03-01T09:30:00.000Z" in
  LegalTools.generateCourtReport blankReport true today (mkStorage (Some []) None None)
  = (None, LegalTools.noIncidentsFound)
  /\ LegalTools.generateCourtReport blankReport true today emptyStorage
     = (None, LegalTools.noIncidentsFound)
  /\ variant LegalTools.noIncidentsFound = destructive.
Proof.
  intros today. repeat split.
Qed.

End ExportExamples.
(** * The rest of the application: properties *)

(** ** VoiceRecording: transcript, resources, form *)

Section MoreVoiceFacts.
Import VoiceRecording.

Lemma append_empty_right (s : string) : (s ++ "")%string = s.
Proof. induction s as [|c s IH]; simpl; congruence. Qed.

Lemma append_assoc_string (a b c : string) :
  ((a ++ b) ++ c)%string = (a ++ (b ++ c))%string.
Proof. induction a as [|x a IH]; simpl; congruence. Qed.

Lemma join_empty_cons (x : string) (l : list string) :
  join "" (x :: l) = (x ++ join "" l)%string.
Proof. destruct l; simpl; [now rewrite append_empty_right | reflexivity]. Qed.

Lemma finalTranscript_from (results : list (bool * string)) (acc : string) :
  fold_left (fun (acc : string) (r : bool * string) =>
               if fst r then (acc ++ snd r)%string else acc) results acc
  = (acc ++ join "" (map snd (filter fst results)))%string.
Proof.
  revert acc. induction results as [|[final text] results IH]; intros acc.
  - simpl. now rewrite append_empty_right.
  - cbn [fold_left filter fst snd]. rewrite IH. destruct final; [|reflexivity].
    cbn [map snd]. now rewrite join_empty_cons, append_assoc_string.
Qed.

(** X1. Over any sequence of recognition events, the transcript grows by
    the final fragments, in the order they arrive, each once; interim
    fragments never enter it, and how the fragments are grouped into events
    does not matter. *)
Theorem transcript_is_the_final_fragments_in_order
        (batches : list (list (bool * string))) (w : World) :
  transcript (state (run (map RecognitionResult batches) w))
  = (transcript (state w) ++ join "" (map snd (filter fst (concat batches))))%string.
Proof.
  revert w. induction batches as [|batch batches IH]; intros w.
  - simpl. now rewrite append_empty_right.
  - cbn [map run fold_left]. fold (run (map RecognitionResult batches)).
    change (fold_left (fun (w' : World) (e : Event) => after (handle e) w')
                      (map RecognitionResult batches)
                      (after (handle (RecognitionResult batch)) w))
      with (run (map RecognitionResult batches)
                (after (handle (RecognitionResult batch)) w)).
    rewrite IH. unfold after, handle, bind, get, setState, modify. simpl.
    unfold finalTranscript. rewrite finalTranscript_from. simpl.
    rewrite filter_app, map_app.
    assert (J : forall a b, join "" (a ++ b) = (join "" a ++ join "" b)%string).
    { induction a as [|x a IHa]; intros b; [reflexivity|].
      change ((x :: a) ++ b)%list with (x :: (a ++ b))%list.
      now rewrite !join_empty_cons, IHa, append_assoc_string. }
    now rewrite J, append_assoc_string.
Qed.

(** *** The resources when the page is used one step at a time *)

Ltac world_cases w :=
  destruct w as [[rec pau tra cat sev peo loc tim] rt il mr rr tr os ai fr sto ts am al];
  unfold Tidy in *; cbn [state isRecording isPaused mediaRecorderRef openStreams
                          timerRef activeIntervals recognitionRef isListening
                          awaitingMicrophone awaitingLocation] in *.

Ltac run_handlers :=
  unfold completes, run, fold_left, after, handle, recordButton, startRecording_afterMicrophone,
    startRecording_afterLocation, stopRecording, pauseRecording, resetRecording,
    saveIncident, tryCatch, when, bind, get, getUserMedia, startListening,
    stopListening, recognitionStart, recognitionStop, recorderStart,
    recorderStop, recorderPause, recorderResume, stopTracks, setIntervalTimer,
    clearInterval, setState, toast, modify, ret, throw;
  cbn.

Ltac tidy_after :=
  split; [reflexivity|]; split; [reflexivity|];
  split; [first [assumption | intros; discriminate | intros; reflexivity | auto]|];
  first
    [ solve [ eexists; eexists;
              repeat split; try reflexivity; try discriminate; try assumption ]
    | solve [ repeat split; try reflexivity; try discriminate; try assumption;
              try (intros r E; injection E as <-; reflexivity);
              try (intros r E; discriminate E);
              try (intros r E; injection E as <-; auto) ] ].

Ltac step_done := split; [repeat split | tidy_after].

Lemma record_step_tidy (granted : bool) (place : string) (clock : Clock) (w : World) :
  Tidy w ->
  completes (eventsOf (PressRecord granted place clock) w) w
  /\ Tidy (run (eventsOf (PressRecord granted place clock) w) w).
Proof.
  intros T. world_cases w. unfold eventsOf. cbn [state isRecording].
  destruct T as (-> & -> & L & T). destruct rec.
  - destruct T as (s & t & -> & -> & -> & -> & P).
    destruct rr as [[|]|]; destruct pau; run_handlers; rewrite ?Nat.eqb_refl; cbn;
      step_done.
  - destruct T as (-> & -> & G & -> & I).
    destruct granted; destruct rr as [[|]|]; try congruence;
      destruct mr as [[s rs]|]; destruct tr as [t|];
      run_handlers; step_done.
Qed.

Lemma pause_step_tidy (w : World) :
  Tidy w ->
  completes (eventsOf PressPause w) w /\ Tidy (run (eventsOf PressPause w) w).
Proof.
  intros T. world_cases w. unfold eventsOf. cbn [state isPaused].
  destruct T as (-> & -> & L & T). destruct rec.
  - destruct T as (s & t & -> & -> & -> & -> & P).
    destruct pau.
    + specialize (P eq_refl).
      destruct rr as [[|]|]; try congruence; run_handlers; step_done.
    + destruct rr as [[|]|]; run_handlers; rewrite ?Nat.eqb_refl; cbn; step_done.
  - destruct T as (-> & -> & G & -> & I).
    destruct rr as [[|]|]; try congruence; run_handlers; step_done.
Qed.

Lemma resetRecording_tidy (w : World) :
  Tidy w -> isRecording (state w) = false ->
  snd (resetRecording w) = Normal tt /\ Tidy (after resetRecording w).
Proof.
  intros T R. world_cases w. cbn in R. subst rec.
  destruct T as (-> & -> & L & -> & -> & G & -> & I).
  destruct rr as [[|]|]; try congruence;
    destruct mr as [[s rs]|]; destruct tr as [t|];
    run_handlers; (split; [reflexivity|]); tidy_after.
Qed.

Lemma saveIncident_tidy (clock : Clock) (w : World) :
  Tidy w -> isRecording (state w) = false ->
  snd (saveIncident clock w) = Normal tt /\ Tidy (after (saveIncident clock) w).
Proof.
  intros T R. unfold after, saveIncident, bind, get, toast, modify.
  destruct (negb (truthy (trim (transcript (state w))))
            || negb (truthy (category (state w)))).
  - cbn. split; [reflexivity|]. world_cases w. exact T.
  - cbn.
    match goal with |- context [resetRecording ?x] =>
      assert (Tx : Tidy x) by (world_cases w; exact T);
      assert (Rx : isRecording (state x) = false) by exact R;
      destruct (resetRecording_tidy x Tx Rx) as [N T'];
      unfold after in T'; destruct (resetRecording x) as [w1 c]
    end.
    cbn in *. auto.
Qed.

Lemma single_step_tidy (e : Event) (w : World) :
  Tidy w ->
  completes (eventsOf (Single e) w) w /\ Tidy (run (eventsOf (Single e) w) w).
Proof.
  intros T.
  destruct e as [|granted|place clock| | |clock|text|value|value|person|results| | |timer];
    unfold eventsOf; try (split; [exact I | exact T]);
    unfold completes, run, fold_left.
  - rewrite handle_ClickReset. unfold after. rewrite handle_ClickReset.
    destruct (isRecording (state w)) eqn:R.
    + split; [split; [reflexivity | exact I] | exact T].
    + destruct (resetRecording_tidy w T R) as [N T']. auto.
  - rewrite handle_ClickSave. unfold after. rewrite handle_ClickSave.
    destruct (saveDisabled (state w)) eqn:D.
    + split; [split; [reflexivity | exact I] | exact T].
    + destruct (saveDisabled_false _ D) as (_ & _ & R).
      destruct (saveIncident_tidy clock w T R) as [N T']. auto.
  - split; [split; [reflexivity | exact I]|]. world_cases w. exact T.
  - split; [split; [reflexivity | exact I]|]. world_cases w. exact T.
  - split; [split; [reflexivity | exact I]|]. world_cases w. exact T.
  - unfold after, handle, bind, get, when. cbn [fst snd].
    match goal with |- context [if ?c then _ else _] => destruct c end;
      (split; [split; [reflexivity | exact I]|]); world_cases w; exact T.
  - split; [split; [reflexivity | exact I]|]. world_cases w. exact T.
  - world_cases w. destruct T as (A1 & A2 & L & T). destruct rr as [b|];
      (split; [split; [reflexivity | exact I]|]); cbn;
      (split; [exact A1|]); (split; [exact A2|]);
      (split; [first [exact L | intros; discriminate]|]); exact T.
  - world_cases w. destruct T as (-> & -> & L & T).
    destruct rr as [b|]; (split; [split; [reflexivity | exact I]|]);
      (split; [reflexivity|]); (split; [reflexivity|]); cbn;
      (split; [first [exact L | intros; discriminate]|]); [|exact T].
    destruct rec.
    + destruct T as (s & t & T1 & T2 & T3 & T4 & T5).
      exists s, t. repeat split; try assumption. discriminate.
    + destruct T as (T1 & T2 & T3 & T4 & T5). repeat split; try assumption.
      discriminate.
  - unfold after, handle, bind, get, when. cbn [fst snd].
    match goal with |- context [if ?c then _ else _] => destruct c end;
      (split; [split; [reflexivity | exact I]|]); world_cases w; exact T.
Qed.

Lemma step_tidy (s : Step) (w : World) :
  Tidy w -> completes (eventsOf s w) w /\ Tidy (run (eventsOf s w) w).
Proof.
  destruct s as [granted place clock| |e].
  - apply record_step_tidy.
  - apply pause_step_tidy.
  - apply single_step_tidy.
Qed.

Lemma useInSteps_tidy (steps : list Step) (w : World) :
  Tidy w -> Tidy (useInSteps steps w).
Proof.
  revert w. induction steps as [|s steps IH]; intros w T; [exact T|].
  cbn [useInSteps]. apply IH, step_tidy, T.
Qed.

Lemma initialWorld_tidy (speech : bool) (ls : LocalStorage) :
  Tidy (initialWorld speech ls).
Proof.
  unfold Tidy, initialWorld. cbn.
  repeat split; destruct speech; discriminate.
Qed.


(** X3. During a recording on a page used one step at a time, Pause stops
    the timer (a tick no longer counts) and pauses the recorder while the
    stream stays open, and asks the recognizer to stop.  Pressed again after
    the end event of the recognizer, the button resumes: recording again on
    the same stream, with one timer, and with the elapsed time and the
    transcript as they were.  Pressed again before that event, while the
    recognizer is still started, the handler throws InvalidStateError after
    it has resumed the recorder: the form still shows the pause and no timer
    runs. *)
Theorem pause_then_resume_keeps_time_and_transcript
        (steps : list Step) (speech : bool) (ls : LocalStorage) (timer : nat) :
  let w := useInSteps steps (initialWorld speech ls) in
  isRecording (state w) = true ->
  isPaused (state w) = false ->
  let p := after (handle ClickPause) w in
  let r := after (handle ClickPause) (after (handle RecognitionEnd) p) in
  let early := after (handle ClickPause) p in
  (snd (handle ClickPause w) = Normal tt
   /\ isRecording (state p) = true
   /\ isPaused (state p) = true
   /\ activeIntervals p = []
   /\ isListening p = false
   /\ openStreams p = openStreams w
   /\ recordingTime (after (handle (Tick timer)) p) = recordingTime p)
  /\ (snd (handle ClickPause (after (handle RecognitionEnd) p)) = Normal tt
      /\ isRecording (state r) = true
      /\ isPaused (state r) = false
      /\ openStreams r = openStreams w
      /\ length (activeIntervals r) = 1%nat
      /\ recordingTime r = recordingTime w
      /\ transcript (state r) = transcript (state w))
  /\ (recognitionRef w = Some true ->
      snd (handle ClickPause p) = Throw "InvalidStateError"
      /\ isPaused (state early) = true
      /\ activeIntervals early = []
      /\ openStreams early = openStreams w
      /\ exists s, mediaRecorderRef early = Some (mkRecorder s recording)).
Proof.
  intros w R P.
  assert (T : Tidy w) by apply useInSteps_tidy, initialWorld_tidy.
  clearbody w. world_cases w. cbn in R, P. subst rec pau.
  destruct T as (-> & -> & L & s & t & -> & -> & -> & -> & _).
  destruct rr as [[|]|]; run_handlers; rewrite ?Nat.eqb_refl; cbn;
    repeat split; auto; try discriminate; eauto.
Qed.

(** A recording started, two ticks, a result; then the pause. *)
Lemma pause_then_resume_example :
  let clock := mkClock 1704103200000 "2024-01-01T10:00:00.000Z" in
  let steps := [PressRecord true "-37.813600, 144.963100" clock;
                Single (Tick 2); Single (Tick 2);
                Single (RecognitionResult [(true, "he ran off")])] in
  let w := useInSteps steps (initialWorld true emptyStorage) in
  let p := after (handle ClickPause) w in
  isRecording (state w) = true
  /\ isPaused (state w) = false
  /\ recordingTime w = 2
  /\ recordingTime (after (handle ClickPause) (after (handle RecognitionEnd) p)) = 2
  /\ transcript (state (after (handle ClickPause) (after (handle RecognitionEnd) p)))
     = "he ran off"
  /\ snd (handle ClickPause p) = Throw "InvalidStateError".
Proof.
  intros clock steps w p.
  assert (R : isRecording (state w) = true) by reflexivity.
  assert (P : isPaused (state w) = false) by reflexivity.
  split; [exact R|]. split; [exact P|]. split; [reflexivity|].
  destruct (pause_then_resume_keeps_time_and_transcript
              steps true emptyStorage 2%nat R P)
    as (_ & (_ & _ & _ & _ & _ & H6 & H7) & E).
  split; [exact H6|]. split; [exact H7|].
  exact (proj1 (E eq_refl)).
Defined.


(** *** What the form stores *)

Lemma togglePerson_keeps_distinct (person : string) (people : list string) :
  NoDup people -> NoDup (togglePerson person people).
Proof.
  intros D. unfold togglePerson.
  destruct (existsb (String.eqb person) people) eqn:E.
  - apply NoDup_filter, D.
  - apply NoDup_app; [exact D | constructor; [simpl; tauto | constructor] |].
    intros x I [<-|[]].
    assert (X : existsb (String.eqb person) people = true).
    { apply existsb_exists. exists person.
      split; [exact I | apply String.eqb_refl]. }
    congruence.
Qed.

Lemma togglePerson_within (person : string) (people allowed : list string) :
  In person allowed -> incl people allowed -> incl (togglePerson person people) allowed.
Proof.
  intros P I. unfold incl in *. intros x. unfold togglePerson.
  destruct (existsb (String.eqb person) people).
  - intros H. apply filter_In in H. apply I, H.
  - intros H. apply in_app_or in H. destruct H as [H|[<-|[]]]; [apply I, H | exact P].
Qed.

Lemma existsb_eqb_In (x : string) (l : list string) :
  existsb (String.eqb x) l = true -> In x l.
Proof.
  intros H. apply existsb_exists in H. destruct H as (y & I & E).
  apply String.eqb_eq in E. now subst.
Qed.

Lemma built_wellformed (clock : Clock) (s : VoiceRecordingState) :
  FormOk s -> blank (transcript s) = false -> category s <> "" ->
  WellFormed (built clock s).
Proof.
  intros (C & S & D & I) B N. unfold WellFormed, built. simpl.
  destruct (trim_no_surrounding_space (transcript s)) as [L T].
  repeat split; try assumption; try lia.
  - intros E. apply trim_empty in E. congruence.
  - destruct C as [C|C]; [congruence | exact C].
Qed.

(** The form stays as the controls can make it when the category, the
    severity and the people stay. *)
Lemma FormOk_same (s s' : VoiceRecordingState) :
  category s' = category s -> severity s' = severity s ->
  peopleInvolved s' = peopleInvolved s -> FormOk s -> FormOk s'.
Proof.
  unfold FormOk. intros -> -> ->. tauto.
Qed.

Lemma handle_keeps_wellformed (e : Event) (w : World) :
  fromTheForm e ->
  FormOk (state w) /\ Forall WellFormed (getIncidents (localStorage w)) ->
  FormOk (state (after (handle e) w))
  /\ Forall WellFormed (getIncidents (localStorage (after (handle e) w))).
Proof.
  intros V [F W].
  assert (F0 : FormOk initialState).
  { unfold FormOk, initialState. simpl. repeat split; try lia; auto.
    - constructor.
    - intros x []. }
  destruct e as [|granted|place clock| | |clock|text|value|value|person|results| | |timer];
    unfold after.
  - rewrite handle_ClickRecord. destruct (isRecording (state w)).
    + destruct (stopRecording_effect w) as (w' & E & L & S & _).
      rewrite E. cbn [fst]. rewrite S, L. split; [exact F | exact W].
    + split; [exact F | exact W].
  - destruct (handle_MicrophoneAnswer granted w) as (w' & E & L & S & _).
    rewrite E. cbn [fst]. rewrite S, L. split; [exact F | exact W].
  - destruct (handle_LocationAnswer place clock w) as (w' & E & L & S & C & _ & P & _).
    rewrite E. cbn [fst]. rewrite L. split; [|exact W].
    exact (FormOk_same _ _ C S P F).
  - rewrite handle_ClickPause. destruct (isRecording (state w)); [|split; assumption].
    destruct (pauseRecording_effect w) as (L & S & C & _ & P). unfold after in *.
    rewrite L. split; [|exact W]. exact (FormOk_same _ _ C S P F).
  - rewrite handle_ClickReset. destruct (isRecording (state w)); [split; assumption|].
    destruct (resetRecording_effect w) as (w' & E & L & S).
    rewrite E. cbn [fst]. rewrite S, L. split; [exact F0 | exact W].
  - rewrite handle_ClickSave. destruct (saveDisabled (state w)) eqn:D; [split; assumption|].
    destruct (saveDisabled_false _ D) as (B & C & _).
    destruct (saveIncident_accepts clock w B C) as (w' & E & L & _ & _ & S).
    rewrite E. cbn [fst]. rewrite S, L. split; [exact F0|].
    apply Forall_app. split; [exact W|].
    constructor; [|constructor]. now apply built_wellformed.
  - split; [|exact W]. exact F.
  - split; [|exact W]. destruct F as (_ & S & D & I). unfold FormOk. cbn.
    repeat split; try assumption; try lia. right. exact V.
  - split; [|exact W]. destruct F as (C & _ & D & I). unfold FormOk. cbn.
    cbn in V. unfold sliderValues in V.
    repeat split; try assumption;
      repeat (destruct V as [<-|V]; [lia|]); destruct V.
  - unfold handle, bind, get, when. cbn [fst snd].
    match goal with |- context [if ?c then _ else _] =>
      change c with (existsb (String.eqb person) commonPeople) end.
    destruct (existsb (String.eqb person) commonPeople) eqn:X;
      cbn; (split; [|exact W]); [|exact F].
    destruct F as (C & S & D & I). unfold FormOk. cbn.
    repeat split; try assumption; try lia.
    + apply togglePerson_keeps_distinct, D.
    + exact (togglePerson_within _ _ _ (existsb_eqb_In _ _ X) I).
  - split; [|exact W]. exact F.
  - unfold handle, bind, get. cbn [fst snd].
    destruct (recognitionRef w); cbn; split; assumption.
  - unfold handle, bind, get. cbn [fst snd].
    destruct (recognitionRef w); cbn; split; assumption.
  - unfold handle, bind, get, when. cbn [fst snd].
    match goal with |- context [if ?c then _ else _] => destruct c end;
      cbn; split; assumption.
Qed.

(** X4. On a page opened on a store of well-formed incidents, whatever is
    done on the page and in whatever order its events arrive, the Slider and
    the Select handing over values of their own: every stored incident stays
    well-formed, with a transcript that is not empty and has no white space
    around it, a category of the list, a severity from 1 to 5, and people
    of the suggested list without repetition. *)
Theorem form_stores_well_formed_incidents
        (events : list Event) (speech : bool) (ls : LocalStorage) :
  Forall fromTheForm events ->
  Forall WellFormed (getIncidents ls) ->
  Forall WellFormed (getIncidents (localStorage (run events (initialWorld speech ls)))).
Proof.
  intros V W.
  assert (G : forall evs w,
             Forall fromTheForm evs ->
             FormOk (state w) /\ Forall WellFormed (getIncidents (localStorage w)) ->
             FormOk (state (run evs w))
             /\ Forall WellFormed (getIncidents (localStorage (run evs w)))).
  { induction evs as [|e evs IH]; intros w Ve H; simpl; [exact H|].
    inversion Ve as [|? ? V1 V2]; subst.
    apply IH; [exact V2|]. apply handle_keeps_wellformed; assumption. }
  apply G; [exact V|]. split; [|exact W].
  unfold FormOk, initialWorld. simpl. repeat split; try lia; auto.
  - constructor.
  - intros x [].
Qed.

(** A form filled in, with one person pressed three times, and saved. *)
Lemma form_stores_example :
  let events := [EditTranscript " hid under the desk "; SelectCategory "Sensory Overload";
                 SlideSeverity 2; ClickPerson "Teacher"; ClickPerson "Child";
                 ClickPerson "Teacher"; ClickPerson "Teacher";
                 ClickSave (mkClock 1704103200000 "2024-01-01T10:00:00.000Z")] in
  Forall fromTheForm events
  /\ Forall WellFormed (getIncidents emptyStorage)
  /\ getIncidents (localStorage (run events (initialWorld true emptyStorage)))
     = [Incident.mk "1704103200000" "2024-01-01T10:00:00.000Z" "Sensory Overload" 2
                    (Some "") "hid under the desk" ["Child"; "Teacher"]]
  /\ Forall WellFormed
            (getIncidents (localStorage (run events (initialWorld true emptyStorage)))).
Proof.
  intros events.
  assert (V : Forall fromTheForm events).
  { constructor; [exact I|]. constructor; [cbn; auto 10|].
    constructor; [cbn; auto 10|]. repeat (constructor; [exact I|]). constructor. }
  assert (W : Forall WellFormed (getIncidents emptyStorage)) by constructor.
  split; [exact V|]. split; [exact W|]. split; [reflexivity|].
  exact (form_stores_well_formed_incidents events true emptyStorage V W).
Defined.


(** *** Reset, and the settings that are not read *)

(** X5. From any state, [resetRecording] completes and leaves the form as
    on a fresh page and the elapsed time at 0; the stream of the current
    recorder is closed, the current timer is cleared and the storage is
    untouched.  A second reset changes nothing of this. *)
Theorem reset_clears_the_session_from_any_state (w : World) :
  let a := after resetRecording w in
  let b := after resetRecording a in
  snd (resetRecording w) = Normal tt
  /\ state a = initialState
  /\ recordingTime a = 0
  /\ localStorage a = localStorage w
  /\ (forall r, mediaRecorderRef w = Some r -> ~ In (stream r) (openStreams a))
  /\ (forall t, timerRef w = Some t -> ~ In t (activeIntervals a))
  /\ (state b = state a /\ recordingTime b = recordingTime a
      /\ openStreams b = openStreams a /\ activeIntervals b = activeIntervals a
      /\ localStorage b = localStorage a).
Proof.
  assert (F : forall (n : nat) (l : list nat),
             filter (fun x => negb (x =? n)%nat)
                    (filter (fun x => negb (x =? n)%nat) l)
             = filter (fun x => negb (x =? n)%nat) l).
  { intros n l. induction l as [|x l IH]; simpl; [reflexivity|].
    destruct (negb (x =? n)%nat) eqn:E; simpl; rewrite ?E, IH; reflexivity. }
  assert (G : forall (n : nat) (l : list nat),
             ~ In n (filter (fun x => negb (x =? n)%nat) l)).
  { intros n l H. apply filter_In in H. destruct H as [_ H].
    now rewrite Nat.eqb_refl in H. }
  destruct w as [[rec pau tra cat sev peo loc tim] rt il mr rr tr os ai fr s0 ts am al].
  destruct mr as [[s rs]|]; destruct rr as [[|]|]; destruct tr as [t|];
    unfold after, resetRecording, stopRecording, bind, get, recorderStop,
      stopTracks, stopListening, recognitionStop, clearInterval, setState, toast,
      modify, ret; simpl; rewrite ?F;
    repeat split; try reflexivity;
    try (intros r E; injection E as <-; simpl; apply G);
    try (intros r E; injection E as <-; apply G);
    try (intros r E; discriminate E).
Qed.

(** X6. [startRecording] does not read the storage: with any change made to
    it beforehand (a settings object saved with location tracking or voice
    recognition switched off, say) it does the same, and with the microphone
    granted the location and the time of the start are put on the form. *)
Theorem start_does_not_read_the_settings
        (env : StartEnv) (w : World) (change : LocalStorage -> LocalStorage) :
  after (startRecording env) (set_localStorage change w)
  = set_localStorage change (after (startRecording env) w)
  /\ (micGranted env = true ->
      location (state (after (startRecording env) w)) = currentLocation env
      /\ timestamp (state (after (startRecording env) w)) = nowISO (startClock env)).
Proof.
  destruct w as [[rec pau tra cat sev peo loc tim] rt il mr rr tr os ai fr s0 ts am al].
  destruct env as [granted place clock].
  destruct granted; destruct rr as [[|]|];
    (split; [vm_compute; reflexivity|]); intros G; try discriminate G;
    split; vm_compute; reflexivity.
Qed.

End MoreVoiceFacts.


(** ** What the recording page displays *)

Section DisplayFacts.

Lemma formatTime_checked :
  forallb (fun m => forallb (formatTimeChecks m) (seq 0 60)) (seq 0 100) = true.
Proof. vm_compute. reflexivity. Qed.

(** X7. Below 100 minutes, the elapsed time is shown as five characters,
    two digits of minutes, a colon, two digits of seconds, from which the
    minutes and the seconds are read back. *)
Theorem formatTime_shows_minutes_and_seconds (seconds : Z) :
  0 <= seconds < 6000 ->
  let text := VoiceRecordingDisplay.formatTime seconds in
  String.length text = 5%nat
  /\ substring 2 1 text = ":"
  /\ Number (substring 0 2 text) = Some (seconds / 60)
  /\ Number (substring 3 2 text) = Some (seconds mod 60).
Proof.
  intros R text.
  pose proof formatTime_checked as H. rewrite forallb_forall in H.
  assert (Q : 0 <= seconds / 60 < 100).
  { split; [apply Z.div_pos; lia | apply Z.div_lt_upper_bound; lia]. }
  assert (M : 0 <= seconds mod 60 < 60) by (apply Z.mod_pos_bound; lia).
  specialize (H (Z.to_nat (seconds / 60))).
  assert (I : In (Z.to_nat (seconds / 60)) (seq 0 100)) by (apply in_seq; lia).
  specialize (H I). rewrite forallb_forall in H.
  specialize (H (Z.to_nat (seconds mod 60))).
  assert (J : In (Z.to_nat (seconds mod 60)) (seq 0 60)) by (apply in_seq; lia).
  specialize (H J). unfold formatTimeChecks in H.
  rewrite !Z2Nat.id in H by lia.
  replace (seconds / 60 * 60 + seconds mod 60) with seconds in H
    by (rewrite (Z.div_mod seconds 60) at 1; lia).
  fold text in H.
  apply andb_prop in H. destruct H as [H N].
  apply andb_prop in H. destruct H as [L C].
  apply Nat.eqb_eq in L. apply String.eqb_eq in C.
  destruct (Number (substring 0 2 text)) as [m|]; [|discriminate].
  destruct (Number (substring 3 2 text)) as [s|]; [|discriminate].
  apply andb_prop in N. destruct N as [Em Es].
  apply Z.eqb_eq in Em, Es. subst. auto.
Qed.

(** An hour and a bit. *)
Lemma formatTime_example :
  0 <= 3723 < 6000
  /\ VoiceRecordingDisplay.formatTime 3723 = "62:03"
  /\ String.length (VoiceRecordingDisplay.formatTime 3723) = 5%nat.
Proof.
  assert (R : 0 <= 3723 < 6000) by lia.
  split; [exact R|]. split; [reflexivity|].
  exact (proj1 (formatTime_shows_minutes_and_seconds 3723 R)).
Defined.

End DisplayFacts.

(** ** IncidentTimeline: more on the view, deletion and the exports *)

(** Membership in a list of placed texts, item by item; the result of an
    entry that was placed. *)
Ltac item_cases H :=
  repeat (apply in_app_or in H; destruct H as [H|H]);
  try (destruct H as [<-|[]]; simpl in *; first [discriminate | split; lia]).

Ltac entry_result E doc' y' :=
  let D := fresh "D" in
  let Y := fresh "Y" in
  pose proof (f_equal (fun o => match o with
                                | Some (d, _) => d
                                | None => doc'
                                end) E) as D;
  pose proof (f_equal (fun o => match o with
                                | Some (_, z) => z
                                | None => y'
                                end) E) as Y;
  cbv beta iota in D, Y; clear E; subst doc' y'.

Section MoreTimelineFacts.
Import IncidentTimeline.
Context {dates : Dates} {metrics : TextMetrics}.

(** Membership in the view needs no valid timestamp. *)
Lemma view_members (incidents : list Incident.t) (term categoryFilter : string)
      (band : SeverityBand) (order : SortOrder) (i : Incident.t) :
  In i (filterIncidents incidents term categoryFilter (bandValue band) order)
  <-> In i incidents /\ Selected term categoryFilter band i.
Proof.
  rewrite filterIncidents_selection, <- selected_spec, <- filter_In.
  split; apply Permutation_in;
    [apply Permutation_sym |]; apply sort_permutation.
Qed.


(** X9. With no search term and both selectors on "all", the view is the
    store in another order: nothing is lost and nothing is repeated.  With
    any filters, the view holds incidents of the store only and is no longer
    than the store. *)
Theorem unfiltered_view_is_the_store_reordered
        (incidents : list Incident.t) (term categoryFilter : string)
        (band : SeverityBand) (order : SortOrder) :
  Permutation incidents (filterIncidents incidents "" "all" "all" order)
  /\ incl (filterIncidents incidents term categoryFilter (bandValue band) order)
          incidents
  /\ (length (filterIncidents incidents term categoryFilter (bandValue band) order)
      <= length incidents)%nat.
Proof.
  split; [|split].
  - change "all" with (bandValue AllSeverities) at 2.
    rewrite filterIncidents_selection.
    replace (filter (selected "" "all" AllSeverities) incidents) with incidents.
    + apply sort_permutation.
    + symmetry. rewrite <- (filter_true incidents) at 2.
      apply filter_ext. intros i. reflexivity.
  - intros i I. apply view_members in I. tauto.
  - rewrite filterIncidents_selection.
    rewrite <- (Permutation_length
                  (sort_permutation (compareFn order)
                     (filter (selected term categoryFilter band) incidents))).
    apply filter_length_le.
Qed.

(** *** The selector of categories *)



(** *** Deleting *)

Lemma filter_keeps_all {A : Type} (keep : A -> bool) (l : list A) :
  (forall x, In x l -> keep x = true) -> filter keep l = l.
Proof.
  induction l as [|x l IH]; intros H; simpl; [reflexivity|].
  rewrite (H x (or_introl eq_refl)), IH; [reflexivity|].
  intros y I. apply H. right. exact I.
Qed.

(** X11. With pairwise distinct ids in the list, deleting a listed incident
    removes that incident and no other: the list is one shorter, the others
    stay in their order, and the storage holds the new list with its other
    keys untouched. *)
Theorem delete_removes_exactly_that_incident
        (i : Incident.t) (incidents : list Incident.t) (ls : LocalStorage) :
  NoDup (map Incident.id incidents) ->
  In i incidents ->
  let '(kept, ls') := deleteIncident (Incident.id i) incidents ls in
  ~ In i kept
  /\ (forall j, In j incidents -> j <> i -> In j kept)
  /\ S (length kept) = length incidents
  /\ (exists before after,
        incidents = (before ++ i :: after)%list /\ kept = (before ++ after)%list)
  /\ getIncidents ls' = kept
  /\ childfirst_settings ls' = childfirst_settings ls
  /\ childfirst_last_backup ls' = childfirst_last_backup ls.
Proof.
  intros D I. unfold deleteIncident.
  set (keep := fun incident => negb (String.eqb (Incident.id incident) (Incident.id i))).
  assert (X : exists before after,
             incidents = (before ++ i :: after)%list
             /\ filter keep incidents = (before ++ after)%list).
  { apply in_split in I. destruct I as (before & after & ->).
    exists before, after. split; [reflexivity|].
    rewrite map_app in D. simpl in D.
    assert (Nb : forall x, In x before -> keep x = true).
    { intros x Ix. unfold keep. apply negb_true_iff, String.eqb_neq. intros E.
      apply NoDup_remove_2 in D. apply D, in_or_app. left.
      rewrite <- E. now apply in_map. }
    assert (Na : forall x, In x after -> keep x = true).
    { intros x Ix. unfold keep. apply negb_true_iff, String.eqb_neq. intros E.
      apply NoDup_remove_2 in D. apply D, in_or_app. right.
      rewrite <- E. now apply in_map. }
    rewrite filter_app. simpl. unfold keep at 2. rewrite String.eqb_refl. simpl.
    now rewrite (filter_keeps_all keep before Nb), (filter_keeps_all keep after Na). }
  destruct X as (before & after & E1 & E2).
  split; [|split; [|split; [|split]]].
  - intros H. apply filter_In in H. destruct H as [_ H]. unfold keep in H.
    now rewrite String.eqb_refl in H.
  - intros j J N. rewrite E2. rewrite E1 in J.
    apply in_app_or in J. apply in_or_app.
    destruct J as [J|[J|J]]; [left; exact J | congruence | right; exact J].
  - rewrite E2, E1, !length_app. simpl. lia.
  - exists before, after. split; assumption.
  - repeat split.
Qed.

(** Deleting the first of the two incidents of scenario A. *)
Lemma delete_example :
  NoDup (map Incident.id [scenarioA1; scenarioA2])
  /\ In scenarioA1 [scenarioA1; scenarioA2]
  /\ fst (deleteIncident (Incident.id scenarioA1) [scenarioA1; scenarioA2]
                         emptyStorage) = [scenarioA2]
  /\ ~ In scenarioA1 (fst (deleteIncident (Incident.id scenarioA1)
                                          [scenarioA1; scenarioA2] emptyStorage)).
Proof.
  assert (D : NoDup (map Incident.id [scenarioA1; scenarioA2])).
  { apply distinct_NoDup. reflexivity. }
  assert (I : In scenarioA1 [scenarioA1; scenarioA2]) by (left; reflexivity).
  split; [exact D|]. split; [exact I|]. split; [reflexivity|].
  pose proof (delete_removes_exactly_that_incident
                scenarioA1 [scenarioA1; scenarioA2] emptyStorage D I) as H.
  exact (proj1 H).
Defined.

(** X12. Deleting an id that no listed incident has leaves the list as it
    is, and writes that same list to the storage. *)
Theorem delete_of_an_absent_id_changes_nothing
        (id : string) (incidents : list Incident.t) (ls : LocalStorage) :
  ~ In id (map Incident.id incidents) ->
  fst (deleteIncident id incidents ls) = incidents
  /\ getIncidents (snd (deleteIncident id incidents ls)) = incidents.
Proof.
  intros N. unfold deleteIncident. simpl.
  assert (F : filter (fun incident => negb (String.eqb (Incident.id incident) id))
                     incidents = incidents).
  { apply filter_keeps_all. intros x I.
    apply negb_true_iff, String.eqb_neq. intros E.
    apply N. rewrite <- E. now apply in_map. }
  rewrite F. split; reflexivity.
Qed.

Lemma delete_absent_example :
  ~ In "17" (map Incident.id [scenarioA1; scenarioA2])
  /\ fst (deleteIncident "17" [scenarioA1; scenarioA2] emptyStorage)
     = [scenarioA1; scenarioA2].
Proof.
  assert (N : ~ In "17" (map Incident.id [scenarioA1; scenarioA2])).
  { simpl. intros [H|[H|[]]]; discriminate H. }
  split; [exact N|].
  exact (proj1 (delete_of_an_absent_id_changes_nothing
                  "17" [scenarioA1; scenarioA2] emptyStorage N)).
Defined.

(** *** Reading the tabular export back *)

Lemma readQuotedBody_doubled (t rest : string) :
  rest = "" \/ (exists c r, rest = String c r /\ c <> dquote) ->
  readQuotedBody (doubleQuotes t ++ String dquote rest) = Some (t, rest).
Proof.
  intros R. induction t as [|c t IH].
  - cbn [doubleQuotes append readQuotedBody]. rewrite Ascii.eqb_refl.
    destruct R as [->|(d & r & -> & N)]; [reflexivity|].
    apply Ascii.eqb_neq in N. now rewrite N.
  - cbn [doubleQuotes]. destruct (Ascii.eqb c dquote) eqn:E.
    + cbn [append readQuotedBody]. rewrite E, IH.
      apply Ascii.eqb_eq in E. subst c. reflexivity.
    + cbn [append readQuotedBody]. rewrite E, IH. reflexivity.
Qed.

(** X13. The transcript field of the tabular export reads back: from the
    quoted field, followed by the end of the file or by anything but a double
    quote, a reader that takes a doubled double quote for one and a single
    one for the end recovers the transcript and the rest, whatever commas,
    double quotes or line feeds the transcript holds. *)
Theorem quoted_transcript_reads_back (transcript rest : string) :
  rest = "" \/ (exists c r, rest = String c r /\ c <> dquote) ->
  readQuoted (quoted transcript ++ rest) = Some (transcript, rest).
Proof.
  intros R. unfold quoted, readQuoted.
  cbn [append]. rewrite Ascii.eqb_refl.
  rewrite append_assoc_string. cbn [append].
  apply readQuotedBody_doubled, R.
Qed.

(** A transcript with a comma, a line feed and a quoted word, in a row that
    is followed by another. *)
Lemma quoted_transcript_example :
  let transcript :=
    "He said " ++ String dquote ("no" ++ String dquote (", then" ++ String lineFeed "left")) in
  let rest := String lineFeed "2024-01-02 10:00:00,Meltdown,5,,Child," in
  (rest = "" \/ (exists c r, rest = String c r /\ c <> dquote))
  /\ readQuoted (quoted transcript ++ rest) = Some (transcript, rest).
Proof.
  intros transcript rest.
  assert (R : rest = "" \/ (exists c r, rest = String c r /\ c <> dquote)).
  { right. eexists. eexists. split; [reflexivity | discriminate]. }
  split; [exact R|].
  exact (quoted_transcript_reads_back transcript rest R).
Defined.

(** *** Where the entries of the reports start *)

Lemma pdfEntry_headings (doc doc' : JsPDF.Doc) (y y' : Z) (index : nat)
      (i : Incident.t) :
  pdfEntry (doc, y) index i = Some (doc', y') ->
  HeadingsInPage 14 doc -> 20 <= y ->
  HeadingsInPage 14 doc' /\ 20 <= y'
  /\ (JsPDF.currentPage doc' <= S (JsPDF.currentPage doc))%nat.
Proof.
  unfold pdfEntry, HeadingsInPage. intros E P Y.
  destruct (250 <? y) eqn:Over;
    [|apply Z.ltb_ge in Over];
    (destruct (format (parseISO (Incident.timestamp i)) "PPpp") as [date|];
     [|discriminate E]);
    destruct (truthy (orEmpty (Incident.location i)));
    destruct (0 <? length (Incident.peopleInvolved i))%nat;
    cbn -[Z.add Z.mul] in E; entry_result E doc' y'; cbn -[Z.add Z.mul];
    (split; [intros item H S; item_cases H; auto | split; lia]).
Qed.

Lemma courtEntry_headings (doc doc' : JsPDF.Doc) (y y' : Z) (index : nat)
      (i : Incident.t) :
  LegalTools.courtEntry (doc, y) index i = Some (doc', y') ->
  HeadingsInPage 11 doc -> 20 <= y ->
  HeadingsInPage 11 doc' /\ 20 <= y'
  /\ (JsPDF.currentPage doc' <= S (JsPDF.currentPage doc))%nat.
Proof.
  unfold LegalTools.courtEntry, HeadingsInPage. intros E P Y.
  destruct (250 <? y) eqn:Over;
    [|apply Z.ltb_ge in Over];
    (destruct (format (parseISO (Incident.timestamp i)) "PPpp") as [date|];
     [|discriminate E]);
    destruct (truthy (orEmpty (Incident.location i)));
    destruct (0 <? length (Incident.peopleInvolved i))%nat;
    cbn -[Z.add Z.mul] in E; entry_result E doc' y'; cbn -[Z.add Z.mul];
    (split; [intros item H S; item_cases H; auto | split; lia]).
Qed.

Lemma forEachFrom_headings (n : Z)
      (body : JsPDF.Doc * Z -> nat -> Incident.t -> option (JsPDF.Doc * Z)) :
  (forall doc doc' y y' index i,
      body (doc, y) index i = Some (doc', y') ->
      HeadingsInPage n doc -> 20 <= y ->
      HeadingsInPage n doc' /\ 20 <= y'
      /\ (JsPDF.currentPage doc' <= S (JsPDF.currentPage doc))%nat) ->
  forall (l : list Incident.t) (k : nat) (doc doc' : JsPDF.Doc) (y y' : Z),
    forEachFrom body k l (doc, y) = Some (doc', y') ->
    HeadingsInPage n doc -> 20 <= y ->
    HeadingsInPage n doc' /\ 20 <= y'
    /\ (JsPDF.currentPage doc' <= JsPDF.currentPage doc + length l)%nat.
Proof.
  intros B l. induction l as [|i l IH]; intros k doc doc' y y' E P Y; simpl in E.
  - injection E as <- <-. simpl. split; [assumption | split; [assumption | lia]].
  - destruct (body (doc, y) k i) as [[doc1 y1]|] eqn:E1; [|discriminate].
    destruct (B _ _ _ _ _ _ E1 P Y) as (P1 & Y1 & C1).
    destruct (IH _ _ _ _ _ E P1 Y1) as (P2 & Y2 & C2).
    simpl. split; [assumption | split; [assumption | lia]].
Qed.

(** Where one entry goes: its heading follows what the document had, on a
    new page at the line 20 when the entry is reached below the line 250 and
    at the line reached otherwise, and the rest of the entry follows the
    heading on its page. *)
Lemma pdfEntry_page (doc doc' : JsPDF.Doc) (y y' : Z) (index : nat)
      (i : Incident.t) :
  pdfEntry (doc, y) index i = Some (doc', y') ->
  exists heading rest,
    JsPDF.items doc' = (JsPDF.items doc ++ heading :: rest)%list
    /\ JsPDF.size heading = 14
    /\ Forall (fun item => JsPDF.size item <> 14
                           /\ JsPDF.page item = JsPDF.page heading) rest
    /\ JsPDF.currentPage doc' = JsPDF.page heading
    /\ (if 250 <? y
        then JsPDF.page heading = S (JsPDF.currentPage doc) /\ JsPDF.y heading = 20
        else JsPDF.page heading = JsPDF.currentPage doc /\ JsPDF.y heading = y).
Proof.
  unfold pdfEntry. intros E.
  destruct (250 <? y) eqn:Over;
    (destruct (format (parseISO (Incident.timestamp i)) "PPpp") as [date|];
     [|discriminate E]);
    destruct (truthy (orEmpty (Incident.location i)));
    destruct (0 <? length (Incident.peopleInvolved i))%nat;
    cbn -[Z.add Z.mul] in E; entry_result E doc' y'; cbn -[Z.add Z.mul];
    repeat rewrite <- app_assoc; cbn [app];
    eexists; eexists; (split; [reflexivity|]);
    cbn -[Z.add Z.mul];
    (split; [reflexivity|]);
    (split; [repeat (constructor; [split; [discriminate | reflexivity]|]);
             constructor|]);
    split; try split; reflexivity.
Qed.

(** X14. In a timeline report that is produced, every entry starts in the
    page: its heading is at the left margin, not above the top line 20 and
    not below the line 250; and the report has at most one page more than it
    has incidents.  An entry reached below the line 250 is moved to a new
    page: its heading opens the next page at the line 20 and the rest of
    the entry follows it there, while an entry reached at the line 250 or
    above it stays on the page, its heading at the line reached. *)
Theorem timeline_entries_start_within_the_page
        (jsPDFLoads : bool) (today : Date) (view : list Incident.t)
        (file : Download JsPDF.Doc) (shown : Toast) :
  exportToPDF jsPDFLoads today view = (Some file, shown) ->
  HeadingsInPage 14 (content file)
  /\ (JsPDF.currentPage (content file) <= 1 + length view)%nat
  /\ (forall doc y index i doc' y',
        pdfEntry (doc, y) index i = Some (doc', y') ->
        exists heading rest,
          JsPDF.items doc' = (JsPDF.items doc ++ heading :: rest)%list
          /\ JsPDF.size heading = 14
          /\ Forall (fun item => JsPDF.size item <> 14
                                 /\ JsPDF.page item = JsPDF.page heading) rest
          /\ JsPDF.currentPage doc' = JsPDF.page heading
          /\ (250 < y -> JsPDF.page heading = S (JsPDF.currentPage doc)
                         /\ JsPDF.y heading = 20)
          /\ (y <= 250 -> JsPDF.page heading = JsPDF.currentPage doc
                          /\ JsPDF.y heading = y)).
Proof.
  unfold exportToPDF. intros E.
  destruct jsPDFLoads; [|discriminate].
  destruct (format today "PPP") as [generated|]; [|discriminate].
  match type of E with
  | context [forEach pdfEntry view (?d, ?y)] =>
      destruct (forEach pdfEntry view (d, y)) as [[doc1 y1]|] eqn:F;
        [|discriminate];
      assert (P0 : HeadingsInPage 14 d)
        by (intros item H S; simpl in H;
            repeat (destruct H as [<-|H]; [discriminate S|]); destruct H);
      destruct (forEachFrom_headings 14 pdfEntry pdfEntry_headings view 0%nat
                  d doc1 y y1 F P0 ltac:(lia)) as (P1 & _ & C1)
  end.
  injection E as <- _. simpl in *. split; [exact P1 |]. split; [exact C1 |].
  intros doc y index i doc' y' B.
  destruct (pdfEntry_page doc doc' y y' index i B)
    as (heading & rest & I & S & R & C & P).
  exists heading, rest. repeat (split; [assumption|]).
  destruct (250 <? y) eqn:Over;
    [apply Z.ltb_lt in Over | apply Z.ltb_ge in Over];
    split; intros Q; first [exact P | lia].
Qed.

End MoreTimelineFacts.

Section ReportPlacementExamples.
Existing Instance UtcHost.dates.
Existing Instance UtcHost.metrics.


(** The twelve incidents take three pages. *)
Lemma timeline_entries_example :
  let today : @Date UtcHost.dates := UtcHost.parse "2024-03-01T09:30:00.000Z" in
  exists file,
    IncidentTimeline.exportToPDF true today twelveIncidents
    = (Some file, IncidentTimeline.exportSuccessfulPDF)
    /\ HeadingsInPage 14 (content file)
    /\ JsPDF.currentPage (content file) = 3%nat
    /\ map (fun item => (Z.of_nat (JsPDF.page item), JsPDF.y item))
           (filter (fun item => JsPDF.size item =? 14) (JsPDF.items (content file)))
       = [(1, 60); (1, 101); (1, 142); (1, 183); (1, 224);
          (2, 20); (2, 61); (2, 102); (2, 143); (2, 184); (2, 225);
          (3, 20)].
Proof.
  intros today.
  destruct (IncidentTimeline.exportToPDF true today twelveIncidents)
    as [result shown] eqn:E.
  pose proof E as V. vm_compute in V.
  destruct result as [file|]; [|discriminate V].
  assert (S : shown = IncidentTimeline.exportSuccessfulPDF)
    by (injection V as _ <-; reflexivity).
  subst shown. exists file. split; [reflexivity|].
  split.
  - exact (proj1 (@timeline_entries_start_within_the_page
                    UtcHost.dates UtcHost.metrics true today twelveIncidents
                    file IncidentTimeline.exportSuccessfulPDF E)).
  - injection V as <-. split; reflexivity.
Defined.

End ReportPlacementExamples.
(** ** LegalTools: more on the court report *)

Section PlacementFacts.

Lemma headings_textLines (n : Z) (ls : list string) (px py : Z) (doc : JsPDF.Doc) :
  JsPDF.fontSize doc <> n \/ (px = 20 /\ 20 <= py <= 250) ->
  HeadingsInPage n doc -> HeadingsInPage n (JsPDF.textLines ls px py doc).
Proof.
  intros C P item H S. cbn [JsPDF.textLines JsPDF.items] in H.
  apply in_app_or in H. destruct H as [H|[<-|[]]]; [exact (P item H S)|].
  cbn [JsPDF.size JsPDF.x JsPDF.y] in *. destruct C as [C|C]; [contradiction | exact C].
Qed.

Lemma headings_text (n : Z) (s : string) (px py : Z) (doc : JsPDF.Doc) :
  JsPDF.fontSize doc <> n \/ (px = 20 /\ 20 <= py <= 250) ->
  HeadingsInPage n doc -> HeadingsInPage n (JsPDF.text s px py doc).
Proof.
  apply headings_textLines.
Qed.

Lemma headings_setFontSize (n k : Z) (doc : JsPDF.Doc) :
  HeadingsInPage n doc -> HeadingsInPage n (JsPDF.setFontSize k doc).
Proof.
  intros P. exact P.
Qed.

Lemma headings_addPage (n : Z) (doc : JsPDF.Doc) :
  HeadingsInPage n doc -> HeadingsInPage n (JsPDF.addPage doc).
Proof.
  intros P. exact P.
Qed.

Lemma headings_new (n : Z) : HeadingsInPage n JsPDF.new.
Proof.
  intros item [].
Qed.

Lemma fontSize_text (s : string) (px py : Z) (doc : JsPDF.Doc) :
  JsPDF.fontSize (JsPDF.text s px py doc) = JsPDF.fontSize doc.
Proof. reflexivity. Qed.

Lemma fontSize_textLines (ls : list string) (px py : Z) (doc : JsPDF.Doc) :
  JsPDF.fontSize (JsPDF.textLines ls px py doc) = JsPDF.fontSize doc.
Proof. reflexivity. Qed.

Lemma fontSize_setFontSize (k : Z) (doc : JsPDF.Doc) :
  JsPDF.fontSize (JsPDF.setFontSize k doc) = k.
Proof. reflexivity. Qed.

Lemma fontSize_addPage (doc : JsPDF.Doc) :
  JsPDF.fontSize (JsPDF.addPage doc) = JsPDF.fontSize doc.
Proof. reflexivity. Qed.

Lemma currentPage_text (s : string) (px py : Z) (doc : JsPDF.Doc) :
  JsPDF.currentPage (JsPDF.text s px py doc) = JsPDF.currentPage doc.
Proof. reflexivity. Qed.

Lemma currentPage_textLines (ls : list string) (px py : Z) (doc : JsPDF.Doc) :
  JsPDF.currentPage (JsPDF.textLines ls px py doc) = JsPDF.currentPage doc.
Proof. reflexivity. Qed.

Lemma currentPage_setFontSize (k : Z) (doc : JsPDF.Doc) :
  JsPDF.currentPage (JsPDF.setFontSize k doc) = JsPDF.currentPage doc.
Proof. reflexivity. Qed.

Lemma currentPage_addPage (doc : JsPDF.Doc) :
  JsPDF.currentPage (JsPDF.addPage doc) = S (JsPDF.currentPage doc).
Proof. reflexivity. Qed.

End PlacementFacts.

(** A text that is no heading, placed on a document whose headings are in the
    page. *)
Ltac font_size :=
  repeat first [ rewrite fontSize_text | rewrite fontSize_textLines
               | rewrite fontSize_addPage | rewrite fontSize_setFontSize ].

Ltac pages_in H :=
  repeat first [ rewrite currentPage_text in H
               | rewrite currentPage_textLines in H
               | rewrite currentPage_setFontSize in H
               | rewrite currentPage_addPage in H ].

Ltac pages :=
  repeat first [ rewrite currentPage_text | rewrite currentPage_textLines
               | rewrite currentPage_setFontSize | rewrite currentPage_addPage ].

Ltac plain_texts :=
  repeat match goal with
         | |- HeadingsInPage _ (JsPDF.setFontSize _ _) =>
             apply headings_setFontSize
         | |- HeadingsInPage _ (JsPDF.addPage _) => apply headings_addPage
         | |- HeadingsInPage _ JsPDF.new => apply headings_new
         | |- HeadingsInPage _ (JsPDF.text _ _ _ _) =>
             apply headings_text; [left; font_size; discriminate|]
         | |- HeadingsInPage _ (JsPDF.textLines _ _ _ _) =>
             apply headings_textLines; [left; font_size; discriminate|]
         end.

Section LegalFacts.
Context {dates : Dates} {metrics : TextMetrics}.
Import LegalTools.

Lemma generateCourtReport_document (reportData : ReportData) (jsPDFLoads : bool)
      (today : Date) (ls : LocalStorage) (file : Download JsPDF.Doc)
      (shown : Toast) :
  generateCourtReport reportData jsPDFLoads today ls = (Some file, shown) ->
  getIncidents ls <> []
  /\ courtDocument reportData today (getIncidents ls) = Some file.
Proof.
  unfold generateCourtReport. intros E.
  destruct (getIncidents ls) as [|i l]; [discriminate E|].
  split; [discriminate|].
  cbn [length Nat.eqb] in E. destruct jsPDFLoads; [|discriminate E].
  destruct (courtDocument reportData today (i :: l)); [|discriminate E].
  injection E as <- _. reflexivity.
Qed.

(** X15. In a court report that is produced, every detailed entry starts in
    the page: its heading is at the left margin between the lines 20 and
    250; and the report has at most twelve pages, one for the front matter,
    at most one opened by each of the ten entries and one by the notes. *)
Theorem court_entries_start_within_the_page
        (reportData : ReportData) (jsPDFLoads : bool) (today : Date)
        (ls : LocalStorage) (file : Download JsPDF.Doc) (shown : Toast) :
  generateCourtReport reportData jsPDFLoads today ls = (Some file, shown) ->
  HeadingsInPage 11 (content file)
  /\ (JsPDF.currentPage (content file) <= 12)%nat.
Proof.
  intros E. apply generateCourtReport_document in E. destruct E as [_ E].
  unfold courtDocument in E.
  destruct (format today "PPP") as [generated|]; [|discriminate].
  match type of E with
  | context [forEach courtEntry ?l (?d, ?y)] =>
      destruct (forEach courtEntry l (d, y)) as [[doc1 y1]|] eqn:F;
        [|discriminate];
      assert (P0 : HeadingsInPage 11 d) by plain_texts;
      destruct (forEachFrom_headings 11 courtEntry courtEntry_headings l 0%nat
                  d doc1 y y1 F P0 ltac:(lia)) as (P1 & _ & C1);
      pose proof (firstn_le_length 10 (getIncidents ls)) as L
  end.
  clear F P0. pages_in C1.
  destruct (format today "yyyy-MM-dd") as [day|]; [|discriminate].
  injection E as <-. cbn [content].
  assert (N : (length (firstn 10 (getIncidents ls)) <= 10)%nat)
    by (rewrite length_firstn; apply Nat.le_min_l).
  change (JsPDF.currentPage JsPDF.new) with 1%nat in C1.
  destruct (truthy (additionalNotes reportData)); [destruct (200 <? y1)|].
  all: split; [plain_texts; exact P1 | pages; lia].
Qed.

End LegalFacts.

Section CourtReportExamples.
Existing Instance UtcHost.dates.
Existing Instance UtcHost.metrics.

(** The court report on the twelve incidents. *)
Lemma court_entries_example :
  let today : @Date UtcHost.dates := UtcHost.parse "2024-03-01T09:30:00.000Z" in
  let ls := mkStorage (Some twelveIncidents) None None in
  exists file,
    LegalTools.generateCourtReport blankReport true today ls
    = (Some file, LegalTools.reportGenerated)
    /\ HeadingsInPage 11 (content file)
    /\ (JsPDF.currentPage (content file) <= 12)%nat.
Proof.
  intros today ls.
  destruct (LegalTools.generateCourtReport blankReport true today ls)
    as [result shown] eqn:E.
  pose proof E as V. vm_compute in V.
  destruct result as [file|]; [|discriminate V].
  assert (S : shown = LegalTools.reportGenerated)
    by (injection V as _ <-; reflexivity).
  subst shown. exists file. split; [reflexivity|].
  exact (@court_entries_start_within_the_page
           UtcHost.dates UtcHost.metrics blankReport true today ls
           file LegalTools.reportGenerated E).
Defined.

End CourtReportExamples.
(** ** App, PinAuth and the PIN form of Settings: the session and the PIN *)

Section AuthFacts.

Lemma leadingRun_digits (d : Decimal.uint) :
  leadingRun isDecimalDigit (NilEmpty.string_of_uint d)
  = NilEmpty.string_of_uint d.
Proof.
  induction d; cbn [NilEmpty.string_of_uint leadingRun]; try reflexivity;
    rewrite IHd; reflexivity.
Qed.

Lemma parseInt_digits (d : Decimal.uint) :
  d <> Decimal.Nil ->
  parseInt (NilEmpty.string_of_uint d)
  = option_map (fun m => 1 * m) (Number (NilEmpty.string_of_uint d)).
Proof.
  intros H. pose proof (leadingRun_digits d) as R.
  destruct d as [|d|d|d|d|d|d|d|d|d|d]; [congruence|..];
    try (unfold parseInt; cbn [NilEmpty.string_of_uint trimStart] in *;
         change (isWhiteSpace _) with false; cbv iota;
         rewrite R; reflexivity).
  destruct d; unfold parseInt; cbn [NilEmpty.string_of_uint trimStart] in *;
    change (isWhiteSpace _) with false; cbv iota; rewrite R; reflexivity.
Qed.

Lemma parseInt_msToString (n : N) : parseInt (msToString n) = Some (Z.of_N n).
Proof.
  pose proof (Number_msToString n) as V. unfold msToString in *.
  pose proof (N_to_uint_nonnil n) as H.
  unfold NilZero.string_of_uint in *.
  destruct (N.to_uint n) eqn:E; try congruence; rewrite <- E in *;
    rewrite parseInt_digits, V by exact H; cbn [option_map];
    f_equal; apply Z.mul_1_l.
Qed.

Lemma truthy_msToString (n : N) : truthy (msToString n) = true.
Proof.
  unfold msToString, NilZero.string_of_uint.
  pose proof (N_to_uint_nonnil n) as H.
  destruct (N.to_uint n); try congruence; reflexivity.
Qed.


(** X16. A session lasts thirty minutes: after an authentication at the
    clock reading [t0], the application mounted at the reading [t1] takes the
    user as authenticated exactly when less than 1,800,000 ms have passed;
    it then leaves the storage as it is, and otherwise removes the two
    session keys and keeps the PIN. *)
Theorem session_lasts_thirty_minutes
        (t0 t1 : N) (isAuthenticated : bool) (ls : AuthStorage) :
  let ls1 := snd (App.handleAuthentication t0 true isAuthenticated ls) in
  let live := Z.of_N t1 - Z.of_N t0 <? 1800000 in
  App.restoreSession t1 ls1
  = (live, if live then ls1 else mkAuth (childfirst_pin ls) None None).
Proof.
  intros ls1 live. subst ls1 live. unfold App.handleAuthentication.
  cbn [snd]. unfold App.restoreSession.
  cbn [childfirst_authenticated childfirst_auth_time childfirst_pin].
  rewrite truthy_msToString, parseInt_msToString.
  change (("true" =? "true")%string && true) with true. cbv iota.
  change App.sessionLength with 1800000.
  destruct (Z.of_N t1 - Z.of_N t0 <? 1800000); reflexivity.
Qed.

(** X17. A logout ends the session and keeps the PIN: after an
    authentication and a logout, the application mounts unauthenticated at
    every clock reading, leaves the storage as it is, and the PIN saved is
    the one there was. *)
Theorem logout_ends_the_session
        (t0 t1 : N) (isAuthenticated : bool) (ls : AuthStorage) :
  let ls1 := snd (App.handleAuthentication t0 true isAuthenticated ls) in
  let ls2 := snd (App.handleLogout ls1) in
  App.restoreSession t1 ls2 = (false, ls2)
  /\ fst (App.handleLogout ls1) = false
  /\ childfirst_pin ls2 = childfirst_pin ls.
Proof.
  intros ls1 ls2. repeat split.
Qed.

(** *** The PIN screen *)

Import PinAuth.

Lemma onChange_incomplete (clock : N) (value : string) (w : World) :
  complete value = false ->
  onChange clock value w
  = match step w with
    | confirm => mkWorld (pin w) (storedPin w) (isSettingPin w) value (step w)
                         (storage w) (isAuthenticated w) (toasts w)
    | enter => mkWorld value (storedPin w) (isSettingPin w) (confirmPin w)
                       (step w) (storage w) (isAuthenticated w) (toasts w)
    end.
Proof.
  unfold complete, onChange. intros ->. reflexivity.
Qed.

(** Typing that does not fill the six slots leaves the mode, the step, the
    value entered first once the step is [confirm], and the storage. *)
Lemma typeAll_incomplete (entries : list (N * string)) (w : World) :
  Forall (fun e => complete (snd e) = false) entries ->
  isAuthenticated w = false ->
  let w' := typeAll entries w in
  isSettingPin w' = isSettingPin w /\ step w' = step w
  /\ storedPin w' = storedPin w /\ storage w' = storage w
  /\ isAuthenticated w' = false /\ toasts w' = toasts w
  /\ (step w = confirm -> pin w' = pin w).
Proof.
  intros F. revert w. induction F as [|[clock value] rest H F IH]; intros w A.
  - cbn. repeat split; auto.
  - cbn [typeAll]. rewrite A. cbn [snd] in H.
    rewrite (onChange_incomplete _ _ _ H).
    destruct w as [p sp sg cp st sto au ts]. cbn in A |- *.
    destruct st;
      match goal with
      | |- context [typeAll rest ?w1] =>
          destruct (IH w1 A) as (I1 & I2 & I3 & I4 & I5 & I6 & I7)
      end;
      cbn in I1, I2, I3, I4, I5, I6, I7;
      repeat split; try assumption; try discriminate; auto.
Qed.

Lemma typeAll_app (first rest : list (N * string)) (w : World) :
  typeAll (first ++ rest) w = typeAll rest (typeAll first w).
Proof.
  revert w. induction first as [|[clock value] first IH]; intros w.
  - reflexivity.
  - cbn [app typeAll]. destruct (isAuthenticated w) eqn:A.
    + destruct rest as [|[c v] rest]; cbn [typeAll]; rewrite ?A; reflexivity.
    + apply IH.
Qed.

Lemma mount_without_pin (ls : AuthStorage) :
  childfirst_pin ls = None \/ childfirst_pin ls = Some "" ->
  mount ls = mkWorld "" "" true "" enter ls false [].
Proof.
  unfold mount. intros [-> | ->]; reflexivity.
Qed.

(** X18. The first PIN is set by two equal complete entries.  On a storage
    without a PIN, whatever incomplete values are typed before and between,
    the first complete value is taken as the PIN to confirm; if the second
    complete value equals it, it is saved as the PIN and the user is
    authenticated with a session that starts at that moment; if not, nothing
    is saved and the screen asks for a new PIN from the start. *)
Theorem first_pin_is_set_by_two_equal_entries
        (ls : AuthStorage) (before between : list (N * string))
        (c1 c2 : N) (v1 v2 : string) :
  childfirst_pin ls = None \/ childfirst_pin ls = Some "" ->
  Forall (fun e => complete (snd e) = false) before ->
  Forall (fun e => complete (snd e) = false) between ->
  complete v1 = true -> complete v2 = true ->
  let w := typeAll (before ++ [(c1, v1)] ++ between ++ [(c2, v2)]) (mount ls) in
  if String.eqb v2 v1 then
    storage w = mkAuth (Some v1) (Some "true") (Some (msToString c2))
    /\ isAuthenticated w = true
    /\ toasts w = [confirmYourPin; pinSet]
  else
    storage w = ls /\ isAuthenticated w = false
    /\ isSettingPin w = true /\ step w = enter /\ pin w = ""
    /\ toasts w = [confirmYourPin; pinsDontMatch].
Proof.
  intros P F1 F2 V1 V2 w. subst w.
  rewrite (mount_without_pin ls P), !typeAll_app.
  match goal with
  | |- context [typeAll before ?w0] =>
      destruct (typeAll_incomplete before w0 F1 eq_refl)
        as (I1 & I2 & I3 & I4 & I5 & I6 & _);
      destruct (typeAll before w0) as [p sp sg cp st sto au ts]
  end.
  cbn in I1, I2, I3, I4, I5, I6. subst sg st sp sto au ts.
  unfold complete in V1, V2.
  assert (S1 : typeAll [(c1, v1)] (mkWorld p "" true cp enter ls false [])
               = mkWorld v1 "" true cp confirm ls false [confirmYourPin]).
  { cbn [typeAll isAuthenticated]. unfold onChange. cbn [step]. rewrite V1.
    reflexivity. }
  rewrite S1. clear S1.
  match goal with
  | |- context [typeAll between ?w1] =>
      destruct (typeAll_incomplete between w1 F2 eq_refl)
        as (J1 & J2 & J3 & J4 & J5 & J6 & J7);
      destruct (typeAll between w1) as [p' sp sg cp' st sto au ts]
  end.
  cbn in J1, J2, J3, J4, J5, J6, J7. specialize (J7 eq_refl).
  subst sg st sp sto au ts p'.
  cbn [typeAll isAuthenticated]. unfold onChange. cbn [step]. rewrite V2.
  unfold handlePinComplete. cbn [isSettingPin step pin].
  destruct (String.eqb v2 v1) eqn:E.
  - apply String.eqb_eq in E. subst v2. cbn. repeat split.
  - cbn. repeat split.
Qed.

(** With a PIN saved the screen compares what is typed, and the biometric
    button asks the platform only. *)
Lemma runScreen_unlock (p : string) (events : list (N * Event)) (w : World) :
  isSettingPin w = false -> storedPin w = p ->
  childfirst_pin (storage w) = Some p ->
  let w' := runScreen events w in
  isAuthenticated w'
  = isAuthenticated w
    || existsb (fun e => match snd e with
                         | Typed value => complete value && String.eqb value p
                         | PressBiometric created => true
                         | PressBiometric _ => false
                         end) events
  /\ childfirst_pin (storage w') = Some p.
Proof.
  revert w. induction events as [|[clock e] rest IH]; intros w S P L.
  - cbn. rewrite orb_false_r. split; [reflexivity | exact L].
  - cbn [runScreen existsb snd]. destruct (isAuthenticated w) eqn:A.
    + cbn. rewrite A. split; [reflexivity | exact L].
    + cbn [orb].
      destruct w as [pn sp sg cp st sto au ts]. cbn in S, P, L, A. subst sg sp au.
      destruct e as [value|outcome]; cbn [handle].
      * unfold onChange, complete.
        destruct (String.length value =? 6)%nat; cbn [andb].
        -- unfold handlePinComplete.
           destruct st; cbn [step isSettingPin storedPin];
             destruct (String.eqb value p);
             match goal with
             | |- context [runScreen rest ?w1] =>
                 destruct (IH w1 eq_refl eq_refl) as [I1 I2]; [exact L|];
                 rewrite I1; split; [reflexivity | exact I2]
             end.
        -- destruct st; cbn [step];
             match goal with
             | |- context [runScreen rest ?w1] =>
                 destruct (IH w1 eq_refl eq_refl) as [I1 I2]; [exact L|];
                 rewrite I1; split; [reflexivity | exact I2]
             end.
      * cbn [isSettingPin]. destruct outcome; cbn [handleBiometricAuth];
          match goal with
          | |- context [runScreen rest ?w1] =>
              destruct (IH w1 eq_refl eq_refl) as [I1 I2]; [exact L|];
              rewrite I1; split; [reflexivity | exact I2]
          end.
Qed.

(** X19. With a PIN saved, the screen lets the user in in two ways only:
    by a typed value that fills the six slots and is the saved PIN, or by the
    biometric button when the platform creates a credential, for which the
    PIN is not asked.  Whatever is done, the user ends authenticated if and
    only if one of the two happened, and the saved PIN is never changed from
    this screen. *)
Theorem saved_pin_or_a_new_credential_lets_in
        (ls : AuthStorage) (p : string) (events : list (N * Event)) :
  childfirst_pin ls = Some p -> p <> "" ->
  let w := runScreen events (mount ls) in
  (isAuthenticated w = true
   <-> exists clock, (In (clock, Typed p) events /\ complete p = true)
                     \/ In (clock, PressBiometric created) events)
  /\ childfirst_pin (storage w) = Some p.
Proof.
  intros L N w. subst w.
  assert (M : mount ls = mkWorld "" p false "" enter ls false []).
  { unfold mount. rewrite L. destruct p; [congruence | reflexivity]. }
  rewrite M.
  destruct (runScreen_unlock p events (mkWorld "" p false "" enter ls false [])
              eq_refl eq_refl L) as [A S].
  split; [|exact S]. rewrite A. cbn [isAuthenticated orb].
  rewrite existsb_exists. split.
  - intros [[clock [value|outcome]] [I T]]; cbn [snd] in T.
    + apply andb_true_iff in T. destruct T as [C E].
      apply String.eqb_eq in E. subst value. exists clock. left.
      split; assumption.
    + destruct outcome; try discriminate T. exists clock. right. exact I.
  - intros [clock [[I C]|I]].
    + exists (clock, Typed p). split; [exact I|].
      cbn [snd]. rewrite C, String.eqb_refl. reflexivity.
    + exists (clock, PressBiometric created). split; [exact I | reflexivity].
Qed.

(** *** The PIN form of the Settings page *)

Lemma digitsOnly_digits (s : string) : allDecimalDigits (digitsOnly s).
Proof.
  induction s as [|c s IH]; cbn [digitsOnly]; [exact I|].
  destruct (isDecimalDigit c) eqn:D; [split; assumption | exact IH].
Qed.

Lemma substring_digits (s : string) (from len : nat) :
  allDecimalDigits s -> allDecimalDigits (substring from len s).
Proof.
  revert from len. induction s as [|c s IH]; intros from len A.
  - destruct from, len; exact I.
  - destruct A as [D A]. destruct from as [|from].
    + destruct len as [|len]; [exact I|]. cbn [substring].
      split; [exact D | apply IH, A].
    + cbn [substring]. apply IH, A.
Qed.

Lemma sanitize_digits (value : string) :
  allDecimalDigits (SettingsPin.sanitize value).
Proof.
  apply substring_digits, digitsOnly_digits.
Qed.

Lemma runPinForm_pin (events : list SettingsPin.Event) (w : SettingsPin.World) :
  allDecimalDigits (SettingsPin.newPin w) ->
  let w' := runPinForm events w in
  (childfirst_pin (SettingsPin.storage w')
   = childfirst_pin (SettingsPin.storage w)
   \/ exists p, childfirst_pin (SettingsPin.storage w') = Some p
                /\ String.length p = 6%nat /\ allDecimalDigits p)
  /\ childfirst_authenticated (SettingsPin.storage w')
     = childfirst_authenticated (SettingsPin.storage w)
  /\ childfirst_auth_time (SettingsPin.storage w')
     = childfirst_auth_time (SettingsPin.storage w).
Proof.
  unfold runPinForm. revert w.
  induction events as [|e events IH]; intros w A.
  - cbn. split; [left; reflexivity | split; reflexivity].
  - cbn [fold_left].
    destruct e as [value|value|]; cbn [SettingsPin.handle].
    + apply (IH (SettingsPin.setNewPin value w)), sanitize_digits.
    + apply (IH (SettingsPin.setConfirmPin value w)), A.
    + unfold SettingsPin.clickUpdatePin, SettingsPin.changePin.
      destruct w as [np cp sto ts].
      cbn [SettingsPin.newPin SettingsPin.confirmPin SettingsPin.storage
           SettingsPin.toasts] in *.
      destruct (negb (truthy np) || negb (truthy cp)); [apply IH, A|].
      destruct (String.length np =? 6)%nat eqn:L; cbn [negb];
        [|exact (IH (SettingsPin.mkWorld np cp sto _) A)].
      destruct (String.eqb np cp); cbn [negb];
        [|exact (IH (SettingsPin.mkWorld np cp sto _) A)].
      match goal with
      | |- context [fold_left _ events ?w1] =>
          destruct (IH w1 I) as ([P | P] & S & T)
      end; cbn in P, S, T.
      * split; [|split; assumption]. right.
        exists np. split; [exact P|].
        split; [apply Nat.eqb_eq, L | exact A].
      * split; [right; exact P | split; assumption].
Qed.

(** X20. The Settings page only ever saves a PIN of six decimal digits:
    whatever is typed into the two fields and however often the button is
    pressed, the PIN in the storage is the one there was or a string of
    exactly six decimal digits; the session keys are not touched. *)
Theorem settings_saves_only_six_digit_pins
        (ls : AuthStorage) (events : list SettingsPin.Event) :
  let w := runPinForm events (pinForm ls) in
  (childfirst_pin (SettingsPin.storage w) = childfirst_pin ls
   \/ exists p, childfirst_pin (SettingsPin.storage w) = Some p
                /\ String.length p = 6%nat /\ allDecimalDigits p)
  /\ childfirst_authenticated (SettingsPin.storage w)
     = childfirst_authenticated ls
  /\ childfirst_auth_time (SettingsPin.storage w) = childfirst_auth_time ls.
Proof.
  exact (runPinForm_pin events (pinForm ls) I).
Qed.

(** X21. A PIN changed in the Settings page is the one the PIN screen then
    asks for.  When the digits typed into the two fields are the same six,
    the button saves them, and the PIN screen mounted on that storage lets
    the user in with these six digits and with no other value. *)
Theorem changed_pin_opens_the_pin_screen
        (ls : AuthStorage) (typed retyped other : string) (clock : N) :
  String.length (SettingsPin.sanitize typed) = 6%nat ->
  SettingsPin.sanitize retyped = SettingsPin.sanitize typed ->
  other <> SettingsPin.sanitize typed ->
  let w := runPinForm [SettingsPin.TypeNewPin typed;
                       SettingsPin.TypeConfirmPin retyped;
                       SettingsPin.ClickUpdatePin] (pinForm ls) in
  let screen := mount (SettingsPin.storage w) in
  childfirst_pin (SettingsPin.storage w) = Some (SettingsPin.sanitize typed)
  /\ SettingsPin.toasts w = [SettingsPin.pinChanged]
  /\ isAuthenticated (onChange clock (SettingsPin.sanitize typed) screen) = true
  /\ isAuthenticated (onChange clock other screen) = false.
Proof.
  intros L R O w screen. subst screen w.
  cbn [runPinForm fold_left SettingsPin.handle pinForm].
  unfold SettingsPin.clickUpdatePin, SettingsPin.changePin,
    SettingsPin.setConfirmPin, SettingsPin.setNewPin.
  cbn [SettingsPin.newPin SettingsPin.confirmPin SettingsPin.storage
       SettingsPin.toasts].
  rewrite R, String.eqb_refl, L.
  destruct (SettingsPin.sanitize typed) as [|c pin'] eqn:E; [discriminate L|].
  cbn [truthy negb orb Nat.eqb SettingsPin.storage SettingsPin.toasts app].
  split; [reflexivity|]. split; [reflexivity|].
  unfold mount. cbn [childfirst_pin truthy]. unfold onChange. cbn [step].
  rewrite L. unfold handlePinComplete. cbn [isSettingPin storedPin].
  rewrite String.eqb_refl. split; [reflexivity|].
  destruct (String.length other =? 6)%nat; [|reflexivity].
  cbn [isSettingPin storedPin].
  destruct (String.eqb other (String c pin')) eqn:Q; [|reflexivity].
  apply String.eqb_eq in Q. contradiction.
Qed.

End AuthFacts.

Section AuthExamples.
Import PinAuth.

(** A first PIN typed with a slip in between. *)
Lemma first_pin_example :
  let ls := mkAuth None None None in
  let w := typeAll ([(10%N, "1"); (20%N, "12345")] ++ [(30%N, "123456")]
                    ++ [(40%N, "1234")] ++ [(50%N, "123456")]) (mount ls) in
  storage w = mkAuth (Some "123456") (Some "true") (Some "50")
  /\ isAuthenticated w = true.
Proof.
  intros ls w.
  pose proof (first_pin_is_set_by_two_equal_entries
                ls [(10%N, "1"); (20%N, "12345")] [(40%N, "1234")]
                30%N 50%N "123456" "123456" (or_introl eq_refl)
                ltac:(repeat constructor) ltac:(repeat constructor)
                eq_refl eq_refl) as H.
  cbv zeta in H. change (String.eqb "123456" "123456") with true in H.
  cbv iota in H. destruct H as (H1 & H2 & _).
  split; [exact H1 | exact H2].
Defined.

(** A wrong value, a declined credential, then the saved PIN. *)
Lemma saved_pin_example :
  let ls := mkAuth (Some "246810") None None in
  let w := runScreen [(1%N, Typed "111111"); (2%N, PressBiometric declined);
                      (3%N, Typed "246810")] (mount ls) in
  isAuthenticated w = true /\ childfirst_pin (storage w) = Some "246810".
Proof.
  intros ls w.
  destruct (saved_pin_or_a_new_credential_lets_in
              ls "246810"
              [(1%N, Typed "111111"); (2%N, PressBiometric declined);
               (3%N, Typed "246810")]
              eq_refl ltac:(discriminate)) as [[_ H] S].
  split; [|exact S].
  apply H. exists 3%N. left. split; [|reflexivity].
  right. right. left. reflexivity.
Defined.

(** Digits typed among other characters, then the PIN screen. *)
Lemma changed_pin_example :
  let ls := mkAuth (Some "246810") (Some "true") (Some "1700000000000") in
  let w := runPinForm [SettingsPin.TypeNewPin "12a34-56789";
                       SettingsPin.TypeConfirmPin "123456";
                       SettingsPin.ClickUpdatePin] (pinForm ls) in
  let screen := mount (SettingsPin.storage w) in
  childfirst_pin (SettingsPin.storage w) = Some "123456"
  /\ isAuthenticated (onChange 7%N "123456" screen) = true
  /\ isAuthenticated (onChange 7%N "246810" screen) = false.
Proof.
  intros ls w screen.
  destruct (changed_pin_opens_the_pin_screen
              ls "12a34-56789" "123456" "246810" 7%N
              eq_refl eq_refl ltac:(discriminate)) as (H1 & _ & H2 & H3).
  split; [exact H1 | split; [exact H2 | exact H3]].
Defined.

End AuthExamples.

(** ** The statistics of the court report and of the dashboard *)

Section CountFacts.

Lemma lookup_increment (k k' : string) (acc : Counts.t) :
  Counts.lookup k' (Counts.increment k acc)
  = Counts.lookup k' acc + (if String.eqb k k' then 1 else 0).
Proof.
  induction acc as [|[k0 n] rest IH]; cbn [Counts.increment Counts.lookup].
  - destruct (String.eqb k k'); reflexivity.
  - destruct (String.eqb k0 k) eqn:E; cbn [Counts.lookup].
    + apply String.eqb_eq in E. subst k0.
      destruct (String.eqb k k'); lia.
    + destruct (String.eqb k0 k') eqn:E'; [|exact IH].
      apply String.eqb_eq in E'. subst k0.
      rewrite String.eqb_sym, E. lia.
Qed.

Lemma lookup_counted {A : Type} (key : A -> string) (l : list A)
      (acc : Counts.t) (k : string) :
  Counts.lookup k (fold_left (fun acc' x => Counts.increment (key x) acc') l acc)
  = Counts.lookup k acc
    + Z.of_nat (length (filter (fun x => String.eqb (key x) k) l)).
Proof.
  revert acc. induction l as [|x l IH]; intros acc; cbn [fold_left filter].
  - cbn. lia.
  - rewrite IH, lookup_increment.
    destruct (String.eqb (key x) k); cbn [length]; lia.
Qed.

Lemma increment_keys (k k' : string) (acc : Counts.t) :
  In k' (map fst (Counts.increment k acc)) <-> k' = k \/ In k' (map fst acc).
Proof.
  induction acc as [|[k0 n] rest IH]; cbn [Counts.increment map fst In].
  - intuition congruence.
  - destruct (String.eqb k0 k) eqn:E; cbn [map fst In].
    + apply String.eqb_eq in E. subst k0. intuition congruence.
    + rewrite IH. intuition congruence.
Qed.

Lemma increment_distinct (k : string) (acc : Counts.t) :
  NoDup (map fst acc) -> NoDup (map fst (Counts.increment k acc)).
Proof.
  induction acc as [|[k0 n] rest IH]; cbn [Counts.increment map fst]; intros D.
  - constructor; [intros [] | constructor].
  - inversion D as [|? ? N D']; subst.
    destruct (String.eqb k0 k) eqn:E; cbn [map fst]; [exact D|].
    constructor; [|apply IH, D'].
    rewrite increment_keys. intros [->|I]; [|exact (N I)].
    rewrite String.eqb_refl in E. discriminate E.
Qed.

Lemma increment_positive (k : string) (acc : Counts.t) :
  Forall (fun kv => 0 < snd kv) acc ->
  Forall (fun kv => 0 < snd kv) (Counts.increment k acc).
Proof.
  induction 1 as [|[k0 n] rest P F IH]; cbn [Counts.increment].
  - constructor; [cbn; lia | constructor].
  - cbn [snd] in P. destruct (String.eqb k0 k); constructor; cbn [snd];
      try assumption; lia.
Qed.

Lemma distinct_lookup (c : string) (n : Z) (acc : Counts.t) :
  NoDup (map fst acc) -> In (c, n) acc -> Counts.lookup c acc = n.
Proof.
  induction acc as [|[k0 n0] rest IH]; cbn [map fst In Counts.lookup];
    intros D I; [destruct I|].
  inversion D as [|? ? N D']; subst.
  destruct I as [I|I].
  - injection I as -> ->. rewrite String.eqb_refl. reflexivity.
  - destruct (String.eqb k0 c) eqn:E; [|exact (IH D' I)].
    apply String.eqb_eq in E. subst k0.
    exfalso. apply N. exact (in_map fst _ _ I).
Qed.

Lemma lookup_listed (k : string) (acc : Counts.t) :
  Counts.lookup k acc = 0 \/ In (k, Counts.lookup k acc) acc.
Proof.
  induction acc as [|[k0 n0] rest IH]; cbn [Counts.lookup In]; [left; reflexivity|].
  destruct (String.eqb k0 k) eqn:E.
  - apply String.eqb_eq in E. subst k0. right. left. reflexivity.
  - destruct IH as [IH|IH]; [left; exact IH | right; right; exact IH].
Qed.

Lemma getCount_lookup (k : string) (acc : Counts.t) :
  match getCount k acc with
  | Some n => In (k, n) acc /\ Counts.lookup k acc = n
  | None => Counts.lookup k acc = 0
  end.
Proof.
  induction acc as [|[k0 n0] rest IH]; cbn [getCount Counts.lookup In];
    [reflexivity|].
  destruct (String.eqb k0 k) eqn:E.
  - apply String.eqb_eq in E. subst k0. split; [left|]; reflexivity.
  - destruct (getCount k rest); [|exact IH].
    destruct IH as [I L]. split; [right; exact I | exact L].
Qed.

(** The table of the categories of a list of incidents. *)
Lemma categoryCount_table (l : list Incident.t) (acc : Counts.t) :
  NoDup (map fst acc) -> Forall (fun kv => 0 < snd kv) acc ->
  let table :=
    fold_left (fun acc' i => Counts.increment (Incident.category i) acc') l acc in
  NoDup (map fst table)
  /\ Forall (fun kv => 0 < snd kv) table
  /\ (forall k, In k (map fst table)
                <-> In k (map fst acc)
                    \/ exists i, In i l /\ Incident.category i = k).
Proof.
  revert acc. induction l as [|i l IH]; intros acc D P; cbn [fold_left].
  - split; [exact D|]. split; [exact P|].
    intros k. split; [intros I; left; exact I|].
    intros [I|(i & [] & _)]. exact I.
  - destruct (IH _ (increment_distinct (Incident.category i) acc D)
                (increment_positive (Incident.category i) acc P))
      as (D' & P' & K).
    split; [exact D'|]. split; [exact P'|].
    intros k. rewrite K, increment_keys. cbn [In]. split.
    + intros [[->|I]|(j & I & E)].
      * right. exists i. split; [left|]; reflexivity.
      * left. exact I.
      * right. exists j. split; [right; exact I | exact E].
    + intros [I|(j & [->|I] & E)].
      * left. right. exact I.
      * left. left. symmetry. exact E.
      * right. exists j. split; assumption.
Qed.

Lemma entries_permutation (acc : Counts.t) :
  Permutation acc (Counts.entries acc).
Proof.
  unfold Counts.entries.
  apply perm_trans with (filter Counts.isIndex acc
                         ++ filter (fun kv => negb (Counts.isIndex kv)) acc)%list.
  - induction acc as [|kv acc IH]; cbn [filter]; [constructor|].
    destruct (Counts.isIndex kv); cbn [negb app].
    + apply perm_skip, IH.
    + apply Permutation_cons_app, IH.
  - apply Permutation_app_tail, sort_permutation.
Qed.

End CountFacts.

Section StatisticsFacts.

(** X22. The severity breakdown of the court report counts every incident
    once: its three numbers are the numbers of incidents of severity at most
    2, of severity 3 (above 2 and at most 3), and above 3, and they add up to
    the number of incidents. *)
Theorem severity_breakdown_counts_every_incident_once
        (incidents : list Incident.t) :
  let table := LegalTools.severityCount incidents in
  Counts.lookup "Low" table
  = countIf (fun i => Incident.severity i <=? 2) incidents
  /\ Counts.lookup "Medium" table
     = countIf (fun i => (2 <? Incident.severity i) && (Incident.severity i <=? 3))
               incidents
  /\ Counts.lookup "High" table
     = countIf (fun i => 3 <? Incident.severity i) incidents
  /\ Counts.lookup "Low" table + Counts.lookup "Medium" table
     + Counts.lookup "High" table
     = Z.of_nat (length incidents).
Proof.
  intros table. subst table. unfold LegalTools.severityCount, countIf.
  rewrite !lookup_counted. cbn [Counts.lookup].
  assert (E : forall (f g : Incident.t -> bool),
             (forall i, f i = g i) -> filter f incidents = filter g incidents)
    by (intros f g H; apply filter_ext, H).
  rewrite (E (fun x => String.eqb (LegalTools.level x) "Low")
             (fun i => Incident.severity i <=? 2)),
    (E (fun x => String.eqb (LegalTools.level x) "Medium")
       (fun i => (2 <? Incident.severity i) && (Incident.severity i <=? 3))),
    (E (fun x => String.eqb (LegalTools.level x) "High")
       (fun i => 3 <? Incident.severity i)).
  - repeat split.
    clear E. induction incidents as [|i l IH]; cbn [filter length]; [reflexivity|].
    destruct (Incident.severity i <=? 2) eqn:A;
      destruct (Incident.severity i <=? 3) eqn:B;
      destruct (2 <? Incident.severity i) eqn:C;
      destruct (3 <? Incident.severity i) eqn:D;
      cbn [andb length]; lia.
  - intros i. unfold LegalTools.level.
    destruct (Incident.severity i <=? 2) eqn:A;
      destruct (Incident.severity i <=? 3) eqn:B;
      destruct (3 <? Incident.severity i) eqn:D; try reflexivity; lia.
  - intros i. unfold LegalTools.level.
    destruct (Incident.severity i <=? 2) eqn:A;
      destruct (Incident.severity i <=? 3) eqn:B;
      destruct (2 <? Incident.severity i) eqn:C; try reflexivity; lia.
  - intros i. unfold LegalTools.level.
    destruct (Incident.severity i <=? 2) eqn:A;
      destruct (Incident.severity i <=? 3) eqn:B; reflexivity.
Qed.

Lemma category_counts (incidents : list Incident.t) (c : string) :
  Counts.lookup c (LegalTools.categoryCount incidents)
  = countIf (hasCategory c) incidents.
Proof.
  unfold LegalTools.categoryCount, countIf. rewrite lookup_counted. reflexivity.
Qed.

Lemma category_table (incidents : list Incident.t) :
  let table := LegalTools.categoryCount incidents in
  NoDup (map fst table)
  /\ Forall (fun kv => 0 < snd kv) table
  /\ (forall k, In k (map fst table)
                <-> exists i, In i incidents /\ Incident.category i = k).
Proof.
  destruct (categoryCount_table incidents [] (NoDup_nil _) (Forall_nil _))
    as (D & P & K).
  split; [exact D|]. split; [exact P|].
  intros k. rewrite (K k). cbn [map In]. tauto.
Qed.

Lemma count_nonnegative (test : Incident.t -> bool) (l : list Incident.t) :
  0 <= countIf test l.
Proof.
  unfold countIf. lia.
Qed.

(** X23. The most common category of the court report.  For incidents whose
    categories are none of the property names every object inherits: there
    is none exactly when there are no incidents; otherwise it is a category
    that occurs, given with the number of incidents that have it, and no
    category has more. *)
Theorem court_report_names_a_most_common_category
        (incidents : list Incident.t) :
  Forall plainCategory incidents ->
  match LegalTools.mostCommon incidents with
  | None => incidents = []
  | Some (c, n) =>
      n = countIf (hasCategory c) incidents
      /\ (exists i, In i incidents /\ Incident.category i = c)
      /\ forall c', countIf (hasCategory c') incidents <= n
  end.
Proof.
  intros _. unfold LegalTools.mostCommon.
  destruct (category_table incidents) as (D & P & K).
  pose proof (entries_permutation (LegalTools.categoryCount incidents)) as E.
  set (cmp := fun a b : string * Z => Some (snd b - snd a)) in *.
  pose proof (sort_permutation cmp (Counts.entries (LegalTools.categoryCount incidents)))
    as S.
  assert (O : StronglySorted (fun x y : string * Z => - snd x <= - snd y)
                (sort cmp (Counts.entries (LegalTools.categoryCount incidents)))).
  { apply (sort_sorted cmp (fun x => - snd x) (fun _ => True)).
    - intros a b _ _. unfold isAfter, cmp.
      destruct (0 <? snd b - snd a) eqn:X, (- snd b <? - snd a) eqn:Y;
        try reflexivity; lia.
    - apply Forall_forall. intros; exact I. }
  pose proof (perm_trans E S) as T. clear E S.
  destruct (sort cmp (Counts.entries (LegalTools.categoryCount incidents)))
    as [|[c n] rest]; cbn [hd_error].
  - apply Permutation_sym, Permutation_nil in T.
    destruct incidents as [|i l]; [reflexivity|].
    assert (I : In (Incident.category i) (map fst (LegalTools.categoryCount (i :: l))))
      by (apply K; exists i; split; [left|]; reflexivity).
    rewrite T in I. destruct I.
  - assert (Hc : In (c, n) (LegalTools.categoryCount incidents))
      by (apply (Permutation_in _ (Permutation_sym T)); left; reflexivity).
    assert (N : n = countIf (hasCategory c) incidents)
      by (rewrite <- category_counts; symmetry; apply distinct_lookup; assumption).
    split; [exact N|]. split; [apply K; exact (in_map fst _ _ Hc)|].
    intros c'. rewrite <- category_counts.
    destruct (lookup_listed c' (LegalTools.categoryCount incidents)) as [Z|L].
    + rewrite Z, N. apply count_nonnegative.
    + apply (Permutation_in _ T) in L. destruct L as [L|L].
      * injection L as _ <-. lia.
      * inversion O as [|? ? _ F]; subst.
        rewrite Forall_forall in F. specialize (F _ L). cbn [snd] in F. lia.
Qed.

Lemma dashboard_table (incidentList : list Incident.t) :
  Dashboard.categoryCount incidentList = LegalTools.categoryCount incidentList.
Proof.
  reflexivity.
Qed.

(** One step of the reduction over the keys. *)
Lemma pick_larger (table : Counts.t) (a b : string) :
  In b (map fst table) -> NoDup (map fst table) ->
  Forall (fun kv => 0 < snd kv) table ->
  greater (getCount a table) (getCount b table)
  = (Counts.lookup b table <? Counts.lookup a table)
  /\ 0 < Counts.lookup b table.
Proof.
  intros I D P.
  apply in_map_iff in I. destruct I as ([b' n] & <- & I). cbn [fst].
  pose proof (distinct_lookup b' n table D I) as L.
  rewrite Forall_forall in P. pose proof (P _ I) as Pn. cbn [snd] in Pn.
  pose proof (getCount_lookup b' table) as B.
  pose proof (getCount_lookup a table) as A.
  destruct (getCount b' table) as [nb|]; [|lia].
  destruct B as [_ B].
  destruct (getCount a table) as [na|]; cbn [greater].
  - destruct A as [_ A]. rewrite A, B. split; [reflexivity | lia].
  - rewrite A, B. split; [|lia].
    symmetry. apply Z.ltb_ge. lia.
Qed.

Lemma reduce_keys (table : Counts.t) (keys : list string) (a : string) :
  incl keys (map fst table) -> NoDup (map fst table) ->
  Forall (fun kv => 0 < snd kv) table ->
  let r := fold_left (fun a' b =>
                        if greater (getCount a' table) (getCount b table)
                        then a' else b) keys a in
  (In r keys \/ (r = a /\ (keys = [] \/ In a (map fst table))))
  /\ Counts.lookup a table <= Counts.lookup r table
  /\ (forall k, In k keys -> Counts.lookup k table <= Counts.lookup r table).
Proof.
  intros K D P. revert a K.
  induction keys as [|b keys IH]; intros a K; cbn [fold_left].
  - split; [right; split; [reflexivity | left; reflexivity]|].
    split; [lia | intros k []].
  - assert (Ib : In b (map fst table)) by (apply K; left; reflexivity).
    assert (K' : incl keys (map fst table))
      by (intros k I; apply K; right; exact I).
    destruct (pick_larger table a b Ib D P) as [G Pb]. rewrite G.
    destruct (Counts.lookup b table <? Counts.lookup a table) eqn:C.
    + apply Z.ltb_lt in C.
      destruct (IH a K') as (M & La & Lk).
      split.
      * destruct M as [M|[-> M]]; [left; right; exact M|].
        right. split; [reflexivity|]. right.
        destruct (lookup_listed a table) as [Z|L]; [lia|].
        exact (in_map fst _ _ L).
      * split; [exact La|]. intros k [<-|I]; [lia | exact (Lk k I)].
    + apply Z.ltb_ge in C.
      destruct (IH b K') as (M & Lb & Lk).
      split.
      * left. destruct M as [M|[-> _]]; [right; exact M | left; reflexivity].
      * split; [lia|]. intros k [<-|I]; [exact Lb | exact (Lk k I)].
Qed.

(** X24. The most common category of the dashboard.  For incidents whose
    categories are none of the property names every object inherits: it is
    the empty string when there are no incidents; otherwise it is a category
    that occurs, and no category has more incidents. *)
Theorem dashboard_names_a_most_common_category
        (incidentList : list Incident.t) :
  Forall plainCategory incidentList ->
  let c := Dashboard.mostCommonCategory incidentList in
  (incidentList = [] -> c = "")
  /\ (incidentList <> [] ->
      exists i, In i incidentList /\ Incident.category i = c)
  /\ forall c', countIf (hasCategory c') incidentList
                <= countIf (hasCategory c) incidentList.
Proof.
  intros _ c. subst c. unfold Dashboard.mostCommonCategory.
  rewrite dashboard_table.
  destruct (category_table incidentList) as (D & P & K).
  pose proof (entries_permutation (LegalTools.categoryCount incidentList)) as E.
  assert (KI : incl (map fst (Counts.entries (LegalTools.categoryCount incidentList)))
                    (map fst (LegalTools.categoryCount incidentList))).
  { intros k I. apply in_map_iff in I. destruct I as (kv & <- & I).
    apply in_map. exact (Permutation_in _ (Permutation_sym E) I). }
  destruct (reduce_keys _ _ "" KI D P) as (M & _ & Lk).
  split; [intros ->; reflexivity|]. split.
  - intros N. apply K.
    destruct M as [M|[R [Z|M]]].
    + apply KI, M.
    + exfalso. destruct incidentList as [|i l]; [congruence|].
      assert (I : In (Incident.category i)
                     (map fst (LegalTools.categoryCount (i :: l))))
        by (apply K; exists i; split; [left|]; reflexivity).
      apply in_map_iff in I. destruct I as (kv & _ & I).
      apply (Permutation_in _ E) in I.
      apply (in_map fst) in I. rewrite Z in I. destruct I.
    + rewrite R. exact M.
  - intros c'. rewrite <- !category_counts.
    destruct (lookup_listed c' (LegalTools.categoryCount incidentList)) as [Z|L].
    + rewrite Z, category_counts. apply count_nonnegative.
    + apply Lk. apply (in_map fst) in L. cbn [fst] in L.
      apply in_map_iff in L. destruct L as (kv & F & L).
      rewrite <- F. apply in_map. exact (Permutation_in _ E L).
Qed.

End StatisticsFacts.

Section StatisticsExamples.

Lemma twelveIncidents_plain : Forall plainCategory twelveIncidents.
Proof.
  repeat constructor; intros H; cbn in H;
    repeat (destruct H as [H|H]; [discriminate H|]); exact H.
Qed.

(** The twelve incidents in the court report. *)
Lemma court_most_common_example :
  Forall plainCategory twelveIncidents
  /\ match LegalTools.mostCommon twelveIncidents with
     | None => twelveIncidents = []
     | Some (c, n) =>
         n = countIf (hasCategory c) twelveIncidents
         /\ (exists i, In i twelveIncidents /\ Incident.category i = c)
         /\ forall c', countIf (hasCategory c') twelveIncidents <= n
     end.
Proof.
  split; [exact twelveIncidents_plain|].
  exact (court_report_names_a_most_common_category
           twelveIncidents twelveIncidents_plain).
Defined.

(** The twelve incidents on the dashboard. *)
Lemma dashboard_most_common_example :
  let c := Dashboard.mostCommonCategory twelveIncidents in
  Forall plainCategory twelveIncidents
  /\ (exists i, In i twelveIncidents /\ Incident.category i = c)
  /\ forall c', countIf (hasCategory c') twelveIncidents
                <= countIf (hasCategory c) twelveIncidents.
Proof.
  intros c. split; [exact twelveIncidents_plain|].
  destruct (dashboard_names_a_most_common_category
              twelveIncidents twelveIncidents_plain) as (_ & O & M).
  split; [apply O; discriminate | exact M].
Defined.

End StatisticsExamples.

Section DashboardFacts.
Context {dates : Dates} {metrics : TextMetrics}.
Import IncidentTimeline.

Lemma sort_same_order {A : Type} (f g : A -> A -> option Z) (l : list A) :
  (forall a b, f a b = g a b) -> sort f l = sort g l.
Proof.
  intros H. induction l as [|a l IH]; cbn [sort fold_right]; [reflexivity|].
  fold (sort f l). fold (sort g l). rewrite IH. clear IH.
  induction (sort g l) as [|b s IHs]; cbn [insert]; [reflexivity|].
  unfold isAfter. rewrite H, IHs. reflexivity.
Qed.

(** X25. The recent incidents of the dashboard are the first five of the
    timeline's unfiltered view, newest first; they are at most five, and the
    call leaves the list of the dashboard reordered the same way, with the
    same incidents. *)
Theorem recent_incidents_are_the_first_five_of_the_timeline
        (incidents : list Incident.t) :
  let view := filterIncidents incidents "" "all" "all" newest in
  fst (Dashboard.getRecentIncidents incidents) = firstn 5 view
  /\ snd (Dashboard.getRecentIncidents incidents) = view
  /\ (length (fst (Dashboard.getRecentIncidents incidents)) <= 5)%nat
  /\ Permutation incidents (snd (Dashboard.getRecentIncidents incidents)).
Proof.
  intros view. subst view. unfold Dashboard.getRecentIncidents. cbn [fst snd].
  assert (V : filterIncidents incidents "" "all" "all" newest
              = sort Dashboard.compareRecent incidents).
  { unfold filterIncidents. cbn [truthy String.eqb Ascii.eqb Bool.eqb negb].
    apply sort_same_order. intros a b. unfold compareFn, Dashboard.compareRecent.
    destruct (getTime (newDate (Incident.timestamp a))),
      (getTime (newDate (Incident.timestamp b))); reflexivity. }
  rewrite V. split; [reflexivity|]. split; [reflexivity|].
  split; [apply firstn_le_length | apply sort_permutation].
Qed.

(** X26. The three severity options of the timeline select by the label
    shown on the cards: for an incident of severity 1 to 5, the option Low
    keeps it exactly when its label is Low, and likewise for Medium and
    High. *)
Theorem severity_options_select_by_label
        (incidents : list Incident.t) (order : SortOrder) (i : Incident.t) :
  1 <= Incident.severity i <= 5 ->
  (In i (filterIncidents incidents "" "all" "1-2" order)
   <-> In i incidents
       /\ TimelineDisplay.getSeverityLabel (Incident.severity i) = "Low")
  /\ (In i (filterIncidents incidents "" "all" "3-3" order)
      <-> In i incidents
          /\ TimelineDisplay.getSeverityLabel (Incident.severity i) = "Medium")
  /\ (In i (filterIncidents incidents "" "all" "4-5" order)
      <-> In i incidents
          /\ TimelineDisplay.getSeverityLabel (Incident.severity i) = "High").
Proof.
  intros R.
  change "1-2" with (bandValue lowBand).
  change "3-3" with (bandValue mediumBand).
  change "4-5" with (bandValue highBand).
  rewrite !view_members. unfold Selected, TimelineDisplay.getSeverityLabel.
  unfold InBand, lowBand, mediumBand, highBand.
  change (Z.of_N 1) with 1. change (Z.of_N 2) with 2.
  change (Z.of_N 3) with 3. change (Z.of_N 4) with 4.
  change (Z.of_N 5) with 5.
  destruct (Incident.severity i <=? 2) eqn:A;
    [apply Z.leb_le in A | apply Z.leb_gt in A];
    (destruct (Incident.severity i <=? 3) eqn:B;
     [apply Z.leb_le in B | apply Z.leb_gt in B]);
    intuition (try discriminate; try lia).
Qed.

(** X28. The pages band the severity the same way.  For every severity the
    timeline and the dashboard show the same label, which is the level the
    court report counts the incident under, and the same colour; the
    recording page shows the same band under its own names; and on each
    page (the timeline, the dashboard and the recording page) the colour
    goes with the label. *)
Theorem severity_is_banded_alike_on_every_page (i : Incident.t) :
  let s := Incident.severity i in
  let label := TimelineDisplay.getSeverityLabel s in
  Dashboard.getSeverityLabel s = label
  /\ LegalTools.level i = label
  /\ VoiceRecordingDisplay.getSeverityLabel s
     = (if String.eqb label "Low" then "Low Impact"
        else if String.eqb label "Medium" then "Moderate Impact"
        else "High Impact")
  /\ TimelineDisplay.getSeverityColor s
     = (if String.eqb label "Low" then "bg-success text-success-foreground"
        else if String.eqb label "Medium" then "bg-accent text-accent-foreground"
        else "bg-destructive text-destructive-foreground")
  /\ Dashboard.getSeverityColor s
     = (if String.eqb (Dashboard.getSeverityLabel s) "Low"
        then "bg-success text-success-foreground"
        else if String.eqb (Dashboard.getSeverityLabel s) "Medium"
             then "bg-accent text-accent-foreground"
             else "bg-destructive text-destructive-foreground")
  /\ Dashboard.getSeverityColor s = TimelineDisplay.getSeverityColor s
  /\ VoiceRecordingDisplay.getSeverityColor s
     = (if String.eqb (VoiceRecordingDisplay.getSeverityLabel s) "Low Impact"
        then "text-success"
        else if String.eqb (VoiceRecordingDisplay.getSeverityLabel s) "Moderate Impact"
             then "text-accent"
             else "text-destructive")
  /\ VoiceRecordingDisplay.getSeverityColor s
     = (if String.eqb label "Low" then "text-success"
        else if String.eqb label "Medium" then "text-accent"
        else "text-destructive")
  /\ (label = "Low" <-> s <= 2)
  /\ (label = "Medium" <-> s = 3)
  /\ (label = "High" <-> 4 <= s).
Proof.
  intros s label. subst label s.
  unfold Dashboard.getSeverityLabel, Dashboard.getSeverityColor, LegalTools.level,
    TimelineDisplay.getSeverityLabel, VoiceRecordingDisplay.getSeverityLabel,
    TimelineDisplay.getSeverityColor, VoiceRecordingDisplay.getSeverityColor.
  destruct (Incident.severity i <=? 2) eqn:A;
    [apply Z.leb_le in A | apply Z.leb_gt in A];
    (destruct (Incident.severity i <=? 3) eqn:B;
     [apply Z.leb_le in B | apply Z.leb_gt in B]);
    cbn; repeat split; intros; try discriminate; try reflexivity; lia.
Qed.

End DashboardFacts.

Section SeverityOptionExamples.
Existing Instance UtcHost.dates.
Existing Instance UtcHost.metrics.

(** An incident of severity 3 among the twelve. *)
Lemma severity_options_example :
  let i := Incident.mk "1704103200001" "2024-01-01T10:00:00.000Z" "Meltdown" 3
                       None "episode 1" [] in
  In i (IncidentTimeline.filterIncidents twelveIncidents "" "all" "3-3"
          IncidentTimeline.newest)
  /\ ~ In i (IncidentTimeline.filterIncidents twelveIncidents "" "all" "1-2"
               IncidentTimeline.newest).
Proof.
  intros i.
  destruct (@severity_options_select_by_label
              UtcHost.dates twelveIncidents
              IncidentTimeline.newest i ltac:(cbn; lia)) as (L & M & _).
  split.
  - apply M. split; [left|]; reflexivity.
  - intros X. apply L in X. destruct X as [_ X]. discriminate X.
Defined.

End SeverityOptionExamples.
(** ** Settings: a backup read back *)

Section BackupFacts.
Import Settings.

(** X27. A backup restores the incidents.  The document that [exportData]
    writes, read back by [importData] in any state of the page (after
    [clearAllData], or on another device), puts the incidents of the exported
    store in the storage in place of those that were there, also when the
    exported store had none; the settings key holds the exported settings
    (an empty object when there were none), the toast tells the number of
    incidents, and the export itself changed the date of the last backup
    only. *)
Theorem backup_restores_the_incidents (clock : Clock) (w target : World) :
  let file := fst (exportData clock w) in
  let restored := importData (Some (Parsed (content file))) target in
  getIncidents (localStorage restored) = getIncidents (localStorage w)
  /\ childfirst_settings (localStorage restored)
     = Some (match childfirst_settings (localStorage w) with
             | Some o => o
             | None => []
             end)
  /\ childfirst_last_backup (localStorage restored)
     = childfirst_last_backup (localStorage target)
  /\ toasts restored
     = (toasts target
        ++ [importedToast (length (getIncidents (localStorage w)))])%list
  /\ localStorage (snd (exportData clock w))
     = setLastBackup (nowISO clock) (localStorage w)
  /\ getIncidents (localStorage (importData (Some (Parsed (content file)))
                                            (clearAllData w)))
     = getIncidents (localStorage w).
Proof.
  intros file restored. subst restored file.
  unfold exportData, importData. cbn [fst snd content incidents settings].
  cbn [localStorage toasts setIncidents setSettingsItem getIncidents
       childfirst_incidents childfirst_settings childfirst_last_backup].
  repeat split.
Qed.

End BackupFacts.
